(** * PiTiZed: the camera control-protocol client of the Electron main process

    A shallow embedding of the HTTP authentication builders, the per-host
    auth cache, the authenticated transport, the command handlers and the
    UDP discovery window, followed by the properties proved about them.

    Conventions of the model:
    - a JavaScript string is a [string] whose characters are the bytes of its
      UTF-8 encoding, so the bytes a hash or a Buffer sees are the string's own;
    - a plain object used as a dictionary is a [gmap string _];
    - the module-level [authCache] and the network live in an explicit
      [World] that every transport function threads through;
    - a promise is modelled by the value it settles with. *)

From Stdlib Require Import ZArith List Ascii String Lia Bool.
From stdpp Require Import base option gmap strings.
Import ListNotations.

Local Open Scope Z_scope.

(* ------------------------------------------------------------------ *)
(** ** JavaScript strings *)
(* ------------------------------------------------------------------ *)

Module Js.

(** The double quote, built from its code. *)
Definition dquote : string := String (ascii_of_nat 34) EmptyString.

Definition code (c : ascii) : Z := Z.of_N (N_of_ascii c).
Definition chr (z : Z) : ascii := ascii_of_N (Z.to_N z).

Fixpoint bytes (s : string) : list Z :=
  match s with
  | EmptyString => []
  | String c s' => code c :: bytes s'
  end.

Fixpoint ofBytes (l : list Z) : string :=
  match l with
  | [] => EmptyString
  | b :: l' => String (chr b) (ofBytes l')
  end.

(** [s.startsWith(p)] *)
Definition startsWith (s p : string) : bool := String.prefix p s.

(** [s.endsWith(p)] *)
Definition endsWith (s p : string) : bool :=
  let n := String.length s in
  let k := String.length p in
  (k <=? n)%nat && String.eqb (String.substring (n - k) k s) p.

(** [s.includes(needle)] *)
Fixpoint includes (s needle : string) : bool :=
  String.prefix needle s
  || match s with
     | EmptyString => false
     | String _ s' => includes s' needle
     end.

(** [s.toUpperCase()] and [s.toLowerCase()] on the ASCII letters; every
    other byte (in particular the bytes of a multi-byte character) is kept. *)
Definition upperChar (c : ascii) : ascii :=
  let n := code c in if (97 <=? n) && (n <=? 122) then chr (n - 32) else c.
Definition lowerChar (c : ascii) : ascii :=
  let n := code c in if (65 <=? n) && (n <=? 90) then chr (n + 32) else c.

Fixpoint mapChars (f : ascii -> ascii) (s : string) : string :=
  match s with
  | EmptyString => EmptyString
  | String c s' => String (f c) (mapChars f s')
  end.

Definition toUpperCase : string -> string := mapChars upperChar.
Definition toLowerCase : string -> string := mapChars lowerChar.

(** White space of the one-byte range: TAB, LF, VT, FF, CR and SP. *)
Definition isSpace (c : ascii) : bool :=
  let n := code c in ((9 <=? n) && (n <=? 13)) || (n =? 32).

Fixpoint trimStart (s : string) : string :=
  match s with
  | EmptyString => EmptyString
  | String c s' => if isSpace c then trimStart s' else s
  end.

Fixpoint rev (s : string) (acc : string) : string :=
  match s with
  | EmptyString => acc
  | String c s' => rev s' (String c acc)
  end.

(** [s.trim()] *)
Definition trim (s : string) : string :=
  rev (trimStart (rev (trimStart s) EmptyString)) EmptyString.

(** [s.split(sep)] for a one-character separator: never the empty list. *)
Fixpoint split (sep : ascii) (s : string) : list string :=
  match s with
  | EmptyString => [EmptyString]
  | String c s' =>
      if Ascii.eqb c sep then EmptyString :: split sep s'
      else match split sep s' with
           | [] => [String c EmptyString]
           | h :: t => String c h :: t
           end
  end.

(** [s.split(sep)[0]] *)
Definition splitHead (sep : ascii) (s : string) : string :=
  match split sep s with
  | [] => EmptyString
  | h :: _ => h
  end.

(** [parts.join(sep)] *)
Fixpoint join (sep : string) (parts : list string) : string :=
  match parts with
  | [] => EmptyString
  | [p] => p
  | p :: rest => p +:+ sep +:+ join sep rest
  end.

(** [s.padStart(n, '0')] *)
Fixpoint zeros (n : nat) : string :=
  match n with
  | O => EmptyString
  | S n' => String "0"%char (zeros n')
  end.
Definition padStart0 (n : nat) (s : string) : string :=
  zeros (n - String.length s) +:+ s.

(** A string is falsy exactly when it is empty. *)
Definition truthy (s : string) : bool :=
  match s with EmptyString => false | _ => true end.

(** An optional property in a template literal: [undefined] is spelled out. *)
Definition tmpl (o : option string) : string := default "undefined" o.

(** [o || d] for an optional string property. *)
Definition orElse (o : option string) (d : string) : string :=
  match o with
  | Some s => if truthy s then s else d
  | None => d
  end.

(** Truthiness of an optional string property. *)
Definition present (o : option string) : bool :=
  match o with Some s => truthy s | None => false end.

Definition hexDigit (n : Z) : ascii :=
  if n <? 10 then chr (48 + n) else chr (87 + n).

Definition isLowerHexDigit (c : ascii) : bool :=
  let n := code c in
  ((48 <=? n) && (n <=? 57)) || ((97 <=? n) && (n <=? 102)).

(** Two lower-case hexadecimal digits per byte, as [toString('hex')]. *)
Fixpoint hexOfBytes (l : list Z) : string :=
  match l with
  | [] => EmptyString
  | b :: l' =>
      String (hexDigit (Z.shiftr b 4 mod 16))
        (String (hexDigit (b mod 16)) (hexOfBytes l'))
  end.

End Js.

(* ------------------------------------------------------------------ *)
(** ** Hash functions of [crypto.createHash] *)
(* ------------------------------------------------------------------ *)

Module Crypto.

Definition mask32 (x : Z) : Z := Z.land x 0xffffffff.
Definition add32 (x y : Z) : Z := mask32 (x + y).
Definition not32 (x : Z) : Z := Z.lxor x 0xffffffff.
Definition rotl32 (x n : Z) : Z :=
  Z.lor (mask32 (Z.shiftl x n)) (Z.shiftr x (32 - n)).
Definition rotr32 (x n : Z) : Z :=
  Z.lor (Z.shiftr x n) (mask32 (Z.shiftl x (32 - n))).

(** [k] bytes of [x], least significant first. *)
Fixpoint leBytes (k : nat) (x : Z) : list Z :=
  match k with
  | O => []
  | S k' => x mod 256 :: leBytes k' (Z.shiftr x 8)
  end.
Definition beBytes (k : nat) (x : Z) : list Z := List.rev (leBytes k x).

Fixpoint leWord (l : list Z) : Z :=
  match l with
  | [] => 0
  | b :: l' => b + 256 * leWord l'
  end.
Definition beWord (l : list Z) : Z := leWord (List.rev l).

(** Cut a list into pieces of [k] elements; [fuel] bounds the pieces. *)
Fixpoint chunks {A} (fuel k : nat) (l : list A) : list (list A) :=
  match fuel with
  | O => []
  | S fuel' =>
      match l with
      | [] => []
      | _ => firstn k l :: chunks fuel' k (skipn k l)
      end
  end.

(** Message padding shared by MD5 and SHA-256: a 1 bit, zeros up to 56
    modulo 64, then the bit length on eight bytes. *)
Definition pad (lenBytes : Z -> list Z) (msg : list Z) : list Z :=
  let n := Z.of_nat (List.length msg) in
  let z := (55 - n) mod 64 in
  msg ++ [128] ++ repeat 0 (Z.to_nat z) ++ lenBytes (8 * n).

Definition blocks (lenBytes : Z -> list Z) (wordOf : list Z -> Z)
    (msg : list Z) : list (list Z) :=
  let p := pad lenBytes msg in
  map (fun blk => map wordOf (chunks 16 4 blk)) (chunks (List.length p) 64 p).

Definition nthZ (l : list Z) (i : Z) : Z := nth (Z.to_nat i) l 0.

(** *** MD5 (RFC 1321) *)

Definition md5S : list Z :=
  [7; 12; 17; 22; 7; 12; 17; 22; 7; 12; 17; 22; 7; 12; 17; 22;
   5; 9; 14; 20; 5; 9; 14; 20; 5; 9; 14; 20; 5; 9; 14; 20;
   4; 11; 16; 23; 4; 11; 16; 23; 4; 11; 16; 23; 4; 11; 16; 23;
   6; 10; 15; 21; 6; 10; 15; 21; 6; 10; 15; 21; 6; 10; 15; 21].

Definition md5K : list Z :=
  [0xd76aa478; 0xe8c7b756; 0x242070db; 0xc1bdceee;
   0xf57c0faf; 0x4787c62a; 0xa8304613; 0xfd469501;
   0x698098d8; 0x8b44f7af; 0xffff5bb1; 0x895cd7be;
   0x6b901122; 0xfd987193; 0xa679438e; 0x49b40821;
   0xf61e2562; 0xc040b340; 0x265e5a51; 0xe9b6c7aa;
   0xd62f105d; 0x02441453; 0xd8a1e681; 0xe7d3fbc8;
   0x21e1cde6; 0xc33707d6; 0xf4d50d87; 0x455a14ed;
   0xa9e3e905; 0xfcefa3f8; 0x676f02d9; 0x8d2a4c8a;
   0xfffa3942; 0x8771f681; 0x6d9d6122; 0xfde5380c;
   0xa4beea44; 0x4bdecfa9; 0xf6bb4b60; 0xbebfbc70;
   0x289b7ec6; 0xeaa127fa; 0xd4ef3085; 0x04881d05;
   0xd9d4d039; 0xe6db99e5; 0x1fa27cf8; 0xc4ac5665;
   0xf4292244; 0x432aff97; 0xab9423a7; 0xfc93a039;
   0x655b59c3; 0x8f0ccc92; 0xffeff47d; 0x85845dd1;
   0x6fa87e4f; 0xfe2ce6e0; 0xa3014314; 0x4e0811a1;
   0xf7537e82; 0xbd3af235; 0x2ad7d2bb; 0xeb86d391].

Definition md5Round (m : list Z) (st : Z * Z * Z * Z) (i : Z) : Z * Z * Z * Z :=
  let '(a, b, c, d) := st in
  let '(f, g) :=
    if i <? 16 then (Z.lor (Z.land b c) (Z.land (not32 b) d), i)
    else if i <? 32 then (Z.lor (Z.land d b) (Z.land (not32 d) c), (5 * i + 1) mod 16)
    else if i <? 48 then (Z.lxor (Z.lxor b c) d, (3 * i + 5) mod 16)
    else (Z.lxor c (Z.lor b (not32 d)), (7 * i) mod 16) in
  let f' := add32 (add32 (add32 f a) (nthZ md5K i)) (nthZ m g) in
  (d, add32 b (rotl32 f' (nthZ md5S i)), b, c).

Definition md5Block (st : Z * Z * Z * Z) (m : list Z) : Z * Z * Z * Z :=
  let '(a0, b0, c0, d0) := st in
  let '(a, b, c, d) := fold_left (md5Round m) (map Z.of_nat (seq 0 64)) st in
  (add32 a0 a, add32 b0 b, add32 c0 c, add32 d0 d).

Definition md5Bytes (msg : list Z) : list Z :=
  let '(a, b, c, d) :=
    fold_left md5Block (blocks (leBytes 8) leWord msg)
      (0x67452301, 0xefcdab89, 0x98badcfe, 0x10325476) in
  leBytes 4 a ++ leBytes 4 b ++ leBytes 4 c ++ leBytes 4 d.

(** [crypto.createHash('md5').update(str).digest('hex')] *)
Definition md5 (str : string) : string := Js.hexOfBytes (md5Bytes (Js.bytes str)).

(** *** SHA-256 (FIPS 180-4) *)

(** The value of a hexadecimal digit, either case. *)
Definition hexValue (c : ascii) : option Z :=
  let n := Js.code c in
  if (48 <=? n) && (n <=? 57) then Some (n - 48)
  else if (97 <=? n) && (n <=? 102) then Some (n - 87)
  else if (65 <=? n) && (n <=? 70) then Some (n - 55)
  else None.

(** The words of a table written as hexadecimal numerals separated by
    blanks, the way the standard prints it. *)
Fixpoint wordsOfHex (s : string) (cur : option Z) : list Z :=
  match s with
  | EmptyString => match cur with Some x => [x] | None => [] end
  | String c s' =>
      match hexValue c, cur with
      | Some d, Some x => wordsOfHex s' (Some (16 * x + d))
      | Some d, None => wordsOfHex s' (Some d)
      | None, Some x => x :: wordsOfHex s' None
      | None, None => wordsOfHex s' None
      end
  end.

(** The sixty-four round constants (FIPS 180-4, section 4.2.2). *)
Definition sha256K : list Z :=
  wordsOfHex
    "428a2f98 71374491 b5c0fbcf e9b5dba5 3956c25b 59f111f1 923f82a4 ab1c5ed5
     d807aa98 12835b01 243185be 550c7dc3 72be5d74 80deb1fe 9bdc06a7 c19bf174
     e49b69c1 efbe4786 0fc19dc6 240ca1cc 2de92c6f 4a7484aa 5cb0a9dc 76f988da
     983e5152 a831c66d b00327c8 bf597fc7 c6e00bf3 d5a79147 06ca6351 14292967
     27b70a85 2e1b2138 4d2c6dfc 53380d13 650a7354 766a0abb 81c2c92e 92722c85
     a2bfe8a1 a81a664b c24b8b70 c76c51a3 d192e819 d6990624 f40e3585 106aa070
     19a4c116 1e376c08 2748774c 34b0bcb5 391c0cb3 4ed8aa4a 5b9cca4f 682e6ff3
     748f82ee 78a5636f 84c87814 8cc70208 90befffa a4506ceb bef9a3f7 c67178f2"
    None.

(** The initial hash value (FIPS 180-4, section 5.3.3). *)
Definition sha256H0 : list Z :=
  wordsOfHex "6a09e667 bb67ae85 3c6ef372 a54ff53a 510e527f 9b05688c 1f83d9ab 5be0cd19"
    None.

Definition ssig0 (x : Z) : Z :=
  Z.lxor (Z.lxor (rotr32 x 7) (rotr32 x 18)) (Z.shiftr x 3).
Definition ssig1 (x : Z) : Z :=
  Z.lxor (Z.lxor (rotr32 x 17) (rotr32 x 19)) (Z.shiftr x 10).
Definition bsig0 (x : Z) : Z :=
  Z.lxor (Z.lxor (rotr32 x 2) (rotr32 x 13)) (rotr32 x 22).
Definition bsig1 (x : Z) : Z :=
  Z.lxor (Z.lxor (rotr32 x 6) (rotr32 x 11)) (rotr32 x 25).

(** The message schedule, extended one word at a time up to 64 words. *)
Definition scheduleStep (w : list Z) (t : Z) : list Z :=
  w ++ [add32 (add32 (add32 (ssig1 (nthZ w (t - 2))) (nthZ w (t - 7)))
                     (ssig0 (nthZ w (t - 15)))) (nthZ w (t - 16))].
Definition schedule (m : list Z) : list Z :=
  fold_left scheduleStep (map Z.of_nat (seq 16 48)) m.

Definition sha256Round (w : list Z) (st : list Z) (t : Z) : list Z :=
  match st with
  | [a; b; c; d; e; f; g; h] =>
      let ch := Z.lxor (Z.land e f) (Z.land (not32 e) g) in
      let maj := Z.lxor (Z.lxor (Z.land a b) (Z.land a c)) (Z.land b c) in
      let t1 := add32 (add32 (add32 (add32 h (bsig1 e)) ch) (nthZ sha256K t)) (nthZ w t) in
      let t2 := add32 (bsig0 a) maj in
      [add32 t1 t2; a; b; c; add32 d t1; e; f; g]
  | _ => st
  end.

Fixpoint zipAdd (x y : list Z) : list Z :=
  match x, y with
  | a :: x', b :: y' => add32 a b :: zipAdd x' y'
  | _, _ => []
  end.

Definition sha256Block (st : list Z) (m : list Z) : list Z :=
  zipAdd st (fold_left (sha256Round (schedule m)) (map Z.of_nat (seq 0 64)) st).

Definition sha256Bytes (msg : list Z) : list Z :=
  flat_map (beBytes 4) (fold_left sha256Block (blocks (beBytes 8) beWord msg) sha256H0).

(** [crypto.createHash('sha256').update(str).digest('hex')] *)
Definition sha256 (str : string) : string := Js.hexOfBytes (sha256Bytes (Js.bytes str)).

End Crypto.

(* ------------------------------------------------------------------ *)
(** ** JavaScript numbers *)
(* ------------------------------------------------------------------ *)

Module Num.

(** A number is [NaN], an infinity, or the dyadic rational [m / 2^e];
    every finite double is of that form. *)
Inductive number :=
| NaN
| Infinity (negative : bool)
| Finite (m : Z) (e : nat).

Definition ofZ (z : Z) : number := Finite z 0.

Definition pow2 (e : nat) : Z := 2 ^ Z.of_nat e.

(** [a <= b] on numbers other than [NaN]. *)
Definition leb (a b : number) : bool :=
  match a, b with
  | Infinity true, _ => true
  | _, Infinity false => true
  | Finite m1 e1, Finite m2 e2 => m1 * pow2 e2 <=? m2 * pow2 e1
  | _, _ => false
  end.

(** [Math.min(a, b)] and [Math.max(a, b)]: [NaN] if either argument is. *)
Definition min (a b : number) : number :=
  match a, b with
  | NaN, _ | _, NaN => NaN
  | _, _ => if leb a b then a else b
  end.
Definition max (a b : number) : number :=
  match a, b with
  | NaN, _ | _, NaN => NaN
  | _, _ => if leb a b then b else a
  end.

(** Falsy numbers are the zeros and [NaN]. *)
Definition truthy (a : number) : bool :=
  match a with
  | NaN => false
  | Infinity _ => true
  | Finite m _ => negb (m =? 0)
  end.

Fixpoint hexDigits (fuel : nat) (z : Z) (acc : string) : string :=
  match fuel with
  | O => acc
  | S fuel' =>
      let acc' := String (Js.hexDigit (z mod 16)) acc in
      if z / 16 =? 0 then acc' else hexDigits fuel' (z / 16) acc'
  end.

(** The hexadecimal numeral of a natural number, lower case. *)
Definition hexInt (z : Z) : string :=
  hexDigits (S (Z.to_nat (Z.log2 z))) z EmptyString.

(** The digits after the radix point of [r / 2^e], [0 <= r < 2^e]. *)
Fixpoint hexFraction (fuel : nat) (r : Z) (e : nat) : string :=
  match fuel with
  | O => EmptyString
  | S fuel' =>
      if r =? 0 then EmptyString
      else String (Js.hexDigit (16 * r / pow2 e))
                  (hexFraction fuel' (16 * r mod pow2 e) e)
  end.

(** [x.toString(16)]: integer part, then a radix point and the exact
    expansion of the fraction when there is one. An engine may print fewer
    digits of a long fraction, as many as tell the double from its
    neighbours; an integer, and a fraction as short as one half, print as
    here. *)
Definition toString16 (x : number) : string :=
  match x with
  | NaN => "NaN"
  | Infinity false => "Infinity"
  | Infinity true => "-Infinity"
  | Finite m e =>
      let a := Z.abs m in
      let r := a mod pow2 e in
      (if m <? 0 then "-" else EmptyString)
      +:+ hexInt (a / pow2 e)
      +:+ (if r =? 0 then EmptyString else "." +:+ hexFraction e r e)
  end.

End Num.

(* ------------------------------------------------------------------ *)
(** ** Base64 as written by [Buffer.toString('base64')] *)
(* ------------------------------------------------------------------ *)

Module Base64.

Definition digit (n : Z) : ascii :=
  if n <? 26 then Js.chr (65 + n)
  else if n <? 52 then Js.chr (71 + n)
  else if n <? 62 then Js.chr (n - 4)
  else if n =? 62 then "+"%char
  else "/"%char.

Fixpoint encode (l : list Z) : string :=
  match l with
  | [] => EmptyString
  | [a] =>
      String (digit (a / 4))
        (String (digit (a mod 4 * 16)) "==")
  | [a; b] =>
      String (digit (a / 4))
        (String (digit (a mod 4 * 16 + b / 16))
           (String (digit (b mod 16 * 4)) "="))
  | a :: b :: c :: rest =>
      String (digit (a / 4))
        (String (digit (a mod 4 * 16 + b / 16))
           (String (digit (b mod 16 * 4 + c / 64))
              (String (digit (c mod 64)) (encode rest))))
  end.

Definition value (c : ascii) : option Z :=
  let n := Js.code c in
  if (65 <=? n) && (n <=? 90) then Some (n - 65)
  else if (97 <=? n) && (n <=? 122) then Some (n - 71)
  else if (48 <=? n) && (n <=? 57) then Some (n + 4)
  else if n =? 43 then Some 62
  else if n =? 47 then Some 63
  else None.

(** The strict inverse of [encode], used to state that the payload of a
    snapshot is recoverable byte for byte. *)
Fixpoint decode (s : string) : option (list Z) :=
  match s with
  | EmptyString => Some []
  | String c1 (String c2 (String c3 (String c4 rest))) =>
      match value c1, value c2 with
      | Some v1, Some v2 =>
          let a := v1 * 4 + v2 / 16 in
          if Ascii.eqb c3 "="%char then
            if Ascii.eqb c4 "="%char && String.eqb rest EmptyString
            then Some [a] else None
          else
            match value c3 with
            | Some v3 =>
                let b := v2 mod 16 * 16 + v3 / 4 in
                if Ascii.eqb c4 "="%char then
                  if String.eqb rest EmptyString then Some [a; b] else None
                else
                  match value c4, decode rest with
                  | Some v4, Some tl => Some (a :: b :: (v3 mod 4 * 64 + v4) :: tl)
                  | _, _ => None
                  end
            | None => None
            end
      | _, _ => None
      end
  | _ => None
  end.

End Base64.

(* ------------------------------------------------------------------ *)
(** ** HTTP authentication builders *)
(* ------------------------------------------------------------------ *)

(** The parameters of a challenge, an object filled by [parseAuthParams]. *)
Abbreviation Challenge := (gmap string string).

Module Regex.

(** [\w] *)
Definition isWord (c : ascii) : bool :=
  let n := Js.code c in
  ((48 <=? n) && (n <=? 57)) || ((65 <=? n) && (n <=? 90))
  || ((97 <=? n) && (n <=? 122)) || (n =? 95).

(** [[^\s,]] *)
Definition isBare (c : ascii) : bool :=
  negb (Js.isSpace c) && negb (Ascii.eqb c ","%char).

Definition isQuote (c : ascii) : bool := Js.code c =? 34.

(** The longest prefix of characters satisfying [p], and the rest. *)
Fixpoint span (p : ascii -> bool) (s : string) : string * string :=
  match s with
  | EmptyString => (EmptyString, EmptyString)
  | String c s' =>
      if p c then let '(h, t) := span p s' in (String c h, t)
      else (EmptyString, s)
  end.

(** The quoted alternative at the head of [s]: an opening quote, lazily any
    characters but a quote, a closing quote; the value is the text between. *)
Definition quoted (s : string) : option (string * string) :=
  match s with
  | String c s' =>
      if isQuote c then
        match span (fun x => negb (isQuote x)) s' with
        | (v, String _ rest) => Some (v, rest)
        | (_, EmptyString) => None
        end
      else None
  | EmptyString => None
  end.

(** One match of the pattern anchored at the head of [s]: a run of word
    characters, an equals sign, then the quoted alternative or else a run of
    characters that are neither white space nor a comma. The result is the
    name [m[1]], the value ([m[2]] when the quoted alternative matched,
    else [m[3]]) and the text after the match. *)
Definition matchParam (s : string) : option (string * string * string) :=
  match span isWord s with
  | (EmptyString, _) => None
  | (k, String c r) =>
      if Ascii.eqb c "="%char then
        match quoted r with
        | Some (v, rest) => Some (k, v, rest)
        | None =>
            match span isBare r with
            | (EmptyString, _) => None
            | (v, rest) => Some (k, v, rest)
            end
        end
      else None
  | (_, EmptyString) => None
  end.

End Regex.

(** [params[k] = v] on an object literal: assigning a string to [__proto__]
    leaves the object as it is. *)
Definition setParam (k v : string) (params : Challenge) : Challenge :=
  if String.eqb k "__proto__" then params else <[k := v]> params.

(** The [while ((m = re.exec(header)) !== null)] loop: a failed attempt moves
    the start one character on, a match resumes after its end. *)
Fixpoint parseAuthParamsFrom (fuel : nat) (s : string) (params : Challenge) : Challenge :=
  match fuel with
  | O => params
  | S fuel' =>
      match s with
      | EmptyString => params
      | String _ s' =>
          match Regex.matchParam s with
          | Some (k, v, rest) => parseAuthParamsFrom fuel' rest (setParam k v params)
          | None => parseAuthParamsFrom fuel' s' params
          end
      end
  end.

Definition parseAuthParams (header : string) : Challenge :=
  parseAuthParamsFrom (String.length header) header ∅.

Record AuthHeader := mkAuthHeader { headerName : string; headerValue : string }.

Module Digest.

(** The locals of [buildDigestAuth], one definition each. [rnd] stands for
    the eight bytes of [crypto.randomBytes(8)]. *)
Definition nc : string := "00000001".
Definition cnonce (rnd : list Z) : string := Js.hexOfBytes rnd.
Definition algo (challenge : Challenge) : string :=
  Js.toUpperCase (Js.orElse (challenge !! "algorithm") "MD5").
Definition hash (challenge : Challenge) : string -> string :=
  if Js.startsWith (algo challenge) "SHA-256" then Crypto.sha256 else Crypto.md5.
Definition isSess (challenge : Challenge) : bool :=
  String.eqb (algo challenge) "MD5-SESS" || String.eqb (algo challenge) "SHA-256-SESS".
Definition ha1 (rnd : list Z) (username password : string) (challenge : Challenge) : string :=
  let ha1 := hash challenge
    (username +:+ ":" +:+ Js.tmpl (challenge !! "realm") +:+ ":" +:+ password) in
  if isSess challenge
  then hash challenge
         (ha1 +:+ ":" +:+ Js.tmpl (challenge !! "nonce") +:+ ":" +:+ cnonce rnd)
  else ha1.
Definition ha2 (method uri : string) (challenge : Challenge) : string :=
  hash challenge (method +:+ ":" +:+ uri).
(** [challenge.qop ? challenge.qop.split(',')[0].trim() : null] *)
Definition qop (challenge : Challenge) : option string :=
  match challenge !! "qop" with
  | Some q => if Js.truthy q then Some (Js.trim (Js.splitHead ","%char q)) else None
  | None => None
  end.
Definition response (rnd : list Z) (method uri username password : string)
    (challenge : Challenge) : string :=
  if Js.present (qop challenge)
  then hash challenge
         (ha1 rnd username password challenge +:+ ":" +:+ Js.tmpl (challenge !! "nonce")
          +:+ ":" +:+ nc +:+ ":" +:+ cnonce rnd +:+ ":" +:+ Js.tmpl (qop challenge)
          +:+ ":" +:+ ha2 method uri challenge)
  else hash challenge
         (ha1 rnd username password challenge +:+ ":" +:+ Js.tmpl (challenge !! "nonce")
          +:+ ":" +:+ ha2 method uri challenge).

End Digest.

Definition buildDigestAuth (rnd : list Z) (method uri username password : string)
    (challenge : Challenge) : AuthHeader :=
  let q := Js.dquote in
  let header :=
    "Digest username=" +:+ q +:+ username +:+ q
    +:+ ", realm=" +:+ q +:+ Js.tmpl (challenge !! "realm") +:+ q
    +:+ ", nonce=" +:+ q +:+ Js.tmpl (challenge !! "nonce") +:+ q
    +:+ ", uri=" +:+ q +:+ uri +:+ q
    +:+ ", algorithm=" +:+ Digest.algo challenge
    +:+ ", response=" +:+ q
    +:+ Digest.response rnd method uri username password challenge +:+ q in
  let header :=
    if Js.present (Digest.qop challenge)
    then header +:+ ", qop=" +:+ Js.tmpl (Digest.qop challenge)
         +:+ ", nc=" +:+ Digest.nc
         +:+ ", cnonce=" +:+ q +:+ Digest.cnonce rnd +:+ q
    else header in
  let header :=
    if Js.present (challenge !! "opaque")
    then header +:+ ", opaque=" +:+ q +:+ Js.tmpl (challenge !! "opaque") +:+ q
    else header in
  mkAuthHeader "Authorization" header.

Definition buildAuthnAuth (rnd : list Z) (uri username password : string)
    (challenge : Challenge) : AuthHeader :=
  let q := Js.dquote in
  let cnonce := Js.hexOfBytes rnd in
  let ha1 := Crypto.sha256
    (username +:+ ":" +:+ Js.orElse (challenge !! "realm") EmptyString +:+ ":" +:+ password) in
  let ha2 := Crypto.sha256 ("GET:" +:+ uri) in
  let response := Crypto.sha256
    (ha1 +:+ ":" +:+ Js.tmpl (challenge !! "nonce") +:+ ":" +:+ cnonce +:+ ":" +:+ ha2) in
  let header :=
    "Authn username=" +:+ q +:+ username +:+ q
    +:+ ", nonce=" +:+ q +:+ Js.tmpl (challenge !! "nonce") +:+ q
    +:+ ", uri=" +:+ q +:+ uri +:+ q
    +:+ ", response=" +:+ q +:+ response +:+ q
    +:+ ", cnonce=" +:+ q +:+ cnonce +:+ q in
  mkAuthHeader "auth_tkt" header.

Definition buildBasicAuth (username password : string) : AuthHeader :=
  mkAuthHeader "Authorization"
    ("Basic " +:+ Base64.encode (Js.bytes (username +:+ ":" +:+ password))).

Inductive Scheme := digest | authn | basic.

Record Credential := mkCredential { username : string; password : string }.

(** [auth && auth.username && auth.password] *)
Definition usable (auth : option Credential) : option Credential :=
  match auth with
  | Some c => if Js.truthy (username c) && Js.truthy (password c) then Some c else None
  | None => None
  end.

Abbreviation Headers := (gmap string string).

Definition buildRetryHeaders (rnd : list Z) (scheme : Scheme) (uri : string)
    (auth : Credential) (challenge : Challenge) (cookie : option string) : Headers :=
  let headers : Headers := {[ "Connection" := "close" ]} in
  match scheme with
  | digest =>
      let a := buildDigestAuth rnd "GET" uri (username auth) (password auth) challenge in
      <[headerName a := headerValue a]> headers
  | authn =>
      let a := buildAuthnAuth rnd uri (username auth) (password auth) challenge in
      let headers := <["User-From" := "www"]> (<[headerName a := headerValue a]> headers) in
      match cookie with
      | Some c => if Js.truthy c then <["Cookie" := c]> headers else headers
      | None => headers
      end
  | basic =>
      let a := buildBasicAuth (username auth) (password auth) in
      <[headerName a := headerValue a]> headers
  end.

(* ------------------------------------------------------------------ *)
(** ** The world: auth cache, network and entropy *)
(* ------------------------------------------------------------------ *)

(** An entry of [authCache]: [{ scheme, challenge, cookie }]. *)
Record CachedAuth := mkCachedAuth {
  scheme : Scheme;
  challenge : Challenge;
  cookie : option string
}.

Record Request := mkRequest {
  reqMethod : string;
  reqHost : string;
  reqPath : string;
  reqTimeout : Z;
  reqHeaders : Headers
}.

(** What the client reads of a response: the status line, the two headers
    the negotiation looks at, and the body once it has arrived whole. *)
Record Response := mkResponse {
  statusCode : Z;
  wwwAuthenticate : option string;
  setCookie : list string;
  body : string
}.

(** An [Error]: its [code], when the transport set one, and its [message]. *)
Record JsError := mkError { errCode : option string; errMessage : string }.

Definition newError (message : string) : JsError := mkError None message.

(** How a request ends: the response callback, the [error] event or the
    [timeout] event. *)
Inductive Outcome :=
| Responded (res : Response)
| Errored (err : JsError)
| TimedOut.

(** The state every transport function threads through. [network] answers a
    request given the requests sent before it; [entropy k] is the [k]-th
    64-bit value handed out by [crypto.randomBytes(8)]. *)
Record World := mkWorld {
  authCache : gmap string CachedAuth;
  network : list Request -> Request -> Outcome;
  sent : list Request;
  entropy : nat -> Z;
  draws : nat
}.

Definition M (A : Type) : Type := World -> A * World.

#[global] Instance M_ret : MRet M := fun A (a : A) w => (a, w).
#[global] Instance M_bind : MBind M := fun A B (f : A -> M B) (m : M A) w =>
  let '(a, w') := m w in f a w'.

Definition run {A} (m : M A) (w : World) : A * World := m w.

(** [http.get] / [http.request]: the request goes out and ends one way. *)
Definition send (rq : Request) : M Outcome := fun w =>
  (network w (sent w) rq,
   mkWorld (authCache w) (network w) (sent w ++ [rq]) (entropy w) (draws w)).

(** [crypto.randomBytes(8)] *)
Definition randomBytes8 : M (list Z) := fun w =>
  (Crypto.beBytes 8 (entropy w (draws w) mod 2 ^ 64),
   mkWorld (authCache w) (network w) (sent w) (entropy w) (S (draws w))).

(** [authCache.get(ip)], [authCache.set(ip, entry)], [authCache.delete(ip)] *)
Definition cacheGet (ip : string) : M (option CachedAuth) := fun w =>
  (authCache w !! ip, w).
Definition cacheSet (ip : string) (entry : CachedAuth) : M unit := fun w =>
  (tt, mkWorld (<[ip := entry]> (authCache w)) (network w) (sent w) (entropy w) (draws w)).
Definition cacheDelete (ip : string) : M unit := fun w =>
  (tt, mkWorld (delete ip (authCache w)) (network w) (sent w) (entropy w) (draws w)).

(** The error a request hands to [onError]. *)
Definition requestError (o : Outcome) : JsError :=
  match o with
  | Errored err => err
  | _ => newError "Request timed out"
  end.

(** A settled promise. *)
Inductive Settled (A : Type) :=
| Resolved (value : A)
| Rejected (reason : JsError).
Arguments Resolved {A} value.
Arguments Rejected {A} reason.

(* ------------------------------------------------------------------ *)
(** ** Authenticated transport *)
(* ------------------------------------------------------------------ *)

Section Transport.

(** [Buffer.from(s, 'base64').toString()], the lenient decoder of the
    runtime followed by UTF-8 decoding; it returns a string for every input. *)
Variable base64ToString : string -> string.

(** The headers of the retry, drawing the client nonce the builder needs. *)
Definition retryHeaders (scheme : Scheme) (uri : string) (auth : Credential)
    (challenge : Challenge) (cookie : option string) : M Headers :=
  match scheme with
  | basic => mret (buildRetryHeaders [] scheme uri auth challenge cookie)
  | _ => rnd ← randomBytes8;
         mret (buildRetryHeaders rnd scheme uri auth challenge cookie)
  end.

(** [setCookies.find(c => c.startsWith('auth_tkt='))] *)
Definition findTkt (setCookies : list string) : option string :=
  List.find (fun c => Js.startsWith c "auth_tkt=") setCookies.

(** [tktCookie.split('=').slice(1).join('=').split(';')[0]] *)
Definition tktValue (tktCookie : string) : string :=
  Js.splitHead ";"%char (Js.join "=" (List.tl (Js.split "="%char tktCookie))).

(** Scheme detection on a 401: the scheme, its challenge and the session
    cookie, or [None] when nothing is recognised. Decoding the cookie never
    throws, so the [catch] around it has no case here. *)
Definition detectScheme (res : Response) : option (Scheme * Challenge * option string) :=
  let wwwAuth := Js.orElse (wwwAuthenticate res) EmptyString in
  let setCookies := setCookie res in
  let wwwLower := Js.toLowerCase wwwAuth in
  if Js.startsWith wwwLower "digest" then
    Some (digest, parseAuthParams wwwAuth, None)
  else if Js.startsWith wwwLower "authn" || Js.startsWith wwwLower "auth_tkt" then
    Some (authn, parseAuthParams wwwAuth,
          match findTkt setCookies with
          | Some tktCookie => Some (Js.splitHead ";"%char tktCookie)
          | None => None
          end)
  else if Js.startsWith wwwLower "basic" then
    Some (basic, ∅, None)
  else
    match findTkt setCookies with
    | Some tktCookie =>
        let decoded := base64ToString (tktValue tktCookie) in
        let nonce := Js.splitHead "!"%char decoded in
        Some (authn, {[ "nonce" := nonce ]}, Some (Js.splitHead ";"%char tktCookie))
    | None => None
    end.

Definition plainHeaders : Headers := {[ "Connection" := "close" ]}.

(** [authGetFresh]: the result is the error given to [onError] or the
    response given to [onResponse]. *)
Definition authGetFresh (ip urlPath : string) (timeout : Z) (auth : option Credential)
    : M (JsError + Response) :=
  o ← send (mkRequest "GET" ip urlPath timeout plainHeaders);
  match o with
  | Responded res =>
      match usable auth with
      | Some cred =>
          if negb (statusCode res =? 401) then mret (inr res)
          else
            match detectScheme res with
            | None => mret (inl (newError "401 Unauthorized — unknown auth scheme"))
            | Some (scheme, challenge, cookie) =>
                headers ← retryHeaders scheme urlPath cred challenge cookie;
                o2 ← send (mkRequest "GET" ip urlPath timeout headers);
                match o2 with
                | Responded res2 =>
                    if statusCode res2 =? 401
                    then mret (inl (newError "401 Unauthorized - check credentials"))
                    else
                      _ ← cacheSet ip (mkCachedAuth scheme challenge cookie);
                      mret (inr res2)
                | _ => mret (inl (requestError o2))
                end
            end
      | None => mret (inr res)
      end
  | _ => mret (inl (requestError o))
  end.

(** [authGet]: the cached attempt first, when there is an entry and a
    usable credential. *)
Definition authGet (ip urlPath : string) (timeout : Z) (auth : option Credential)
    : M (JsError + Response) :=
  cached ← cacheGet ip;
  match cached, usable auth with
  | Some cached, Some cred =>
      headers ← retryHeaders (scheme cached) urlPath cred (challenge cached) (cookie cached);
      o ← send (mkRequest "GET" ip urlPath timeout headers);
      match o with
      | Responded res =>
          if statusCode res =? 401 then
            _ ← cacheDelete ip;
            authGetFresh ip urlPath timeout auth
          else mret (inr res)
      | _ => mret (inl (requestError o))
      end
  | _, _ => authGetFresh ip urlPath timeout auth
  end.

Definition hasCode (err : JsError) (c : string) : bool :=
  match errCode err with
  | Some c' => String.eqb c' c
  | None => false
  end.

(** [httpGet]: resolves with the body whatever the status. *)
Definition httpGet (ip urlPath : string) (timeout : Z) (auth : option Credential)
    : M (Settled string) :=
  r ← authGet ip urlPath timeout auth;
  match r with
  | inr res => mret (Resolved (body res))
  | inl err =>
      mret (Rejected
        (if hasCode err "ECONNREFUSED"
         then newError "Connection refused - camera may be offline or IP is incorrect"
         else if hasCode err "EHOSTUNREACH" || hasCode err "ENETUNREACH"
         then newError "Network unreachable - check network connection"
         else if hasCode err "ETIMEDOUT"
         then newError "Connection timed out - camera not responding"
         else err))
  end.

(** [httpGetBinary]: a 404 is a rejection, any other status resolves with
    the bytes of the body. *)
Definition httpGetBinary (ip urlPath : string) (timeout : Z) (auth : option Credential)
    : M (Settled string) :=
  r ← authGet ip urlPath timeout auth;
  match r with
  | inr res =>
      if statusCode res =? 404
      then mret (Rejected (newError "404 Not Found - endpoint not supported"))
      else mret (Resolved (body res))
  | inl err =>
      mret (Rejected
        (if hasCode err "ECONNREFUSED"
         then newError "Connection refused - camera may be offline"
         else if hasCode err "ETIMEDOUT"
         then newError "Connection timed out"
         else err))
  end.

(** The headers of [httpPost]: [Object.assign] lets the retry headers win. *)
Definition postHeaders (retryH : option Headers) : Headers :=
  let headers : Headers := <["Content-Length" := "0"]> {[ "Connection" := "close" ]} in
  match retryH with
  | Some h => h ∪ headers
  | None => headers
  end.

(** [httpPost]: one request, with the cached scheme when there is one. *)
Definition httpPost (ip urlPath : string) (timeout : Z) (auth : option Credential)
    : M (Settled string) :=
  cached ← cacheGet ip;
  headers ← match cached, usable auth with
            | Some cached, Some cred =>
                retryH ← retryHeaders (scheme cached) urlPath cred
                           (challenge cached) (cookie cached);
                mret (postHeaders (Some retryH))
            | _, _ => mret (postHeaders None)
            end;
  o ← send (mkRequest "POST" ip urlPath timeout headers);
  match o with
  | Responded res => mret (Resolved (body res))
  | _ =>
      let err := requestError o in
      mret (Rejected
        (if hasCode err "ECONNREFUSED"
         then newError "Connection refused - camera may be offline"
         else if hasCode err "ETIMEDOUT"
         then newError "Connection timed out"
         else err))
  end.

End Transport.

(* ------------------------------------------------------------------ *)
(** ** Command handlers *)
(* ------------------------------------------------------------------ *)

(** A value of a parsed configuration: a number or a string. *)
Inductive Value :=
| VNum (n : Num.number)
| VStr (s : string).

Abbreviation Config := (gmap string Value).

Definition valueTruthy (v : Value) : bool :=
  match v with
  | VNum n => Num.truthy n
  | VStr s => Js.truthy s
  end.

(** [a || b] where [a] is a property that may be missing. *)
Definition valueOr (a : option Value) (b : Value) : Value :=
  match a with
  | Some v => if valueTruthy v then v else b
  | None => b
  end.

(** What a handler returns: [{ success: true, ...payload }] or
    [{ success: false, error }]. [Simulated] is the answer of the built-in
    mock camera, chosen by the host name [mock] before any request is made;
    the simulator itself is not part of the client. *)
Inductive Reply (A : Type) :=
| Simulated
| Success (payload : A)
| Failure (error : string).
Arguments Simulated {A}.
Arguments Success {A} payload.
Arguments Failure {A} error.

Record DeviceInfo := mkDeviceInfo { model : Value; serial : Value; firmware : Value }.
Record Connected := mkConnected { info : DeviceInfo; config : Config }.
Record Snapshot := mkSnapshot { data : string }.

Definition isMock (ip : string) : bool := String.eqb ip "mock".

(** The three reads [camera:connect] issues together. *)
Inductive Group := ImageConf | ExposureConf | FocusConf.

Definition groupLabel (g : Group) : string :=
  match g with
  | ImageConf => "Image conf"
  | ExposureConf => "Exposure conf"
  | FocusConf => "Focus conf"
  end.

Section Dispatcher.

Variable base64ToString : string -> string.

(** [Number(v)] on a string. *)
Variable toNumber : string -> Num.number.

Definition isNaN (n : Num.number) : bool :=
  match n with Num.NaN => true | _ => false end.

(** [line.indexOf('=')] as the text before and after the first equals sign. *)
Fixpoint cutAtEq (line : string) : option (string * string) :=
  match line with
  | EmptyString => None
  | String c rest =>
      if Ascii.eqb c "="%char then Some (EmptyString, rest)
      else match cutAtEq rest with
           | Some (k, v) => Some (String c k, v)
           | None => None
           end
  end.

Definition isNewline (c : ascii) : bool :=
  (Js.code c =? 10) || (Js.code c =? 13).

(** The pieces of [raw] between carriage returns and line feeds. A run of
    several of them yields empty pieces, which [parseLine] skips as it skips
    every line without an equals sign. *)
Fixpoint lines (raw : string) : list string :=
  match raw with
  | EmptyString => [EmptyString]
  | String c raw' =>
      if isNewline c then EmptyString :: lines raw'
      else match lines raw' with
           | [] => [String c EmptyString]
           | h :: t => String c h :: t
           end
  end.

(** The body of the loop of [parse]: [eq > 0] asks for a non-empty text
    before the sign. A key named [__proto__] is not stored. *)
Definition parseLine (r : Config) (line : string) : Config :=
  match cutAtEq line with
  | Some (String c k0, v0) =>
      let k := Js.trim (String c k0) in
      let v := Js.trim v0 in
      let value := if isNaN (toNumber v) then VStr v else VNum (toNumber v) in
      if String.eqb k "__proto__" then r else <[k := value]> r
  | _ => r
  end.

Definition parse (raw : string) : Config := fold_left parseLine (lines raw) ∅.

(** [{ ...a, ...b, ...c }]: a later object wins on a shared key. *)
Definition spread3 (a b c : Config) : Config := c ∪ (b ∪ a).

(** What the [then]/[catch] pair of a concurrent read leaves: the body, or
    the empty string after a failure. *)
Definition bodyOr (r : Settled string) : string :=
  match r with
  | Resolved b => b
  | Rejected _ => EmptyString
  end.

Definition isResolved {A} (r : Settled A) : bool :=
  match r with Resolved _ => true | Rejected _ => false end.

Definition errorLine (label : string) (r : Settled string) : list string :=
  match r with
  | Resolved _ => []
  | Rejected e => [label +:+ ": " +:+ errMessage e]
  end.

(** [camera:connect] on the outcomes of its four reads. [deviceConf] is
    awaited first; [img], [exp] and [foc] run together and [order] is the
    order in which they settle, which is the order their failures are pushed
    onto [errors]. Nothing in the body throws, so the outer [catch] has no
    case here. *)
Definition connect (ip : string) (deviceConf img exp foc : Settled string)
    (order : list Group) : Reply Connected :=
  if isMock ip then Simulated
  else
    let info : Config :=
      match deviceConf with Resolved b => parse b | Rejected _ => ∅ end in
    let read (g : Group) : Settled string :=
      match g with ImageConf => img | ExposureConf => exp | FocusConf => foc end in
    let errors : list string :=
      errorLine "Device config" deviceConf
      ++ flat_map (fun g => errorLine (groupLabel g) (read g)) order in
    let hadAnyResponse : bool :=
      isResolved deviceConf || isResolved img || isResolved exp || isResolved foc in
    if negb hadAnyResponse then
      let firstError :=
        match errors with
        | e :: _ =>
            if Js.truthy e then e
            else "Camera unreachable - check IP address and network connection"
        | [] => "Camera unreachable - check IP address and network connection"
        end in
      Failure firstError
    else
      Success (mkConnected
        (mkDeviceInfo
           (valueOr (info !! "device_model")
              (valueOr (info !! "model") (VStr "PTZOptics Move SE")))
           (valueOr (info !! "serial_number") (valueOr (info !! "sn") (VStr "N/A")))
           (valueOr (info !! "firmware_version") (valueOr (info !! "fw") (VStr "N/A"))))
        (spread3 (parse (bodyOr img)) (parse (bodyOr exp)) (parse (bodyOr foc)))).

(** The tail every movement handler but [camera:ptz] shares: the body of
    the answer is dropped, a rejection becomes the failure. *)
Definition ignoreBody (r : Settled string) : Reply unit :=
  match r with
  | Resolved _ => Success tt
  | Rejected err => Failure (errMessage err)
  end.

Definition ptzPath (cmd s1 s2 : string) : string :=
  let urlPath := "/cgi-bin/ptzctrl.cgi?ptzcmd&" +:+ cmd in
  if String.eqb (Js.toLowerCase cmd) "home" then urlPath
  else if Js.startsWith (Js.toLowerCase cmd) "pos" then urlPath +:+ "&" +:+ s1
  else urlPath +:+ "&" +:+ s1 +:+ "&" +:+ s2.

(** [camera:ptz]; [s1] and [s2] are the speeds as the template prints them. *)
Definition ptz (ip cmd s1 s2 : string) (auth : option Credential) : M (Reply unit) :=
  if isMock ip then mret Simulated
  else
    r ← httpGet base64ToString ip (ptzPath cmd s1 s2) 4000 auth;
    match r with
    | Resolved response =>
        if Js.includes response "401" || Js.includes response "Unauthorized"
        then mret (Failure "Authentication required for PTZ control")
        else mret (Success tt)
    | Rejected err => mret (Failure (errMessage err))
    end.

(** [camera:zoom] *)
Definition zoom (ip dir spd : string) (auth : option Credential) : M (Reply unit) :=
  if isMock ip then mret Simulated
  else
    r ← httpGet base64ToString ip
          ("/cgi-bin/ptzctrl.cgi?ptzcmd&" +:+ dir +:+ "&" +:+ spd) 4000 auth;
    mret (ignoreBody r).

(** [camera:focus] *)
Definition focus (ip cmd : string) (auth : option Credential) : M (Reply unit) :=
  if isMock ip then mret Simulated
  else
    r ← httpGet base64ToString ip
          ("/cgi-bin/ptzctrl.cgi?ptzcmd&" +:+ cmd +:+ "&3") 4000 auth;
    mret (ignoreBody r).

(** [camera:ptzReset] *)
Definition ptzReset (ip : string) (auth : option Credential) : M (Reply unit) :=
  if isMock ip then mret Simulated
  else
    r ← httpGet base64ToString ip "/cgi-bin/param.cgi?pan_tiltdrive_reset" 4000 auth;
    mret (ignoreBody r).

(** [Math.max(0, Math.min(16384, Number(position))).toString(16).padStart(4, '0')] *)
Definition posHex (position : Num.number) : string :=
  Js.padStart0 4
    (Num.toString16 (Num.max (Num.ofZ 0) (Num.min (Num.ofZ 16384) position))).

Definition zoomToPath (position : Num.number) (speed : string) : string :=
  "/cgi-bin/ptzctrl.cgi?ptzcmd&zoomto&" +:+ speed +:+ "&" +:+ posHex position.

(** [camera:zoomTo]; [position] is the number [Number(position)] yields. *)
Definition zoomTo (ip : string) (position : Num.number) (speed : string)
    (auth : option Credential) : M (Reply unit) :=
  if isMock ip then mret Simulated
  else
    r ← httpGet base64ToString ip (zoomToPath position speed) 4000 auth;
    mret (ignoreBody r).

(** [camera:osdNavigate] *)
Definition osdNavigate (ip cmd : string) (auth : option Credential) : M (Reply unit) :=
  if isMock ip then mret Simulated
  else
    r ← httpGet base64ToString ip ("/cgi-bin/ptzctrl.cgi?ptzcmd&" +:+ cmd) 4000 auth;
    mret (ignoreBody r).

(** The two endpoints of a snapshot: the second is tried when the first
    promise rejects. *)
Definition snapshotFetch (ip : string) (auth : option Credential) : M (Settled string) :=
  r ← httpGetBinary base64ToString ip "/cgi-bin/snapshot.cgi" 5000 auth;
  match r with
  | Resolved buf => mret (Resolved buf)
  | Rejected _ => httpGetBinary base64ToString ip "/snapshot.jpg" 5000 auth
  end.

(** The checks of [camera:snapshot] on the bytes it got. The text of the
    buffer is searched for ASCII needles only, which UTF-8 decoding neither
    creates nor destroys, so the search runs on the bytes. *)
Definition snapshotReply (buf : string) : Reply Snapshot :=
  let ok := Success (mkSnapshot (Base64.encode (Js.bytes buf))) in
  if Z.of_nat (String.length buf) <? 1000 then
    let textResponse := buf in
    if Js.includes textResponse "<!DOCTYPE" || Js.includes textResponse "<html" then
      if Js.includes textResponse "401" || Js.includes textResponse "Unauthorized"
      then Failure "Authentication required for snapshots"
      else Failure "Camera returned error page instead of image"
    else ok
  else ok.

(** [camera:snapshot] *)
Definition snapshot (ip : string) (auth : option Credential) : M (Reply Snapshot) :=
  if isMock ip then mret Simulated
  else
    r ← snapshotFetch ip auth;
    match r with
    | Resolved buf => mret (snapshotReply buf)
    | Rejected err => mret (Failure (errMessage err))
    end.

End Dispatcher.

(* ------------------------------------------------------------------ *)
(** ** UDP: discovery window and VISCA pass-through *)
(* ------------------------------------------------------------------ *)

(** A [dgram] socket as the handlers use it. [close()] on a socket that is
    not running throws; [thrown] counts the exceptions that left a callback. *)
Record Socket := mkSocket { isOpen : bool; closeCalls : nat; thrown : nat }.

Definition newSocket : Socket := mkSocket true 0 0.

(** [client.close()]: the socket after the call, and whether the call
    returned (rather than threw). *)
Definition close (s : Socket) : Socket * bool :=
  if isOpen s then (mkSocket false (S (closeCalls s)) (thrown s), true)
  else (mkSocket false (S (closeCalls s)) (S (thrown s)), false).

(** What the event loop can deliver to the socket of [camera:discover]. *)
Inductive SocketEvent :=
| Bound
| Message (address : string)
| SocketError.

Record Discovery := mkDiscovery {
  client : Socket;
  found : list string;
  probes : list Z;
  resolved : option (list string)
}.

Definition startDiscovery : Discovery := mkDiscovery newSocket [] [] None.

(** [resolve(found)]: only the first call settles the promise. *)
Definition resolveWith (found : list string) (r : option (list string)) : option (list string) :=
  match r with
  | Some _ => r
  | None => Some found
  end.

(** [client.close(); resolve(found);] as the [error] handler and the timer
    callback both run it: nothing after a throwing [close] is executed. *)
Definition closeAndResolve (d : Discovery) : Discovery :=
  let '(s, returned) := close (client d) in
  mkDiscovery s (found d) (probes d)
    (if returned then resolveWith (found d) (resolved d) else resolved d).

(** One socket event. A datagram or the bind callback reaches the handlers
    only while the socket is open. *)
Definition onSocketEvent (d : Discovery) (e : SocketEvent) : Discovery :=
  match e with
  | Bound =>
      if isOpen (client d)
      then mkDiscovery (client d) (found d) (probes d ++ [1259; 5678]) (resolved d)
      else d
  | Message address =>
      if isOpen (client d) then
        if existsb (String.eqb address) (found d) then d
        else mkDiscovery (client d) (found d ++ [address]) (probes d) (resolved d)
      else d
  | SocketError => closeAndResolve d
  end.

(** The callback of [setTimeout(..., 3000)]; the timer is never cleared. *)
Definition onWindowExpiry (d : Discovery) : Discovery := closeAndResolve d.

(** One execution of [camera:discover]: the socket events delivered before
    the three seconds are over, the timer callback, and what is delivered
    afterwards. *)
Definition discover (before after : list SocketEvent) : Discovery :=
  fold_left onSocketEvent after
    (onWindowExpiry (fold_left onSocketEvent before startDiscovery)).

(** [camera:visca], for comparison: every path that closes the socket
    before the two seconds are over clears the timer first. *)
Inductive ViscaEvent :=
| Datagram (msg : string)
| SendFailed (message : string).

Record Visca := mkVisca {
  viscaClient : Socket;
  timerArmed : bool;
  viscaResult : option (Reply string)
}.

Definition viscaResolve (r : Reply string) (v : option (Reply string)) :=
  match v with Some _ => v | None => Some r end.

Definition onViscaEvent (v : Visca) (e : ViscaEvent) : Visca :=
  match e with
  | Datagram msg =>
      if isOpen (viscaClient v) then
        let '(s, returned) := close (viscaClient v) in
        mkVisca s false
          (if returned then viscaResolve (Success (Js.hexOfBytes (Js.bytes msg))) (viscaResult v)
           else viscaResult v)
      else v
  | SendFailed message =>
      let '(s, returned) := close (viscaClient v) in
      mkVisca s false
        (if returned then viscaResolve (Failure message) (viscaResult v)
         else viscaResult v)
  end.

Definition onViscaTimeout (v : Visca) : Visca :=
  if timerArmed v then
    let '(s, returned) := close (viscaClient v) in
    mkVisca s false
      (if returned then viscaResolve (Failure "timeout") (viscaResult v) else viscaResult v)
  else v.

Definition visca (before : list ViscaEvent) : Visca :=
  onViscaTimeout (fold_left onViscaEvent before (mkVisca newSocket true None)).

(* ------------------------------------------------------------------ *)
(** ** Reading a Digest header back as fields *)
(* ------------------------------------------------------------------ *)

(** A field of an [Authorization: Digest] header: its name and the text
    after the equals sign, quotes included. *)
Record Field := mkField { fieldName : string; fieldText : string }.

Definition quotedText (s : string) : string := Js.dquote +:+ s +:+ Js.dquote.

(** The fields [buildDigestAuth] writes, in the order it writes them. *)
Definition digestFields (rnd : list Z) (method uri username password : string)
    (challenge : Challenge) : list Field :=
  [ mkField "username" (quotedText username);
    mkField "realm" (quotedText (Js.tmpl (challenge !! "realm")));
    mkField "nonce" (quotedText (Js.tmpl (challenge !! "nonce")));
    mkField "uri" (quotedText uri);
    mkField "algorithm" (Digest.algo challenge);
    mkField "response"
      (quotedText (Digest.response rnd method uri username password challenge)) ]
  ++ (if Js.present (Digest.qop challenge)
      then [ mkField "qop" (Js.tmpl (Digest.qop challenge));
             mkField "nc" Digest.nc;
             mkField "cnonce" (quotedText (Digest.cnonce rnd)) ]
      else [])
  ++ (if Js.present (challenge !! "opaque")
      then [ mkField "opaque" (quotedText (Js.tmpl (challenge !! "opaque"))) ]
      else []).

Definition renderField (f : Field) : string := fieldName f +:+ "=" +:+ fieldText f.

Definition renderDigest (fields : list Field) : string :=
  "Digest " +:+ Js.join ", " (map renderField fields).

Definition hasField (name : string) (fields : list Field) : bool :=
  existsb (fun f => String.eqb (fieldName f) name) fields.

(** Four hexadecimal digits of a number below 65536. *)
Definition fourHex (c : Z) : string :=
  String (Js.hexDigit (c / 4096))
    (String (Js.hexDigit (c / 256 mod 16))
       (String (Js.hexDigit (c / 16 mod 16))
          (String (Js.hexDigit (c mod 16)) EmptyString))).

Fixpoint allChars (p : ascii -> bool) (s : string) : bool :=
  match s with
  | EmptyString => true
  | String c s' => p c && allChars p s'
  end.

(** The challenges and credentials the concrete evaluations below use. *)
Definition sampleRnd : list Z := [1; 35; 69; 103; 137; 171; 205; 239].
Definition challengeEmptyQopToken : Challenge :=
  <["qop" := ",auth"]> (<["nonce" := "y"]> {[ "realm" := "x" ]}).
Definition challengeSha512Sess : Challenge :=
  <["algorithm" := "SHA-512-256-SESS"]> (<["nonce" := "y"]> {[ "realm" := "x" ]}).
Definition challengeMd5Sess : Challenge :=
  <["algorithm" := "md5-sess"]> (<["nonce" := "y"]> {[ "realm" := "x" ]}).
(* ------------------------------------------------------------------ *)
(** ** Naming the requests of a negotiation *)
(* ------------------------------------------------------------------ *)

(** The unauthenticated request of a fresh negotiation. *)
Definition plainRequest (ip urlPath : string) (timeout : Z) : Request :=
  mkRequest "GET" ip urlPath timeout plainHeaders.

(** The authenticated request built in world [w] for a scheme, a challenge
    and a cookie: the cached attempt of [authGet] and the retry of
    [authGetFresh] are both of this form. *)
Definition authRequest (w : World) (ip urlPath : string) (timeout : Z)
    (cred : Credential) (entry : CachedAuth) : Request :=
  mkRequest "GET" ip urlPath timeout
    (fst (run (retryHeaders (scheme entry) urlPath cred (challenge entry) (cookie entry)) w)).

(** The world once [rq] has gone out. *)
Definition afterSend (rq : Request) (w : World) : World := snd (run (send rq) w).

(** The world once the headers of an authenticated request are built. *)
Definition afterHeaders (w : World) (urlPath : string) (cred : Credential)
    (entry : CachedAuth) : World :=
  snd (run (retryHeaders (scheme entry) urlPath cred (challenge entry) (cookie entry)) w).

(** The world in which [authGet] starts the fresh negotiation after a stale
    cached attempt: the attempt is logged and the entry deleted. *)
Definition afterStale (w : World) (ip urlPath : string) (timeout : Z)
    (cred : Credential) (entry : CachedAuth) : World :=
  snd (run (cacheDelete ip)
         (afterSend (authRequest w ip urlPath timeout cred entry)
            (afterHeaders w urlPath cred entry))).

(** The entry a 401 response leads to, when its scheme is recognised. *)
Definition freshEntry (base64ToString : string -> string) (res : Response)
    : option CachedAuth :=
  match detectScheme base64ToString res with
  | Some (scheme, challenge, cookie) => Some (mkCachedAuth scheme challenge cookie)
  | None => None
  end.

(** A camera at 10.0.0.5 used by the concrete runs below. *)
Definition camera : string := "10.0.0.5".
Definition admin : Credential := mkCredential "admin" "secret".

Definition emptyWorld (net : list Request -> Request -> Outcome) : World :=
  mkWorld ∅ net [] (fun _ => 0x0123456789abcdef) 0.

Definition cachedWorld (entry : CachedAuth) (net : list Request -> Request -> Outcome)
    : World :=
  mkWorld {[ camera := entry ]} net [] (fun _ => 0x0123456789abcdef) 0.

(** A firmware that answers every request with status 200 and an
    authentication failure spelled out in the body. *)
Definition bodySays401 : list Request -> Request -> Outcome :=
  fun _ _ => Responded (mkResponse 200 None [] "401 Unauthorized").

(** A camera that answers every request with a short HTML page. *)
Definition htmlPage : list Request -> Request -> Outcome :=
  fun _ _ => Responded (mkResponse 200 None [] "<html><body>401 Unauthorized</body></html>").

(** A camera that accepts nothing that carries an [Authorization] header
    and serves every request without one. *)
Definition openAfterStale : list Request -> Request -> Outcome :=
  fun _ rq =>
    match reqHeaders rq !! "Authorization" with
    | Some _ => Responded (mkResponse 401 None [] "stale")
    | None => Responded (mkResponse 200 None [] "wb_mode=0")
    end.

(** A camera that challenges with Basic and accepts the retry only on
    the third request it sees. *)
Definition basicChallenge : string := "Basic realm=camera".
Definition renegotiates : list Request -> Request -> Outcome :=
  fun history rq =>
    match reqHeaders rq !! "Authorization" with
    | Some _ =>
        if (List.length history <? 2)%nat
        then Responded (mkResponse 401 (Some basicChallenge) [] "stale")
        else Responded (mkResponse 200 None [] "wb_mode=0")
    | None => Responded (mkResponse 401 (Some basicChallenge) [] "")
    end.

(** A camera that rejects every credential. *)
Definition rejectsAll : list Request -> Request -> Outcome :=
  fun _ _ => Responded (mkResponse 401 (Some basicChallenge) [] "").

Definition staleBasic : CachedAuth := mkCachedAuth basic ∅ None.

(** A camera that challenges with Basic and accepts every credential. *)
Definition challengesBasic : list Request -> Request -> Outcome :=
  fun _ rq =>
    match reqHeaders rq !! "Authorization" with
    | Some _ => Responded (mkResponse 200 None [] "wb_mode=0")
    | None => Responded (mkResponse 401 (Some basicChallenge) [] "")
    end.

(** An entry of the vendor scheme, as the cookie fallback leaves it. *)
Definition cachedAuthn : CachedAuth :=
  mkCachedAuth authn {[ "nonce" := "n0nce" ]} (Some "auth_tkt=bjBuY2UhYm9iIXRvaw==").

(* ------------------------------------------------------------------ *)
(** ** The remaining command handlers *)
(* ------------------------------------------------------------------ *)


Record SavedSnapshot := mkSavedSnapshot { savedData : string; savedMime : string }.

Section Handlers.

Variable base64ToString : string -> string.
Variable toNumber : string -> Num.number.

(** [camera:getSettings] on the outcomes of its three reads, each of which
    is replaced by the empty string when it fails. *)
Definition getSettings (ip : string) (img exp foc : Settled string) : Reply Config :=
  if isMock ip then Simulated
  else Success (spread3 (parse toNumber (bodyOr img)) (parse toNumber (bodyOr exp))
                  (parse toNumber (bodyOr foc))).



(** [camera:getVideoUrl]; [index] is the index as the template prints it. *)
Definition getVideoUrl (ip index : string) : string :=
  "http://" +:+ ip +:+ "/video" +:+ index +:+ ".mp4".

Definition imageValuePath (k v : string) : string :=
  "/cgi-bin/ptzctrl.cgi?post_image_value&" +:+ k +:+ "&" +:+ v.

(** The loop [for (const [k, v] of Object.entries(params)) await httpGet(...)]
    inside a [try]: [entries] is the list [Object.entries(params)] yields,
    values as the template prints them; the first rejection leaves the loop. *)
Fixpoint postImageValues (ip : string) (entries : list (string * string))
    (auth : option Credential) : M (Reply unit) :=
  match entries with
  | [] => mret (Success tt)
  | (k, v) :: rest =>
      r ← httpGet base64ToString ip (imageValuePath k v) 4000 auth;
      match r with
      | Resolved _ => postImageValues ip rest auth
      | Rejected err => mret (Failure (errMessage err))
      end
  end.

(** [camera:setImageParam], [camera:setExposureParam] and
    [camera:setFocusParam] have the same body. *)
Definition setImageParam (ip : string) (entries : list (string * string))
    (auth : option Credential) : M (Reply unit) :=
  if isMock ip then mret Simulated else postImageValues ip entries auth.

Definition setExposureParam (ip : string) (entries : list (string * string))
    (auth : option Credential) : M (Reply unit) :=
  if isMock ip then mret Simulated else postImageValues ip entries auth.

Definition setFocusParam (ip : string) (entries : list (string * string))
    (auth : option Credential) : M (Reply unit) :=
  if isMock ip then mret Simulated else postImageValues ip entries auth.

(** The loop of [camera:syncAll]: [entries] is [Object.entries(allParams)],
    a value that is [undefined] or [null] being [None]; such an entry is
    skipped and a rejected read is swallowed by [.catch(() => null)]. *)
Fixpoint syncValues (ip : string) (entries : list (string * option string))
    (auth : option Credential) : M unit :=
  match entries with
  | [] => mret tt
  | (k, None) :: rest => syncValues ip rest auth
  | (k, Some v) :: rest =>
      _ ← httpGet base64ToString ip (imageValuePath k v) 4000 auth;
      syncValues ip rest auth
  end.

(** [camera:syncAll] *)
Definition syncAll (ip : string) (entries : list (string * option string))
    (auth : option Credential) : M (Reply unit) :=
  if isMock ip then mret Simulated
  else _ ← syncValues ip entries auth; mret (Success tt).

(** [camera:setFocusLock]; [lock] is the truthiness of the argument. *)
Definition setFocusLock (ip : string) (lock : bool) (auth : option Credential)
    : M (Reply unit) :=
  if isMock ip then mret (Success tt)
  else
    let cmd := if lock then "lock_mfocus" else "unlock_mfocus" in
    r ← httpGet base64ToString ip ("/cgi-bin/param.cgi?ptzcmd&" +:+ cmd) 4000 auth;
    mret (ignoreBody r).

(** [camera:setOsdState]; [open] is the truthiness of the argument. *)
Definition setOsdState (ip : string) (open : bool) (auth : option Credential)
    : M (Reply unit) :=
  if isMock ip then mret (Success tt)
  else
    let mode := if open then "OSD" else "PTZ" in
    r ← httpGet base64ToString ip ("/cgi-bin/param.cgi?navigate_mode&" +:+ mode) 4000 auth;
    mret (ignoreBody r).

Definition autoTrackingG3Path (enabled : bool) : string :=
  "/cgi-bin/param.cgi?set_overlay&autotracking&" +:+ (if enabled then "on" else "off").

Definition autoTrackingG2Path (enabled : bool) : string :=
  "/cgi-bin/ptzctrl.cgi?post_image_value&autotrack&" +:+ (if enabled then "2" else "3").

(** [camera:setAutoTracking]: the G3 endpoint, then the G2 endpoint when the
    first promise rejects; only a rejection of the second reaches the outer
    [catch]. *)
Definition setAutoTracking (ip : string) (enabled : bool) (auth : option Credential)
    : M (Reply unit) :=
  if isMock ip then mret (Success tt)
  else
    r ← httpGet base64ToString ip (autoTrackingG3Path enabled) 4000 auth;
    match r with
    | Resolved _ => mret (Success tt)
    | Rejected _ =>
        r2 ← httpGet base64ToString ip (autoTrackingG2Path enabled) 4000 auth;
        mret (ignoreBody r2)
    end.

(** The checks of [camera:saveSnapshot] on the bytes it got. *)
Definition saveSnapshotReply (buf : string) : Reply SavedSnapshot :=
  let ok := Success (mkSavedSnapshot (Base64.encode (Js.bytes buf)) "image/jpeg") in
  if Z.of_nat (String.length buf) <? 1000 then
    let text := buf in
    if Js.includes text "<!DOCTYPE" || Js.includes text "<html"
    then Failure "Authentication required or endpoint not supported"
    else ok
  else ok.

(** [camera:saveSnapshot]: the mock camera has no snapshot to save. *)
Definition saveSnapshot (ip : string) (auth : option Credential)
    : M (Reply SavedSnapshot) :=
  if isMock ip then mret (Failure "Snapshots not available in mock mode")
  else
    r ← snapshotFetch base64ToString ip auth;
    match r with
    | Resolved buf => mret (saveSnapshotReply buf)
    | Rejected err => mret (Failure (errMessage err))
    end.







(** The tail the single-read GET handlers share. *)
Definition getFrom (ip urlPath : string) (auth : option Credential) : M (Reply unit) :=
  if isMock ip then mret (Success tt)
  else r ← httpGet base64ToString ip urlPath 4000 auth; mret (ignoreBody r).

(** [camera:setImageValue], [camera:setOverlay], [camera:setTrackPreset] and
    [camera:setIRChannel] *)
Definition setImageValue (ip param value : string) (auth : option Credential)
    : M (Reply unit) :=
  getFrom ip (imageValuePath param value) auth.

Definition setOverlay (ip param value : string) (auth : option Credential)
    : M (Reply unit) :=
  getFrom ip ("/cgi-bin/param.cgi?set_overlay&" +:+ param +:+ "&" +:+ value) auth.

Definition setTrackPreset (ip value : string) (auth : option Credential)
    : M (Reply unit) :=
  getFrom ip (imageValuePath "trackpreset" value) auth.

Definition setIRChannel (ip channel : string) (auth : option Credential)
    : M (Reply unit) :=
  getFrom ip ("/cgi-bin/param.cgi?post_ir_info=&ir_id=" +:+ channel) auth.

End Handlers.

(* ------------------------------------------------------------------ *)
(** ** Writing a challenge header *)
(* ------------------------------------------------------------------ *)

(** A parameter name [parseAuthParams] can store: word characters, at
    least one, and not the name [__proto__]. *)
Definition isParamName (k : string) : bool :=
  allChars Regex.isWord k && Js.truthy k && negb (String.eqb k "__proto__").

(** A value that can stand between quotes: it holds no quote. *)
Definition isQuotable (v : string) : bool :=
  allChars (fun c => negb (Regex.isQuote c)) v.

(** A challenge as a camera writes it: the scheme, a blank, and the
    parameters, each quoted, separated by a comma and a blank. *)
Definition renderParam (kv : string * string) : string :=
  fst kv +:+ "=" +:+ quotedText (snd kv).

Definition renderChallenge (schemeName : string) (params : list (string * string)) : string :=
  schemeName +:+ " " +:+ Js.join ", " (map renderParam params).

(** The parameters as an object: a later one replaces an earlier one of the
    same name. *)
Definition paramsObject (params : list (string * string)) : Challenge :=
  fold_left (fun m kv => <[fst kv := snd kv]> m) params ∅.

(** The events up to the first socket error. *)
Fixpoint beforeError (events : list SocketEvent) : list SocketEvent :=
  match events with
  | [] => []
  | SocketError :: _ => []
  | e :: rest => e :: beforeError rest
  end.

(* ------------------------------------------------------------------ *)
(** ** Vocabulary of the further properties *)
(* ------------------------------------------------------------------ *)

(** A GET request for [path] on [ip] with the timeout of the caller. *)
Definition isGetTo (ip path : string) (t : Z) (rq : Request) : Prop :=
  reqMethod rq = "GET" /\ reqHost rq = ip /\ reqPath rq = path /\ reqTimeout rq = t.

(** A camera that challenges with a scheme the client does not know. *)
Definition bearerOnly : list Request -> Request -> Outcome :=
  fun _ _ => Responded (mkResponse 401 (Some "Bearer realm=camera") [] "").

(** A host that refuses the connection. *)
Definition refuses : list Request -> Request -> Outcome :=
  fun _ _ => Errored (mkError (Some "ECONNREFUSED") "connect ECONNREFUSED 10.0.0.5:80").

(** The line feed and the carriage return followed by a line feed. *)
Definition LF : string := String (ascii_of_nat 10) EmptyString.
Definition CRLF : string := String (ascii_of_nat 13) LF.

(** No equals sign anywhere in the text. *)
Definition noEquals (s : string) : bool :=
  allChars (fun c => negb (Ascii.eqb c "="%char)) s.

(* ------------------------------------------------------------------ *)
(** ** The simulated camera *)
(* ------------------------------------------------------------------ *)

(** The branches taken for the host [mock]. They share two module-level
    objects: [MOCK_DATA.config] and [mockPtz]. Settings are strings and
    numbers; positions are integers, which the arithmetic of the handlers
    keeps exact below 2^53. *)
Module Mock.

Record Ptz := mkPtz { pan : Z; tilt : Z; zoomLevel : Z }.

Record State := mkState { settings : Config; position : Ptz }.

Definition initialSettings : Config :=
  list_to_map
    [ ("wb_mode", VNum (Num.ofZ 0)); ("rgaintuning", VNum (Num.ofZ 10));
      ("bgaintuning", VNum (Num.ofZ 10)); ("exposure_mode", VNum (Num.ofZ 0));
      ("gain", VNum (Num.ofZ 0)); ("gainLimit", VNum (Num.ofZ 15));
      ("backlight", VNum (Num.ofZ 3)); ("iris", VNum (Num.ofZ 0));
      ("shutter", VNum (Num.ofZ 1)); ("focus_mode", VNum (Num.ofZ 2));
      ("drc", VNum (Num.ofZ 0)); ("saturation", VNum (Num.ofZ 4));
      ("bright", VNum (Num.ofZ 7)); ("contrast", VNum (Num.ofZ 7));
      ("hue", VNum (Num.ofZ 7)); ("sharpness", VNum (Num.ofZ 6));
      ("nr2d", VNum (Num.ofZ 0)); ("anti_flicker", VNum (Num.ofZ 0)) ].

Definition initial : State := mkState initialSettings (mkPtz 0 0 0).

(** [(parseInt(s1) || 5) * 2]; [parsed] is what [parseInt] returns, [None]
    for [NaN]. *)
Definition speedOf (parsed : option Z) : Z :=
  match parsed with
  | Some n => if n =? 0 then 5 else n
  | None => 5
  end * 2.

Definition setPan (v : Z) (p : Ptz) : Ptz := mkPtz v (tilt p) (zoomLevel p).
Definition setTilt (v : Z) (p : Ptz) : Ptz := mkPtz (pan p) v (zoomLevel p).

(** The chain of [if (cmd === ...)] statements of [camera:ptz]. *)
Definition ptz (cmd : string) (parsed : option Z) (p : Ptz) : Ptz :=
  let speed := speedOf parsed in
  let p := if String.eqb cmd "up" then setTilt (Z.min 50 (tilt p + speed)) p else p in
  let p := if String.eqb cmd "down" then setTilt (Z.max (-50) (tilt p - speed)) p else p in
  let p := if String.eqb cmd "left" then setPan (Z.max (-100) (pan p - speed)) p else p in
  let p := if String.eqb cmd "right" then setPan (Z.min 100 (pan p + speed)) p else p in
  let p := if String.eqb cmd "upleft"
           then setPan (pan p - speed) (setTilt (tilt p + speed) p) else p in
  let p := if String.eqb cmd "upright"
           then setPan (pan p + speed) (setTilt (tilt p + speed) p) else p in
  let p := if String.eqb cmd "downleft"
           then setPan (pan p - speed) (setTilt (tilt p - speed) p) else p in
  let p := if String.eqb cmd "downright"
           then setPan (pan p + speed) (setTilt (tilt p - speed) p) else p in
  let p := if String.eqb cmd "home" then setPan 0 (setTilt 0 p) else p in
  p.

(** [camera:ptz] on the simulated camera; the reply is always a success. *)
Definition move (cmd : string) (parsed : option Z) (st : State) : State :=
  mkState (settings st) (ptz cmd parsed (position st)).

(** [Object.assign(target, params)] for values that are strings or
    numbers: assigning one of them to [__proto__] changes nothing. *)
Definition assign (params target : Config) : Config :=
  delete "__proto__" params ∪ target.

(** [camera:setImageParam], [camera:setExposureParam] and
    [camera:setFocusParam] *)
Definition setParams (params : Config) (st : State) : State :=
  mkState (assign params (settings st)) (position st).

(** [camera:syncAll]: [Object.assign(MOCK_DATA.config, imgP, expP, focP)] *)
Definition syncAll (imgP expP focP : Config) (st : State) : State :=
  mkState (assign focP (assign expP (assign imgP (settings st)))) (position st).

(** [camera:getSettings]: a copy of the settings. *)
Definition getSettings (st : State) : Config := settings st.

(** [camera:connect] *)
Definition connect (st : State) : Connected :=
  mkConnected (mkDeviceInfo (VStr "Simulated PTZ") (VStr "SIM-001") (VStr "v9.9.9-mock"))
    (settings st).

End Mock.

(** The position is inside the range the simulated camera is meant to
    have: pan from -100 to 100, tilt from -50 to 50. *)
Definition inRange (p : Mock.Ptz) : Prop :=
  -100 <= Mock.pan p <= 100 /\ -50 <= Mock.tilt p <= 50.

Definition isDiagonal (cmd : string) : bool :=
  String.eqb cmd "upleft" || String.eqb cmd "upright"
  || String.eqb cmd "downleft" || String.eqb cmd "downright".

(** The speed read from the argument is not negative. *)
Definition isForward (parsed : option Z) : bool :=
  match parsed with Some n => 0 <=? n | None => true end.

Definition moves (l : list (string * option Z)) (p : Mock.Ptz) : Mock.Ptz :=
  fold_left (fun q m => Mock.ptz (fst m) (snd m) q) l p.

(* ------------------------------------------------------------------ *)
(** ** Definitions and tactics used by the proofs *)
(* ------------------------------------------------------------------ *)

(** One step of a computation in [M]: binds, returns and the primitive
    operations on the world are unfolded, and the pairs they build are
    taken apart. *)
Ltac mstep :=
  unfold run, mbind, M_bind, mret, M_ret, send, cacheGet, cacheSet, cacheDelete,
    randomBytes8 in *;
  cbv beta iota zeta in *;
  cbn [fst snd authCache network sent entropy draws] in *.

(** A check of [test] on [c0], [c0 + 1], ... for [fuel] numbers. *)
Fixpoint checkFrom (test : Z -> bool) (fuel : nat) (c0 : Z) : bool :=
  match fuel with
  | O => true
  | S fuel' => test c0 && checkFrom test fuel' (c0 + 1)
  end.

Definition paddedHexOk (c : Z) : bool :=
  String.eqb (Js.padStart0 4 (Num.hexInt c)) (fourHex c).

Definition isSocketError (e : SocketEvent) : bool :=
  match e with SocketError => true | _ => false end.

Definition digitRoundTrips (n : Z) : bool :=
  match Base64.value (Base64.digit n) with
  | Some m => (m =? n) && negb (Ascii.eqb (Base64.digit n) "="%char)
  | None => false
  end.

Definition isByte (b : Z) : Prop := 0 <= b < 256.

(* ------------------------------------------------------------------ *)
(** ** Test vectors *)
(* ------------------------------------------------------------------ *)

Example md5_empty : Crypto.md5 "" = "d41d8cd98f00b204e9800998ecf8427e".
Proof. vm_compute. reflexivity. Qed.

Example md5_abc : Crypto.md5 "abc" = "900150983cd24fb0d6963f7d28e17f72".
Proof. vm_compute. reflexivity. Qed.

Example sha256_abc :
  Crypto.sha256 "abc"
  = "ba7816bf8f01cfea414140de5dae2223b00361a396177a9cb410ff61f20015ad".
Proof. vm_compute. reflexivity. Qed.

Example md5_two_blocks :
  Crypto.md5 "aaaaaaaaaaaaaaaaaaaaaaaaaaaaaaaaaaaaaaaaaaaaaaaaaaaaaaaaaaaaaaaaaaaaaa"
  = "0f5c6c4e740bfcc08c3c26ccb2673d46".
Proof. vm_compute. reflexivity. Qed.

Example sha256_two_blocks :
  Crypto.sha256 "aaaaaaaaaaaaaaaaaaaaaaaaaaaaaaaaaaaaaaaaaaaaaaaaaaaaaaaaaaaaaaaaaaaaaa"
  = "6bd5e5034855a11241f0dee8fc72850ffd9955b28347a86428b5fa19119f6ad0".
Proof. vm_compute. reflexivity. Qed.

Example toString16_255 : Num.toString16 (Num.ofZ 255) = "ff".
Proof. reflexivity. Qed.

Example toString16_16384 : Num.toString16 (Num.ofZ 16384) = "4000".
Proof. reflexivity. Qed.

Example toString16_half : Num.toString16 (Num.Finite 1 1) = "0.8".
Proof. reflexivity. Qed.

Example toString16_mixed : Num.toString16 (Num.Finite 163 3) = "14.6".
Proof. reflexivity. Qed.

Example base64_user_pass : Base64.encode (Js.bytes "Aladdin:open sesame") = "QWxhZGRpbjpvcGVuIHNlc2FtZQ==".
Proof. reflexivity. Qed.

Example base64_decode_user_pass :
  Base64.decode "QWxhZGRpbjpvcGVuIHNlc2FtZQ==" = Some (Js.bytes "Aladdin:open sesame").
Proof. reflexivity. Qed.

Example parseAuthParams_digest :
  parseAuthParams ("Digest realm=" +:+ Js.dquote +:+ "x" +:+ Js.dquote
                   +:+ ", nonce=" +:+ Js.dquote +:+ "y" +:+ Js.dquote +:+ ", qop=auth")
  = <["qop" := "auth"]> (<["nonce" := "y"]> (<["realm" := "x"]> ∅)).
Proof. vm_compute. reflexivity. Qed.

(* ------------------------------------------------------------------ *)
(** ** Properties of strings and numbers *)
(* ------------------------------------------------------------------ *)

Lemma append_cons (c : ascii) (a b : string) : String c a +:+ b = String c (a +:+ b).
Proof. reflexivity. Qed.

Lemma append_nil_l (s : string) : EmptyString +:+ s = s.
Proof. reflexivity. Qed.

Lemma append_nil_r (s : string) : s +:+ EmptyString = s.
Proof.
  induction s as [|c s IH]; [reflexivity |].
  rewrite append_cons, IH. reflexivity.
Qed.

Lemma append_assoc (a b c : string) : (a +:+ b) +:+ c = a +:+ (b +:+ c).
Proof.
  induction a as [|x a IH]; [reflexivity |].
  rewrite !append_cons, IH. reflexivity.
Qed.

Lemma orElse_empty (o : option string) : Js.orElse o EmptyString = default EmptyString o.
Proof. destruct o as [[|c s]|]; reflexivity. Qed.

Lemma hexDigit_lower (d : Z) : 0 <= d < 16 -> Js.isLowerHexDigit (Js.hexDigit d) = true.
Proof.
  intros H.
  assert (Hd : d = 0 \/ d = 1 \/ d = 2 \/ d = 3 \/ d = 4 \/ d = 5 \/ d = 6 \/ d = 7 \/
               d = 8 \/ d = 9 \/ d = 10 \/ d = 11 \/ d = 12 \/ d = 13 \/ d = 14 \/ d = 15)
    by lia.
  repeat (destruct Hd as [-> | Hd]; [reflexivity |]).
  subst d. reflexivity.
Qed.

Lemma fourHex_lower (c : Z) : 0 <= c < 65536 -> allChars Js.isLowerHexDigit (fourHex c) = true.
Proof.
  intros H. unfold fourHex. cbn [allChars].
  rewrite !hexDigit_lower; [reflexivity | | | |].
  - apply Z.mod_pos_bound. lia.
  - apply Z.mod_pos_bound. lia.
  - apply Z.mod_pos_bound. lia.
  - split; [apply Z.div_pos; lia | apply Z.div_lt_upper_bound; lia].
Qed.

Lemma fourHex_value (c : Z) :
  0 <= c < 65536 ->
  c = c / 4096 * 4096 + c / 256 mod 16 * 256 + c / 16 mod 16 * 16 + c mod 16.
Proof.
  intros H.
  pose proof (Z.div_mod c 16 ltac:(lia)).
  pose proof (Z.div_mod (c / 16) 16 ltac:(lia)).
  pose proof (Z.div_mod (c / 256) 16 ltac:(lia)).
  assert (c / 256 = c / 16 / 16) by (rewrite Z.div_div by lia; reflexivity).
  assert (c / 4096 = c / 256 / 16) by (rewrite Z.div_div by lia; reflexivity).
  lia.
Qed.

Lemma checkFrom_sound (test : Z -> bool) (fuel : nat) :
  forall c0 c, checkFrom test fuel c0 = true ->
               c0 <= c < c0 + Z.of_nat fuel -> test c = true.
Proof.
  induction fuel as [|fuel IH]; intros c0 c Hc Hr; [lia |].
  cbn [checkFrom] in Hc. apply andb_prop in Hc as [H0 Hrest].
  destruct (Z.eq_dec c c0) as [-> | Hne]; [exact H0 |].
  apply (IH (c0 + 1)); [exact Hrest | lia].
Qed.

(** Every integer from 0 to 16384 prints, padded, as its four digits. *)
Lemma padded_hex_table : checkFrom paddedHexOk (Z.to_nat 16385) 0 = true.
Proof. vm_compute. reflexivity. Qed.

Lemma padded_hex (c : Z) :
  0 <= c <= 16384 -> Js.padStart0 4 (Num.hexInt c) = fourHex c.
Proof.
  intros H. apply String.eqb_eq.
  apply (checkFrom_sound paddedHexOk (Z.to_nat 16385) 0 c padded_hex_table).
  rewrite Z2Nat.id; lia.
Qed.

(* ------------------------------------------------------------------ *)
(** ** Zoom position encoding *)
(* ------------------------------------------------------------------ *)

Lemma pow2_pos (e : nat) : 0 < Num.pow2 e.
Proof. unfold Num.pow2. apply Z.pow_pos_nonneg; lia. Qed.

Lemma toString16_nat (m : Z) (e : nat) :
  0 <= m -> m mod Num.pow2 e = 0 ->
  Num.toString16 (Num.Finite m e) = Num.hexInt (m / Num.pow2 e).
Proof.
  intros Hm Hr. unfold Num.toString16.
  rewrite Z.abs_eq by lia. rewrite Hr.
  destruct (Z.ltb_spec m 0) as [Hlt | _]; [lia |].
  change (0 =? 0) with true. cbv iota.
  rewrite append_nil_l, append_nil_r. reflexivity.
Qed.

(** The clamp of an integer-valued number is the clamp of the integer. *)
Lemma posHex_integer (m : Z) (e : nat) :
  m mod Num.pow2 e = 0 ->
  posHex (Num.Finite m e)
  = Js.padStart0 4 (Num.hexInt (Z.max 0 (Z.min 16384 (m / Num.pow2 e)))).
Proof.
  intros Hr.
  pose proof (pow2_pos e) as Hp.
  assert (Hm : m = m / Num.pow2 e * Num.pow2 e).
  { rewrite Z.mul_comm. apply Z.div_exact; lia. }
  set (z := m / Num.pow2 e) in *.
  unfold posHex, Num.min, Num.max, Num.ofZ, Num.leb.
  change (Num.pow2 0) with 1. rewrite !Z.mul_1_r.
  destruct (Z.leb_spec (16384 * Num.pow2 e) m) as [Hbig | Hsmall].
  - change (0 * 1 <=? 16384) with true. cbv iota.
    assert (16384 <= z) by nia.
    rewrite Z.min_l, Z.max_r by lia. reflexivity.
  - assert (z < 16384) by nia.
    rewrite Z.min_r by lia. rewrite ?Z.mul_1_r.
    destruct (Z.leb_spec (0 * Num.pow2 e) m) as [Hpos | Hneg].
    + assert (0 <= z) by nia.
      rewrite Z.max_r by lia.
      rewrite toString16_nat by (assumption || lia). reflexivity.
    + assert (z < 0) by nia.
      rewrite Z.max_l by lia. reflexivity.
Qed.

(** C6, as amended: for every integer-valued position, [zoomTo] clamps it
    to the interval from 0 to 16384 and writes the clamped value into the
    CGI path as exactly four lower-case hexadecimal digits; position -5
    gives 0000 and position 99999 gives 4000. *)
Theorem zoomTo_integer_position (m : Z) (e : nat) (speed : string) :
  m mod Num.pow2 e = 0 ->
  let c := Z.max 0 (Z.min 16384 (m / Num.pow2 e)) in
  0 <= c <= 16384
  /\ posHex (Num.Finite m e) = fourHex c
  /\ allChars Js.isLowerHexDigit (fourHex c) = true
  /\ c = c / 4096 * 4096 + c / 256 mod 16 * 256 + c / 16 mod 16 * 16 + c mod 16
  /\ zoomToPath (Num.Finite m e) speed
     = "/cgi-bin/ptzctrl.cgi?ptzcmd&zoomto&" +:+ speed +:+ "&" +:+ fourHex c
  /\ posHex (Num.ofZ (-5)) = "0000"
  /\ posHex (Num.ofZ 99999) = "4000".
Proof.
  intros Hr c.
  assert (Hc : 0 <= c <= 16384) by (unfold c; lia).
  assert (Hh : posHex (Num.Finite m e) = fourHex c).
  { rewrite posHex_integer by exact Hr. apply padded_hex. exact Hc. }
  split; [exact Hc |].
  split; [exact Hh |].
  split; [apply fourHex_lower; lia |].
  split; [apply fourHex_value; lia |].
  split; [unfold zoomToPath; rewrite Hh; reflexivity |].
  split; reflexivity.
Qed.

Lemma zoomTo_integer_position_witness :
  10 mod Num.pow2 1 = 0
  /\ posHex (Num.Finite 10 1) = "0005"
  /\ zoomToPath (Num.Finite 10 1) "7" = "/cgi-bin/ptzctrl.cgi?ptzcmd&zoomto&7&0005".
Proof.
  split; [reflexivity |].
  destruct (zoomTo_integer_position 10 1 "7" eq_refl) as (_ & Hh & _ & _ & Hp & _).
  split; [exact Hh | exact Hp].
Defined.

(** C6, as stated, fails on a position that is not an integer: one half is
    inside the interval, is left as it is by the clamp, and prints with a
    radix point, so the path does not carry four hexadecimal digits. *)
Lemma zoomTo_fraction_counterexample :
  posHex (Num.Finite 1 1) = "00.8"
  /\ allChars Js.isLowerHexDigit (posHex (Num.Finite 1 1)) = false
  /\ zoomToPath (Num.Finite 1 1) "7" = "/cgi-bin/ptzctrl.cgi?ptzcmd&zoomto&7&00.8".
Proof. repeat split. Qed.

(* ------------------------------------------------------------------ *)
(** ** The authentication builders *)
(* ------------------------------------------------------------------ *)

Lemma span_length (p : ascii -> bool) (s : string) :
  String.length s
  = (String.length (fst (Regex.span p s)) + String.length (snd (Regex.span p s)))%nat.
Proof.
  induction s as [|c s IH]; [reflexivity |].
  cbn [Regex.span]. destruct (p c); [| reflexivity].
  destruct (Regex.span p s) as [h t]. cbn [fst snd String.length] in *. lia.
Qed.

(** A match of the pattern is never empty: what is left is shorter. *)
Lemma matchParam_shorter (s k v rest : string) :
  Regex.matchParam s = Some (k, v, rest) ->
  (String.length rest < String.length s)%nat.
Proof.
  unfold Regex.matchParam.
  pose proof (span_length Regex.isWord s) as Hk.
  destruct (Regex.span Regex.isWord s) as [[|k0 k'] [|c r]]; try discriminate.
  cbn [fst snd String.length] in Hk.
  destruct (Ascii.eqb c "="); [| discriminate].
  destruct (Regex.quoted r) as [[v' rest']|] eqn:Hq.
  - intros H. injection H as <- <- <-.
    unfold Regex.quoted in Hq. destruct r as [|q r']; [discriminate |].
    destruct (Regex.isQuote q); [| discriminate].
    pose proof (span_length (fun x => negb (Regex.isQuote x)) r') as Hv.
    destruct (Regex.span (fun x => negb (Regex.isQuote x)) r') as [v0 [|q' rest0]];
      [discriminate |].
    injection Hq as <- <-. cbn [fst snd String.length] in *. lia.
  - pose proof (span_length Regex.isBare r) as Hv.
    destruct (Regex.span Regex.isBare r) as [[|v0 v'] rest0]; [discriminate |].
    intros H. injection H as <- <- <-. cbn [fst snd String.length] in *. lia.
Qed.

(** The loop of [parseAuthParams] ends by running out of text, never by
    running out of fuel: any fuel that covers the length of the header gives
    the same parameters. *)
Lemma parseAuthParams_fuel (fuel : nat) :
  forall (s : string) (params : Challenge),
    (String.length s <= fuel)%nat ->
    parseAuthParamsFrom fuel s params
    = parseAuthParamsFrom (String.length s) s params.
Proof.
  induction fuel as [fuel IH] using lt_wf_ind. intros s params Hlen.
  destruct s as [|c s']; [destruct fuel; reflexivity |].
  destruct fuel as [|fuel']; [cbn in Hlen; lia |].
  cbn [String.length parseAuthParamsFrom] in *.
  destruct (Regex.matchParam (String c s')) as [[[k v] rest]|] eqn:Hm.
  - apply matchParam_shorter in Hm. cbn [String.length] in Hm.
    rewrite (IH fuel') by lia.
    destruct (Nat.eq_dec (String.length s') (String.length rest)) as [-> | Hne];
      [reflexivity |].
    symmetry. apply IH; lia.
  - apply IH; lia.
Qed.

(** The header of [buildDigestAuth] is its fields, joined. *)
Lemma buildDigestAuth_fields (rnd : list Z) (method uri username password : string)
    (challenge : Challenge) :
  buildDigestAuth rnd method uri username password challenge
  = mkAuthHeader "Authorization"
      (renderDigest (digestFields rnd method uri username password challenge)).
Proof.
  unfold buildDigestAuth, renderDigest, digestFields. f_equal.
  destruct (Js.present (Digest.qop challenge));
    destruct (Js.present (challenge !! "opaque"));
    cbn [map app Js.join]; unfold renderField, quotedText;
    cbn [fieldName fieldText]; rewrite !append_assoc; reflexivity.
Qed.

Lemma hasField_digest (rnd : list Z) (method uri username password : string)
    (challenge : Challenge) :
  let fields := digestFields rnd method uri username password challenge in
  hasField "qop" fields = Js.present (Digest.qop challenge)
  /\ hasField "nc" fields = Js.present (Digest.qop challenge)
  /\ hasField "cnonce" fields = Js.present (Digest.qop challenge)
  /\ hasField "opaque" fields = Js.present (challenge !! "opaque").
Proof.
  unfold digestFields.
  destruct (Js.present (Digest.qop challenge));
    destruct (Js.present (challenge !! "opaque")); repeat split.
Qed.

(** C7, as amended: the header of [buildDigest] is the list of its fields;
    it contains the qop, nc and cnonce fields if and only if the first
    comma-separated entry of the qop parameter of the challenge, trimmed, is
    a non-empty string, and it contains the opaque field if and only if the
    opaque value of the challenge is a non-empty string. *)
Theorem buildDigest_optional_fields (rnd : list Z)
    (method uri username password : string) (challenge : Challenge) :
  let fields := digestFields rnd method uri username password challenge in
  let token :=
    match challenge !! "qop" with
    | Some q => Js.trim (Js.splitHead ","%char q)
    | None => EmptyString
    end in
  headerValue (buildDigestAuth rnd method uri username password challenge)
  = renderDigest fields
  /\ (hasField "qop" fields = true <-> token <> EmptyString)
  /\ (hasField "nc" fields = true <-> token <> EmptyString)
  /\ (hasField "cnonce" fields = true <-> token <> EmptyString)
  /\ (hasField "opaque" fields = true <->
      exists o, challenge !! "opaque" = Some o /\ o <> EmptyString).
Proof.
  intros fields token.
  destruct (hasField_digest rnd method uri username password challenge)
    as (Hq & Hn & Hc & Ho).
  fold fields in Hq, Hn, Hc, Ho.
  assert (Hp : Js.present (Digest.qop challenge) = true <-> token <> EmptyString).
  { unfold Digest.qop, token.
    destruct (challenge !! "qop") as [q|]; [| split; [discriminate | congruence]].
    destruct q as [|c q]; [split; [discriminate | cbn; congruence] |].
    cbn [Js.truthy Js.present].
    destruct (Js.trim (Js.splitHead "," (String c q))); cbn;
      split; congruence. }
  split; [rewrite buildDigestAuth_fields; reflexivity |].
  rewrite Hq, Hn, Hc, Ho.
  repeat (split; [exact Hp |]).
  destruct (challenge !! "opaque") as [[|c o]|]; cbn; split.
  - discriminate.
  - intros (o & Ho' & Hne). congruence.
  - intros _. eexists. split; [reflexivity | discriminate].
  - reflexivity.
  - discriminate.
  - intros (o & Ho' & _). discriminate.
Qed.

(** C7, as stated, fails on a challenge whose qop parameter starts with a
    comma: the challenge carries the parameter, the entry the builder
    selects is empty, and no qop field is written. *)
Lemma buildDigest_qop_counterexample :
  challengeEmptyQopToken !! "qop" = Some ",auth"
  /\ hasField "qop"
       (digestFields sampleRnd "GET" "/cgi-bin/param.cgi" "admin" "secret"
          challengeEmptyQopToken) = false
  /\ Js.includes
       (headerValue (buildDigestAuth sampleRnd "GET" "/cgi-bin/param.cgi" "admin" "secret"
          challengeEmptyQopToken)) "qop=" = false.
Proof. vm_compute. repeat split. Qed.

Lemma digest_ha1_plain (rnd : list Z) (username password : string) (challenge : Challenge) :
  Digest.isSess challenge = false ->
  Digest.ha1 rnd username password challenge
  = Digest.hash challenge
      (username +:+ ":" +:+ Js.tmpl (challenge !! "realm") +:+ ":" +:+ password).
Proof. intros H. unfold Digest.ha1. rewrite H. reflexivity. Qed.

(** C8, as amended: when the algorithm of the challenge (MD5 when absent),
    in upper case, is exactly MD5-SESS or SHA-256-SESS, [buildDigest]
    re-hashes HA1 as hash(HA1:nonce:cnonce) before computing the response,
    where the hash function is SHA-256 for an algorithm that starts with
    SHA-256 and MD5 otherwise. *)
Theorem buildDigest_session_rehash (rnd : list Z)
    (method uri username password : string) (challenge : Challenge) :
  let algo := Js.toUpperCase (Js.orElse (challenge !! "algorithm") "MD5") in
  algo = "MD5-SESS" \/ algo = "SHA-256-SESS" ->
  let hash := if Js.startsWith algo "SHA-256" then Crypto.sha256 else Crypto.md5 in
  let nonce := Js.tmpl (challenge !! "nonce") in
  let cnonce := Js.hexOfBytes rnd in
  let HA1 :=
    hash (hash (username +:+ ":" +:+ Js.tmpl (challenge !! "realm") +:+ ":" +:+ password)
          +:+ ":" +:+ nonce +:+ ":" +:+ cnonce) in
  let HA2 := hash (method +:+ ":" +:+ uri) in
  let response :=
    match Digest.qop challenge with
    | Some (String c q) =>
        hash (HA1 +:+ ":" +:+ nonce +:+ ":" +:+ "00000001" +:+ ":" +:+ cnonce
              +:+ ":" +:+ String c q +:+ ":" +:+ HA2)
    | _ => hash (HA1 +:+ ":" +:+ nonce +:+ ":" +:+ HA2)
    end in
  (hash = Crypto.sha256 <-> algo = "SHA-256-SESS")
  /\ Digest.ha1 rnd username password challenge = HA1
  /\ In (mkField "response" (quotedText response))
        (digestFields rnd method uri username password challenge)
  /\ headerValue (buildDigestAuth rnd method uri username password challenge)
     = renderDigest (digestFields rnd method uri username password challenge).
Proof.
  intros algo Halgo hash nonce cnonce HA1 HA2 response.
  assert (Hhash : Digest.hash challenge = hash) by reflexivity.
  assert (Hsess : Digest.isSess challenge = true).
  { unfold Digest.isSess. fold (Digest.algo challenge).
    change (Digest.algo challenge) with algo.
    destruct Halgo as [-> | ->]; reflexivity. }
  assert (H1 : Digest.ha1 rnd username password challenge = HA1).
  { unfold Digest.ha1. rewrite Hsess, Hhash. reflexivity. }
  split.
  { unfold hash. destruct Halgo as [E | E]; rewrite E; cbn.
    - split; [| discriminate]. intros Hbad.
      assert (Hv : Crypto.md5 EmptyString = Crypto.sha256 EmptyString)
        by (rewrite Hbad; reflexivity).
      vm_compute in Hv. discriminate.
    - split; reflexivity. }
  split; [exact H1 |].
  split; [| rewrite buildDigestAuth_fields; reflexivity].
  unfold digestFields. apply in_or_app. left.
  do 5 right. left. f_equal. f_equal.
  unfold Digest.response, response. rewrite H1. unfold Digest.ha2. rewrite Hhash.
  destruct (Digest.qop challenge) as [[|c q]|]; reflexivity.
Qed.

Lemma buildDigest_session_rehash_witness :
  Js.toUpperCase (Js.orElse (challengeMd5Sess !! "algorithm") "MD5") = "MD5-SESS"
  /\ Digest.ha1 sampleRnd "admin" "secret" challengeMd5Sess
     = Crypto.md5 (Crypto.md5 "admin:x:secret" +:+ ":y:0123456789abcdef").
Proof.
  assert (Ha : Js.toUpperCase (Js.orElse (challengeMd5Sess !! "algorithm") "MD5")
               = "MD5-SESS") by (vm_compute; reflexivity).
  split; [exact Ha |].
  destruct (buildDigest_session_rehash sampleRnd "GET" "/cgi-bin/param.cgi"
              "admin" "secret" challengeMd5Sess (or_introl Ha)) as (_ & H & _).
  rewrite H. vm_compute. reflexivity.
Defined.

(** C8, as stated, fails on the algorithm SHA-512-256-SESS: it ends in
    -SESS, the builder hashes with MD5 and leaves HA1 as the hash of
    user:realm:password, without the second hash over nonce and cnonce. *)
Lemma buildDigest_sess_suffix_counterexample :
  challengeSha512Sess !! "algorithm" = Some "SHA-512-256-SESS"
  /\ Js.endsWith (Js.toUpperCase "SHA-512-256-SESS") "-SESS" = true
  /\ Digest.ha1 sampleRnd "admin" "secret" challengeSha512Sess
     = Crypto.md5 "admin:x:secret"
  /\ String.eqb
       (Digest.ha1 sampleRnd "admin" "secret" challengeSha512Sess)
       (Crypto.md5 (Crypto.md5 "admin:x:secret" +:+ ":y:" +:+ Js.hexOfBytes sampleRnd))
     = false
  /\ Digest.response sampleRnd "GET" "/cgi-bin/param.cgi" "admin" "secret"
       challengeSha512Sess
     = Crypto.md5 (Crypto.md5 "admin:x:secret" +:+ ":y:"
                   +:+ Crypto.md5 "GET:/cgi-bin/param.cgi").
Proof. vm_compute. repeat split. Qed.

(** C3: for every uri, username, password and challenge, [buildAuthn]
    computes HA2 as the SHA-256 of GET:uri, whatever the method of the
    request it is built for, and its response is the SHA-256 of
    HA1:nonce:cnonce:HA2, where HA1 is the SHA-256 of
    username:realm:password and the realm is the empty string when the
    challenge has none. The same header goes out on a GET retry and on a
    POST that reuses a cached authn entry. *)
Theorem buildAuthn_response (rnd : list Z) (uri user pass : string)
    (chal : Challenge) :
  let realm := default EmptyString (chal !! "realm") in
  let nonce := Js.tmpl (chal !! "nonce") in
  let cnonce := Js.hexOfBytes rnd in
  let HA1 := Crypto.sha256 (user +:+ ":" +:+ realm +:+ ":" +:+ pass) in
  let HA2 := Crypto.sha256 ("GET:" +:+ uri) in
  let response := Crypto.sha256 (HA1 +:+ ":" +:+ nonce +:+ ":" +:+ cnonce +:+ ":" +:+ HA2) in
  let value :=
    "Authn username=" +:+ quotedText user +:+ ", nonce=" +:+ quotedText nonce
    +:+ ", uri=" +:+ quotedText uri +:+ ", response=" +:+ quotedText response
    +:+ ", cnonce=" +:+ quotedText cnonce in
  buildAuthnAuth rnd uri user pass chal = mkAuthHeader "auth_tkt" value
  /\ (forall cookie,
        buildRetryHeaders rnd authn uri (mkCredential user pass) chal cookie
          !! "auth_tkt" = Some value)
  /\ (forall w ip timeout entry,
        authCache w !! ip = Some entry ->
        scheme entry = authn ->
        Js.truthy user = true -> Js.truthy pass = true ->
        let rnd' := Crypto.beBytes 8 (entropy w (draws w) mod 2 ^ 64) in
        exists rq,
          sent (snd (run (httpPost ip uri timeout (Some (mkCredential user pass))) w))
          = sent w ++ [rq]
          /\ reqMethod rq = "POST"
          /\ reqHeaders rq !! "auth_tkt"
             = Some (headerValue
                       (buildAuthnAuth rnd' uri user pass (challenge entry)))).
Proof.
  intros realm nonce cnonce HA1 HA2 response value.
  assert (Hb : buildAuthnAuth rnd uri user pass chal
               = mkAuthHeader "auth_tkt" value).
  { unfold buildAuthnAuth, value, quotedText. f_equal.
    rewrite orElse_empty. rewrite !append_assoc. reflexivity. }
  assert (Hr : forall rnd0 ch cookie,
             buildRetryHeaders rnd0 authn uri (mkCredential user pass) ch cookie
               !! "auth_tkt"
             = Some (headerValue (buildAuthnAuth rnd0 uri user pass ch))).
  { intros rnd0 ch cookie. unfold buildRetryHeaders. cbn [username password].
    change (headerName (buildAuthnAuth rnd0 uri user pass ch)) with "auth_tkt".
    destruct cookie as [c|]; [destruct (Js.truthy c) |];
      repeat (rewrite lookup_insert_ne by discriminate);
      apply lookup_insert_eq. }
  split; [exact Hb |].
  split; [intros cookie; rewrite Hr, Hb; reflexivity |].
  intros w ip timeout entry Hc Hs Hu Hp rnd'.
  unfold httpPost, usable. mstep.
  rewrite Hc. cbn [username password]. rewrite Hu, Hp. cbn [andb].
  unfold retryHeaders. rewrite Hs. mstep.
  destruct (network w (sent w) _) as [res | err |]; mstep;
    (eexists; split; [reflexivity |]; split; [reflexivity |];
     cbn [reqHeaders]; unfold postHeaders;
     apply lookup_union_Some_l; apply Hr).
Qed.

Lemma buildAuthn_response_witness :
  let w := cachedWorld cachedAuthn bodySays401 in
  let uri := "/cgi-bin/param.cgi?post_reboot" in
  let sentByPost := sent (snd (run (httpPost camera uri 4000 (Some admin)) w)) in
  map reqMethod sentByPost = ["POST"]
  /\ map (fun rq => reqHeaders rq !! "auth_tkt") sentByPost
     = [Some ("Authn username=" +:+ quotedText "admin" +:+ ", nonce=" +:+ quotedText "n0nce"
              +:+ ", uri=" +:+ quotedText uri +:+ ", response="
              +:+ quotedText
                    (Crypto.sha256
                       (Crypto.sha256 "admin::secret" +:+ ":n0nce:0123456789abcdef:"
                        +:+ Crypto.sha256 "GET:/cgi-bin/param.cgi?post_reboot"))
              +:+ ", cnonce=" +:+ quotedText "0123456789abcdef")].
Proof.
  intros w uri sentByPost.
  destruct (buildAuthn_response (Crypto.beBytes 8 (entropy w (draws w) mod 2 ^ 64))
              uri "admin" "secret" (challenge cachedAuthn)) as (Hb & _ & Hpost).
  destruct (Hpost w camera 4000 cachedAuthn eq_refl eq_refl eq_refl eq_refl)
    as (rq & Hs & Hm & Hh).
  subst sentByPost. unfold admin. rewrite Hs.
  change (sent w) with (@nil Request). cbn [app map].
  rewrite Hm, Hh, Hb. split; [reflexivity |].
  vm_compute. reflexivity.
Defined.

(* ------------------------------------------------------------------ *)
(** ** Movement handlers and the body of the answer *)
(* ------------------------------------------------------------------ *)

(** [camera:ptz] does look into the body: on a real host, a body that
    mentions 401 or Unauthorized is never reported as a success. *)
Lemma ptz_detects_body_401 (b64 : string -> string) (w : World)
    (ip cmd s1 s2 : string) (auth : option Credential) (response : string) (w' : World) :
  isMock ip = false ->
  run (httpGet b64 ip (ptzPath cmd s1 s2) 4000 auth) w = (Resolved response, w') ->
  Js.includes response "401" || Js.includes response "Unauthorized" = true ->
  run (ptz b64 ip cmd s1 s2 auth) w
  = (Failure "Authentication required for PTZ control", w').
Proof.
  intros Hm Hr Hb. unfold ptz. rewrite Hm.
  unfold run, mbind, M_bind in *. rewrite Hr. rewrite Hb. reflexivity.
Qed.

(** The other movement handlers drop the body: whenever the read
    resolves, whatever it resolves with, they report success. *)
Lemma zoom_ignores_body (b64 : string -> string) (w : World)
    (ip dir spd : string) (auth : option Credential) (response : string) (w' : World) :
  isMock ip = false ->
  run (httpGet b64 ip ("/cgi-bin/ptzctrl.cgi?ptzcmd&" +:+ dir +:+ "&" +:+ spd) 4000 auth) w
  = (Resolved response, w') ->
  run (zoom b64 ip dir spd auth) w = (Success tt, w').
Proof.
  intros Hm Hr. unfold zoom. rewrite Hm.
  unfold run, mbind, M_bind in *. rewrite Hr. reflexivity.
Qed.

(** C4: on a camera that answers status 200 with the body 401 Unauthorized,
    [camera:ptz] reports the authentication error, while [camera:zoom],
    [camera:focus], [camera:zoomTo], [camera:osdNavigate] and
    [camera:ptzReset] report success. *)
Theorem movement_body_401_evaluation :
  let w := emptyWorld bodySays401 in
  let b64 := fun s : string => s in
  fst (run (ptz b64 camera "left" "5" "5" (Some admin)) w)
  = Failure "Authentication required for PTZ control"
  /\ fst (run (zoom b64 camera "zoomin" "3" (Some admin)) w) = Success tt
  /\ fst (run (focus b64 camera "focusin" (Some admin)) w) = Success tt
  /\ fst (run (zoomTo b64 camera (Num.ofZ 8192) "7" (Some admin)) w) = Success tt
  /\ fst (run (osdNavigate b64 camera "confirm" (Some admin)) w) = Success tt
  /\ fst (run (ptzReset b64 camera (Some admin)) w) = Success tt.
Proof. vm_compute. repeat split. Qed.

(* ------------------------------------------------------------------ *)
(** ** The discovery window *)
(* ------------------------------------------------------------------ *)

Lemma quiet_events_keep_socket (events : list SocketEvent) (d : Discovery) :
  forallb (fun e => negb (isSocketError e)) events = true ->
  client (fold_left onSocketEvent events d) = client d.
Proof.
  revert d. induction events as [|e events IH]; intros d H; [reflexivity |].
  cbn [forallb] in H. apply andb_prop in H as [He Hrest].
  cbn [fold_left]. rewrite IH by exact Hrest.
  destruct e as [| address |]; cbn [onSocketEvent].
  - destruct (isOpen (client d)); reflexivity.
  - destruct (isOpen (client d)); [| reflexivity].
    destruct (existsb (String.eqb address) (found d)); reflexivity.
  - discriminate.
Qed.

(** Without a socket error the socket is closed once, by the timer. *)
Lemma discover_quiet_closes_once (before after : list SocketEvent) :
  forallb (fun e => negb (isSocketError e)) before = true ->
  forallb (fun e => negb (isSocketError e)) after = true ->
  client (discover before after) = mkSocket false 1 0.
Proof.
  intros Hb Ha. unfold discover.
  rewrite quiet_events_keep_socket by exact Ha.
  unfold onWindowExpiry, closeAndResolve.
  rewrite quiet_events_keep_socket by exact Hb.
  reflexivity.
Qed.

(** C9: when the socket reports an error inside the window, the error
    handler closes it and the timer, which nothing clears, calls [close]
    again three seconds after the start; that second call throws.
    [camera:visca] clears its timer on the same path and closes once. *)
Theorem discover_error_then_expiry :
  let d := discover [Bound; Message "10.0.0.5"; SocketError] [] in
  closeCalls (client d) = 2%nat
  /\ thrown (client d) = 1%nat
  /\ resolved d = Some ["10.0.0.5"]
  /\ closeCalls (viscaClient (visca [SendFailed "ENETUNREACH"])) = 1%nat
  /\ thrown (viscaClient (visca [SendFailed "ENETUNREACH"])) = 0%nat.
Proof. vm_compute. repeat split. Qed.

(* ------------------------------------------------------------------ *)
(** ** Snapshots *)
(* ------------------------------------------------------------------ *)

Lemma digit_table : checkFrom digitRoundTrips 64 0 = true.
Proof. vm_compute. reflexivity. Qed.

Lemma value_digit (n : Z) : 0 <= n < 64 -> Base64.value (Base64.digit n) = Some n.
Proof.
  intros H.
  pose proof (checkFrom_sound digitRoundTrips 64 0 n digit_table ltac:(lia)) as T.
  unfold digitRoundTrips in T.
  destruct (Base64.value (Base64.digit n)) as [m|]; [| discriminate].
  apply andb_prop in T as [T _]. apply Z.eqb_eq in T. congruence.
Qed.

Lemma digit_not_pad (n : Z) : 0 <= n < 64 -> Ascii.eqb (Base64.digit n) "="%char = false.
Proof.
  intros H.
  pose proof (checkFrom_sound digitRoundTrips 64 0 n digit_table ltac:(lia)) as T.
  unfold digitRoundTrips in T.
  destruct (Base64.value (Base64.digit n)) as [m|]; [| discriminate].
  apply andb_prop in T as [_ T]. apply negb_true_iff in T. exact T.
Qed.

Lemma list_ind3 {A} (P : list A -> Prop) :
  P [] -> (forall a, P [a]) -> (forall a b, P [a; b]) ->
  (forall a b c l, P l -> P (a :: b :: c :: l)) ->
  forall l, P l.
Proof.
  intros H0 H1 H2 H3 l.
  assert (H : forall n l, (List.length l <= n)%nat -> P l).
  { clear l. induction n as [|n IH]; intros l Hl.
    - destruct l; [exact H0 | cbn in Hl; lia].
    - destruct l as [|a [|b [|c l]]]; [exact H0 | apply H1 | apply H2 |].
      apply H3, IH. cbn in Hl. lia. }
  apply (H (List.length l)). lia.
Qed.

(** What [Buffer.toString('base64')] writes decodes to the same bytes. *)
Lemma decode_encode (l : list Z) :
  Forall isByte l -> Base64.decode (Base64.encode l) = Some l.
Proof.
  induction l as [| a | a b | a b c l IH] using list_ind3; intros Hl.
  - reflexivity.
  - inversion Hl as [| ? ? Ha _]; subst. unfold isByte in Ha.
    cbn [Base64.encode Base64.decode].
    rewrite !value_digit by (Z.div_mod_to_equations; lia).
    cbn. f_equal. f_equal. Z.div_mod_to_equations; lia.
  - inversion Hl as [| ? ? Ha Hl']; subst. inversion Hl' as [| ? ? Hb _]; subst.
    unfold isByte in Ha, Hb.
    cbn [Base64.encode Base64.decode].
    rewrite !value_digit by (Z.div_mod_to_equations; lia).
    rewrite digit_not_pad by (Z.div_mod_to_equations; lia).
    cbn. f_equal. f_equal; [| f_equal]; Z.div_mod_to_equations; lia.
  - inversion Hl as [| ? ? Ha Hl1]; subst. inversion Hl1 as [| ? ? Hb Hl2]; subst.
    inversion Hl2 as [| ? ? Hc Hl3]; subst.
    unfold isByte in Ha, Hb, Hc.
    cbn [Base64.encode Base64.decode].
    rewrite !value_digit by (Z.div_mod_to_equations; lia).
    rewrite !digit_not_pad by (Z.div_mod_to_equations; lia).
    rewrite IH by exact Hl3.
    f_equal. f_equal; [| f_equal; [| f_equal]]; Z.div_mod_to_equations; lia.
Qed.

Lemma bytes_are_bytes (s : string) : Forall isByte (Js.bytes s).
Proof.
  induction s as [|c s IH]; constructor; [| exact IH].
  unfold isByte, Js.code. pose proof (N_ascii_bounded c). lia.
Qed.

(** C5: on a real host, when the snapshot read yields a body, a body of
    fewer than 1000 bytes that contains an HTML tag or a doctype gives a
    failure (the authentication error when it also contains 401 or
    Unauthorized, the error-page error otherwise); every body of at least
    1000 bytes and every shorter body without those markers is returned as
    the base64 of exactly its bytes, as a success. A read that fails on
    both endpoints gives the failure of the second. *)
Theorem snapshot_classification (b64 : string -> string) (w : World)
    (ip : string) (auth : option Credential) :
  isMock ip = false ->
  match run (snapshotFetch b64 ip auth) w with
  | (Resolved buf, w') =>
      let short := Z.of_nat (String.length buf) <? 1000 in
      let html := Js.includes buf "<html" || Js.includes buf "<!DOCTYPE" in
      let unauthorized := Js.includes buf "401" || Js.includes buf "Unauthorized" in
      run (snapshot b64 ip auth) w
      = (if short && html
         then Failure (if unauthorized
                       then "Authentication required for snapshots"
                       else "Camera returned error page instead of image")
         else Success (mkSnapshot (Base64.encode (Js.bytes buf))),
         w')
      /\ Base64.decode (Base64.encode (Js.bytes buf)) = Some (Js.bytes buf)
  | (Rejected err, w') =>
      run (snapshot b64 ip auth) w = (Failure (errMessage err), w')
  end.
Proof.
  intros Hm. unfold snapshot. rewrite Hm.
  unfold run, mbind, M_bind.
  destruct (snapshotFetch b64 ip auth w) as [[buf | err] w']; [| reflexivity].
  split; [| apply decode_encode, bytes_are_bytes].
  unfold mret, M_ret, snapshotReply.
  destruct (Z.of_nat (String.length buf) <? 1000); [| reflexivity].
  rewrite (orb_comm (Js.includes buf "<html")).
  destruct (Js.includes buf "<!DOCTYPE" || Js.includes buf "<html"); [| reflexivity].
  destruct (Js.includes buf "401" || Js.includes buf "Unauthorized"); reflexivity.
Qed.

Lemma snapshot_classification_witness :
  isMock camera = false
  /\ run (snapshot (fun s => s) camera (Some admin)) (emptyWorld htmlPage)
     = (Failure "Authentication required for snapshots",
        snd (run (snapshotFetch (fun s => s) camera (Some admin)) (emptyWorld htmlPage))).
Proof.
  split; [reflexivity |].
  pose proof (snapshot_classification (fun s => s) (emptyWorld htmlPage) camera
                (Some admin) eq_refl) as H.
  destruct (run (snapshotFetch (fun s => s) camera (Some admin)) (emptyWorld htmlPage))
    as [[buf | err] w'] eqn:E.
  - destruct H as [H _]. rewrite H.
    assert (Hb : buf = "<html><body>401 Unauthorized</body></html>").
    { vm_compute in E. congruence. }
    rewrite Hb. reflexivity.
  - vm_compute in E. discriminate.
Defined.

(* ------------------------------------------------------------------ *)
(** ** Connect *)
(* ------------------------------------------------------------------ *)

Lemma parse_empty (toNumber : string -> Num.number) : parse toNumber EmptyString = ∅.
Proof. reflexivity. Qed.

Lemma valueOr_missing (b : Value) : valueOr None b = b.
Proof. reflexivity. Qed.

(** C2: on a real host, [camera:connect] fails if and only if the
    device-info, image, exposure and focus reads all failed, and then its
    error carries the message of the first failure met, the one of the
    device-info read; as soon as one read succeeded it returns success, with
    every device-info field that is missing replaced by its default and a
    configuration merged from the group reads that answered. *)
Theorem connect_partial_failure (toNumber : string -> Num.number) (ip : string)
    (deviceConf img exp foc : Settled string) (order : list Group) :
  isMock ip = false ->
  let allFailed :=
    negb (isResolved deviceConf || isResolved img || isResolved exp || isResolved foc) in
  let result := connect toNumber ip deviceConf img exp foc order in
  let answered (r : Settled string) : Config :=
    match r with Resolved b => parse toNumber b | Rejected _ => ∅ end in
  ((exists error, result = Failure error) <-> allFailed = true)
  /\ (allFailed = true ->
      exists e, deviceConf = Rejected e
                /\ result = Failure ("Device config: " +:+ errMessage e))
  /\ (allFailed = false ->
      exists i, result = Success (mkConnected i (answered foc ∪ (answered exp ∪ answered img)))
        /\ (answered deviceConf !! "device_model" = None ->
            answered deviceConf !! "model" = None ->
            model i = VStr "PTZOptics Move SE")
        /\ (answered deviceConf !! "serial_number" = None ->
            answered deviceConf !! "sn" = None ->
            serial i = VStr "N/A")
        /\ (answered deviceConf !! "firmware_version" = None ->
            answered deviceConf !! "fw" = None ->
            firmware i = VStr "N/A")
        /\ (forall e, deviceConf = Rejected e ->
            i = mkDeviceInfo (VStr "PTZOptics Move SE") (VStr "N/A") (VStr "N/A"))).
Proof.
  intros Hm allFailed result answered.
  assert (Hcfg : forall r, parse toNumber (bodyOr r) = answered r).
  { intros [b | e]; reflexivity. }
  unfold result, connect. rewrite Hm. fold allFailed.
  destruct allFailed eqn:Hall.
  - (* every read failed *)
    unfold allFailed in Hall. apply negb_true_iff in Hall.
    apply orb_false_elim in Hall as [Hall Hfoc].
    apply orb_false_elim in Hall as [Hall Hexp].
    apply orb_false_elim in Hall as [Hdev Himg].
    destruct deviceConf as [b | e]; [discriminate |].
    cbn [errorLine app].
    split; [split; [reflexivity | intros _; eexists; reflexivity] |].
    split; [| discriminate].
    intros _. exists e. split; reflexivity.
  - (* one read at least succeeded *)
    split; [split; [intros [error H]; discriminate | discriminate] |].
    split; [discriminate |].
    intros _. eexists. split.
    + unfold spread3. rewrite !Hcfg. reflexivity.
    + cbn [model serial firmware].
      assert (Hinfo : match deviceConf with
                      | Resolved b => parse toNumber b
                      | Rejected _ => ∅
                      end = answered deviceConf) by reflexivity.
      rewrite Hinfo.
      split; [intros -> ->; reflexivity |].
      split; [intros -> ->; reflexivity |].
      split; [intros -> ->; reflexivity |].
      intros e ->. reflexivity.
Qed.

Lemma connect_partial_failure_witness :
  isMock camera = false
  /\ connect (fun _ => Num.NaN) camera
       (Rejected (newError "404")) (Resolved "wb_mode=auto") (Rejected (newError "timeout"))
       (Resolved "focus_mode=manual") [FocusConf; ExposureConf; ImageConf]
     = Success (mkConnected
         (mkDeviceInfo (VStr "PTZOptics Move SE") (VStr "N/A") (VStr "N/A"))
         (<["focus_mode" := VStr "manual"]> {[ "wb_mode" := VStr "auto" ]}))
  /\ connect (fun _ => Num.NaN) camera
       (Rejected (newError "refused")) (Rejected (newError "a")) (Rejected (newError "b"))
       (Rejected (newError "c")) [FocusConf; ExposureConf; ImageConf]
     = Failure "Device config: refused".
Proof.
  split; [reflexivity |].
  split.
  - destruct (connect_partial_failure (fun _ => Num.NaN) camera
                (Rejected (newError "404")) (Resolved "wb_mode=auto")
                (Rejected (newError "timeout")) (Resolved "focus_mode=manual")
                [FocusConf; ExposureConf; ImageConf] eq_refl) as (_ & _ & H).
    destruct (H eq_refl) as (i & Hr & _ & _ & _ & Hi).
    rewrite Hr, (Hi _ eq_refl). vm_compute. reflexivity.
  - destruct (connect_partial_failure (fun _ => Num.NaN) camera
                (Rejected (newError "refused")) (Rejected (newError "a"))
                (Rejected (newError "b")) (Rejected (newError "c"))
                [FocusConf; ExposureConf; ImageConf] eq_refl) as (_ & H & _).
    destruct (H eq_refl) as (e & He & Hr).
    rewrite Hr. injection He as <-. reflexivity.
Defined.

(* ------------------------------------------------------------------ *)
(** ** The transport and the auth cache *)
(* ------------------------------------------------------------------ *)

(** Building headers touches neither the cache nor the network log. *)
Lemma retryHeaders_frame (sch : Scheme) (uri : string) (cred : Credential)
    (ch : Challenge) (ck : option string) (w : World) :
  let w' := snd (run (retryHeaders sch uri cred ch ck) w) in
  authCache w' = authCache w /\ network w' = network w /\ sent w' = sent w.
Proof. destruct sch; repeat split. Qed.

(** Every way a fresh negotiation can go. *)
Lemma authGetFresh_cases (b64 : string -> string) (ip path : string) (t : Z)
    (auth : option Credential) (w : World) :
  let rq1 := plainRequest ip path t in
  let o1 := network w (sent w) rq1 in
  let r := fst (run (authGetFresh b64 ip path t auth) w) in
  let w' := snd (run (authGetFresh b64 ip path t auth) w) in
  network w' = network w
  /\ ((sent w' = sent w ++ [rq1] /\ authCache w' = authCache w
       /\ ((exists res, o1 = Responded res /\ r = inr res
                        /\ (statusCode res <> 401 \/ usable auth = None))
           \/ (exists res, o1 = Responded res /\ statusCode res = 401
                           /\ usable auth <> None /\ freshEntry b64 res = None
                           /\ r = inl (newError "401 Unauthorized — unknown auth scheme"))
           \/ ((forall res, o1 <> Responded res) /\ r = inl (requestError o1))))
      \/ (exists res cred entry,
            o1 = Responded res /\ statusCode res = 401 /\ usable auth = Some cred
            /\ freshEntry b64 res = Some entry
            /\ let rq2 := authRequest (afterSend rq1 w) ip path t cred entry in
               let o2 := network w (sent w ++ [rq1]) rq2 in
               sent w' = sent w ++ [rq1; rq2]
               /\ ((exists res2, o2 = Responded res2 /\ statusCode res2 = 401
                      /\ r = inl (newError "401 Unauthorized - check credentials")
                      /\ authCache w' = authCache w)
                   \/ (exists res2, o2 = Responded res2 /\ statusCode res2 <> 401
                         /\ r = inr res2
                         /\ authCache w' = <[ip := entry]> (authCache w))
                   \/ ((forall res2, o2 <> Responded res2)
                       /\ r = inl (requestError o2)
                       /\ authCache w' = authCache w)))).
Proof.
  intros rq1 o1 r w'.
  unfold r, w', authGetFresh. mstep. fold (plainRequest ip path t).
  fold rq1. fold o1.
  destruct o1 as [res | err |] eqn:Ho1.
  - destruct (usable auth) as [cred|] eqn:Hu.
    + destruct (Z.eqb_spec (statusCode res) 401) as [H401 | Hne]; cbn [negb].
      * destruct (detectScheme b64 res) as [[[sch ch] ck]|] eqn:Hd.
        -- mstep.
           pose proof (retryHeaders_frame sch path cred ch ck (afterSend rq1 w))
             as (Fc & Fn & Fs).
           unfold afterSend in Fc, Fn, Fs. mstep.
           assert (Hreq : authRequest (afterSend rq1 w) ip path t cred
                            (mkCachedAuth sch ch ck)
                          = mkRequest "GET" ip path t
                              (fst (retryHeaders sch path cred ch ck
                                      (mkWorld (authCache w) (network w) (sent w ++ [rq1])
                                         (entropy w) (draws w))))) by reflexivity.
           destruct (retryHeaders sch path cred ch ck _) as [h2 w2] eqn:Hh.
           cbn [fst snd] in *. mstep. rewrite Fn, Fs.
           assert (Hfresh : freshEntry b64 res = Some (mkCachedAuth sch ch ck))
             by (unfold freshEntry; rewrite Hd; reflexivity).
           destruct (network w (sent w ++ [rq1]) _) as [res2 | err2 |] eqn:Ho2.
           ++ destruct (Z.eqb_spec (statusCode res2) 401) as [H2 | H2]; mstep.
              ** split; [reflexivity || exact Fn |]. right. exists res, cred, (mkCachedAuth sch ch ck).
                 rewrite Hreq, Ho2, <- app_assoc.
                 repeat (split; [reflexivity || assumption |]).
                 left. exists res2. repeat split; assumption.
              ** split; [reflexivity || exact Fn |]. right. exists res, cred, (mkCachedAuth sch ch ck).
                 rewrite Hreq, Ho2, <- app_assoc.
                 repeat (split; [reflexivity || assumption |]).
                 right. left. exists res2. rewrite Fc. repeat split; assumption.
           ++ mstep. split; [reflexivity || exact Fn |]. right.
              exists res, cred, (mkCachedAuth sch ch ck).
              rewrite Hreq, Ho2, <- app_assoc.
              repeat (split; [reflexivity || assumption |]).
              right. right. repeat split; [intros res2; discriminate | exact Fc].
           ++ mstep. split; [reflexivity || exact Fn |]. right.
              exists res, cred, (mkCachedAuth sch ch ck).
              rewrite Hreq, Ho2, <- app_assoc.
              repeat (split; [reflexivity || assumption |]).
              right. right. repeat split; [intros res2; discriminate | exact Fc].
        -- mstep. split; [reflexivity |]. left.
           split; [reflexivity |]. split; [reflexivity |].
           right. left. exists res.
           repeat split; [exact H401 | discriminate |].
           unfold freshEntry. rewrite Hd. reflexivity.
      * mstep. split; [reflexivity |]. left.
        split; [reflexivity |]. split; [reflexivity |].
        left. exists res. repeat split. left. exact Hne.
    + mstep. split; [reflexivity |]. left.
      split; [reflexivity |]. split; [reflexivity |].
      left. exists res. repeat split. right. reflexivity.
  - mstep. split; [reflexivity |]. left.
    split; [reflexivity |]. split; [reflexivity |].
    right. right. split; [intros res; discriminate | reflexivity].
  - mstep. split; [reflexivity |]. left.
    split; [reflexivity |]. split; [reflexivity |].
    right. right. split; [intros res; discriminate | reflexivity].
Qed.

(** Without an entry for the host, or without a usable credential,
    [authGet] is the fresh negotiation. *)
Lemma authGet_uncached (b64 : string -> string) (ip path : string) (t : Z)
    (auth : option Credential) (w : World) :
  authCache w !! ip = None \/ usable auth = None ->
  run (authGet b64 ip path t auth) w = run (authGetFresh b64 ip path t auth) w.
Proof.
  intros H. unfold authGet. mstep.
  destruct H as [H | H]; rewrite H; [reflexivity |].
  destruct (authCache w !! ip); reflexivity.
Qed.

Lemma afterStale_fields (w : World) (ip path : string) (t : Z)
    (cred : Credential) (entry : CachedAuth) :
  let w1 := afterStale w ip path t cred entry in
  authCache w1 = delete ip (authCache w)
  /\ network w1 = network w
  /\ sent w1 = sent w ++ [authRequest w ip path t cred entry].
Proof.
  pose proof (retryHeaders_frame (scheme entry) path cred (challenge entry)
                (cookie entry) w) as (Fc & Fn & Fs).
  unfold afterStale, afterSend, afterHeaders. mstep.
  rewrite Fc, Fn, Fs. repeat split.
Qed.

(** With an entry and a usable credential, [authGet] makes the cached
    attempt: a 401 deletes the entry and starts the fresh negotiation, any
    other end is handed on with the cache untouched. *)
Lemma authGet_cached (b64 : string -> string) (ip path : string) (t : Z)
    (auth : option Credential) (w : World) (cred : Credential) (entry : CachedAuth) :
  authCache w !! ip = Some entry -> usable auth = Some cred ->
  let rq0 := authRequest w ip path t cred entry in
  let o0 := network w (sent w) rq0 in
  run (authGet b64 ip path t auth) w
  = match o0 with
    | Responded res =>
        if statusCode res =? 401
        then run (authGetFresh b64 ip path t auth) (afterStale w ip path t cred entry)
        else (inr res, afterSend rq0 (afterHeaders w path cred entry))
    | _ => (inl (requestError o0), afterSend rq0 (afterHeaders w path cred entry))
    end.
Proof.
  intros Hc Hu rq0 o0.
  pose proof (retryHeaders_frame (scheme entry) path cred (challenge entry)
                (cookie entry) w) as (Fc & Fn & Fs).
  unfold authGet. mstep. rewrite Hc, Hu.
  subst o0 rq0. unfold afterStale, afterSend, afterHeaders, authRequest. mstep.
  destruct (retryHeaders (scheme entry) path cred (challenge entry) (cookie entry) w)
    as [h0 w0] eqn:Hh.
  cbn [fst snd] in *. mstep. rewrite Fn, Fs.
  destruct (network w (sent w) _) as [res | err |]; [| reflexivity | reflexivity].
  destruct (statusCode res =? 401); reflexivity.
Qed.

(** C1, as amended: for every GET request issued with a usable credential
    to a host that has a cached auth entry, if the cached-auth attempt
    returns 401 the transport deletes the entry of that host and performs
    exactly one fresh negotiation: one unauthenticated request, followed by
    one authenticated retry exactly when that request is answered 401 with a
    recognised scheme. A 401 on that retry is final and reported as the
    authentication-rejected error. Afterwards the cache holds no entry for
    the host, or the entry of the retry that was accepted. *)
Theorem stale_cache_renegotiation (b64 : string -> string) (w : World)
    (ip path : string) (t : Z) (auth : option Credential)
    (cred : Credential) (entry : CachedAuth) (res0 : Response) :
  authCache w !! ip = Some entry ->
  usable auth = Some cred ->
  let rq0 := authRequest w ip path t cred entry in
  network w (sent w) rq0 = Responded res0 ->
  statusCode res0 = 401 ->
  let w1 := afterStale w ip path t cred entry in
  let rq1 := plainRequest ip path t in
  let o1 := network w (sent w ++ [rq0]) rq1 in
  let r := fst (run (authGet b64 ip path t auth) w) in
  let w2 := snd (run (authGet b64 ip path t auth) w) in
  authCache w1 = delete ip (authCache w)
  /\ sent w1 = sent w ++ [rq0]
  /\ run (authGet b64 ip path t auth) w = run (authGetFresh b64 ip path t auth) w1
  /\ ((sent w2 = sent w ++ [rq0; rq1]
       /\ authCache w2 !! ip = None
       /\ (forall res1, o1 = Responded res1 -> statusCode res1 = 401 ->
                        freshEntry b64 res1 = None))
      \/ (exists res1 fresh,
            o1 = Responded res1 /\ statusCode res1 = 401
            /\ freshEntry b64 res1 = Some fresh
            /\ let rq2 := authRequest (afterSend rq1 w1) ip path t cred fresh in
               let o2 := network w (sent w ++ [rq0; rq1]) rq2 in
               sent w2 = sent w ++ [rq0; rq1; rq2]
               /\ ((exists res2, o2 = Responded res2 /\ statusCode res2 = 401
                      /\ r = inl (newError "401 Unauthorized - check credentials")
                      /\ authCache w2 !! ip = None)
                   \/ (exists res2, o2 = Responded res2 /\ statusCode res2 <> 401
                         /\ r = inr res2
                         /\ authCache w2 !! ip = Some fresh)
                   \/ ((forall res2, o2 <> Responded res2)
                       /\ r = inl (requestError o2)
                       /\ authCache w2 !! ip = None)))).
Proof.
  intros Hc Hu rq0 Ho0 H401 w1 rq1 o1 r w2.
  destruct (afterStale_fields w ip path t cred entry) as (Sc & Sn & Ss).
  fold w1 in Sc, Sn, Ss. fold rq0 in Ss.
  assert (Hrun : run (authGet b64 ip path t auth) w
                 = run (authGetFresh b64 ip path t auth) w1).
  { rewrite (authGet_cached b64 ip path t auth w cred entry Hc Hu).
    fold rq0. rewrite Ho0. rewrite H401. reflexivity. }
  split; [exact Sc |]. split; [exact Ss |]. split; [exact Hrun |].
  unfold r, w2. rewrite Hrun.
  pose proof (authGetFresh_cases b64 ip path t auth w1) as H.
  cbv zeta in H. fold rq1 in H.
  rewrite Sn, Ss, Sc in H.
  rewrite <- !app_assoc in H. cbn [app] in H. fold o1 in H.
  destruct H as [_ [(Hs & Ha & Hcase) | (res1 & cred' & fresh & H1 & H1' & Hu' & Hf & Hs & Hcase)]].
  - left. split; [exact Hs |]. split; [rewrite Ha; apply lookup_delete_eq |].
    intros res1 Hr1 Hr1'.
    destruct Hcase as [(res & Hres & _ & [Hne | Hnone]) | [(res & Hres & _ & _ & Hf & _) | (Hno & _)]].
    + congruence.
    + congruence.
    + congruence.
    + exfalso. apply (Hno res1). exact Hr1.
  - right. assert (cred' = cred) by congruence. subst cred'.
    exists res1, fresh.
    split; [exact H1 |]. split; [exact H1' |]. split; [exact Hf |].
    cbv zeta. split; [rewrite <- app_assoc in Hs; exact Hs |].
    destruct Hcase as [(res2 & Ho2 & H2 & Hr & Ha) | [(res2 & Ho2 & H2 & Hr & Ha) | (Hno & Hr & Ha)]].
    + left. exists res2. repeat split; try assumption.
      rewrite Ha. apply lookup_delete_eq.
    + right. left. exists res2. repeat split; try assumption.
      rewrite Ha. apply lookup_insert_eq.
    + right. right. repeat split; try assumption.
      rewrite Ha. apply lookup_delete_eq.
Qed.

Lemma stale_cache_renegotiation_witness :
  let w := cachedWorld staleBasic renegotiates in
  let path := "/cgi-bin/param.cgi?get_image_conf" in
  authCache w !! camera = Some staleBasic
  /\ network w (sent w) (authRequest w camera path 4000 admin staleBasic)
     = Responded (mkResponse 401 (Some basicChallenge) [] "stale")
  /\ run (authGet (fun s => s) camera path 4000 (Some admin)) w
     = run (authGetFresh (fun s => s) camera path 4000 (Some admin))
         (afterStale w camera path 4000 admin staleBasic)
  /\ fst (run (authGet (fun s => s) camera path 4000 (Some admin)) w)
     = inr (mkResponse 200 None [] "wb_mode=0")
  /\ map (fun rq => reqHeaders rq !! "Authorization")
         (sent (snd (run (authGet (fun s => s) camera path 4000 (Some admin)) w)))
     = [Some "Basic YWRtaW46c2VjcmV0"; None; Some "Basic YWRtaW46c2VjcmV0"]
  /\ authCache (snd (run (authGet (fun s => s) camera path 4000 (Some admin)) w)) !! camera
     = Some (mkCachedAuth basic ∅ None).
Proof.
  intros w path.
  assert (Hc : authCache w !! camera = Some staleBasic) by (vm_compute; reflexivity).
  assert (Ho : network w (sent w) (authRequest w camera path 4000 admin staleBasic)
               = Responded (mkResponse 401 (Some basicChallenge) [] "stale"))
    by (vm_compute; reflexivity).
  split; [exact Hc |]. split; [exact Ho |].
  destruct (stale_cache_renegotiation (fun s => s) w camera path 4000 (Some admin)
              admin staleBasic _ Hc eq_refl Ho eq_refl) as (_ & _ & Hrun & _).
  split; [exact Hrun |].
  vm_compute. repeat split.
Defined.

(** C1, as stated, fails when the camera serves the unauthenticated request
    of the fresh negotiation: after the stale cached attempt only that one
    request goes out, no authenticated retry follows it, and its response is
    handed on. *)
Lemma stale_cache_no_retry_counterexample :
  let w := cachedWorld staleBasic openAfterStale in
  let path := "/cgi-bin/param.cgi?get_image_conf" in
  authCache w !! camera = Some staleBasic
  /\ network w (sent w) (authRequest w camera path 4000 admin staleBasic)
     = Responded (mkResponse 401 None [] "stale")
  /\ map (fun rq => reqHeaders rq !! "Authorization")
         (sent (snd (run (authGet (fun s => s) camera path 4000 (Some admin)) w)))
     = [Some "Basic YWRtaW46c2VjcmV0"; None]
  /\ fst (run (authGet (fun s => s) camera path 4000 (Some admin)) w)
     = inr (mkResponse 200 None [] "wb_mode=0")
  /\ authCache (snd (run (authGet (fun s => s) camera path 4000 (Some admin)) w)) !! camera
     = None.
Proof. vm_compute. repeat split. Qed.

Lemma authGetFresh_unchallenged (b64 : string -> string) (ip path : string) (t : Z)
    (auth : option Credential) (w : World) (res : Response) :
  network w (sent w) (plainRequest ip path t) = Responded res ->
  statusCode res <> 401 ->
  run (authGetFresh b64 ip path t auth) w = (inr res, afterSend (plainRequest ip path t) w).
Proof.
  intros Ho Hne. unfold authGetFresh, afterSend. mstep.
  fold (plainRequest ip path t). rewrite Ho.
  destruct (usable auth); [| reflexivity].
  destruct (Z.eqb_spec (statusCode res) 401); [contradiction | reflexivity].
Qed.

Lemma httpPost_cache (ip path : string) (t : Z) (auth : option Credential) (w : World) :
  authCache (snd (run (httpPost ip path t auth) w)) = authCache w.
Proof.
  unfold httpPost. mstep.
  destruct (authCache w !! ip) as [entry|]; [destruct (usable auth) as [cred|] |].
  - pose proof (retryHeaders_frame (scheme entry) path cred (challenge entry)
                  (cookie entry) w) as (Fc & _ & _).
    mstep.
    destruct (retryHeaders (scheme entry) path cred (challenge entry) (cookie entry) w)
      as [h0 w0].
    cbn [fst snd] in *. mstep.
    destruct (network w0 (sent w0) _); exact Fc.
  - mstep. destruct (network w (sent w) _); reflexivity.
  - mstep. destruct (network w (sent w) _); reflexivity.
Qed.

Lemma httpGet_cache (b64 : string -> string) (ip path : string) (t : Z)
    (auth : option Credential) (w : World) :
  snd (run (httpGet b64 ip path t auth) w) = snd (run (authGet b64 ip path t auth) w)
  /\ snd (run (httpGetBinary b64 ip path t auth) w)
     = snd (run (authGet b64 ip path t auth) w).
Proof.
  unfold httpGet, httpGetBinary. mstep.
  destruct (authGet b64 ip path t auth w) as [[err | res] w']; cbn [fst snd].
  - split; reflexivity.
  - split; [reflexivity |]. destruct (statusCode res =? 404); reflexivity.
Qed.

(** C10: the entry of a host is created or overwritten only when the
    authenticated retry of a fresh negotiation is answered with a status
    other than 401. A request that never meets a 401, a request served by
    the cached attempt, and every POST leave the cache as it was; the one
    other change is the deletion of the entry when a cached attempt is
    answered 401. The helpers [httpGet] and [httpGetBinary] change the cache
    only through [authGet], and no entry of another host is touched. *)
Theorem cache_written_only_by_accepted_retry (b64 : string -> string) (w : World)
    (ip path : string) (t : Z) (auth : option Credential) :
  let rq1 := plainRequest ip path t in
  let fresh := run (authGetFresh b64 ip path t auth) w in
  let get := run (authGet b64 ip path t auth) w in
  (* the fresh negotiation writes only after an accepted retry *)
  (authCache (snd fresh) = authCache w
   \/ exists res1 cred entry res2,
        network w (sent w) rq1 = Responded res1 /\ statusCode res1 = 401
        /\ usable auth = Some cred /\ freshEntry b64 res1 = Some entry
        /\ let rq2 := authRequest (afterSend rq1 w) ip path t cred entry in
           sent (snd fresh) = sent w ++ [rq1; rq2]
           /\ network w (sent w ++ [rq1]) rq2 = Responded res2
           /\ statusCode res2 <> 401
           /\ fst fresh = inr res2
           /\ authCache (snd fresh) = <[ip := entry]> (authCache w))
  (* a request that is never answered 401 writes nothing *)
  /\ (forall res, network w (sent w) rq1 = Responded res -> statusCode res <> 401 ->
        fresh = (inr res, afterSend rq1 w) /\ authCache (snd fresh) = authCache w)
  (* without an entry or a credential, a GET is the fresh negotiation *)
  /\ (authCache w !! ip = None \/ usable auth = None -> get = fresh)
  (* the cached attempt: served, failed, or stale *)
  /\ (forall entry cred,
        authCache w !! ip = Some entry -> usable auth = Some cred ->
        let rq0 := authRequest w ip path t cred entry in
        let o0 := network w (sent w) rq0 in
        (forall res, o0 = Responded res -> statusCode res <> 401 ->
           fst get = inr res /\ sent (snd get) = sent w ++ [rq0]
           /\ authCache (snd get) = authCache w)
        /\ ((forall res, o0 <> Responded res) ->
            fst get = inl (requestError o0) /\ sent (snd get) = sent w ++ [rq0]
            /\ authCache (snd get) = authCache w)
        /\ (forall res, o0 = Responded res -> statusCode res = 401 ->
            get = run (authGetFresh b64 ip path t auth) (afterStale w ip path t cred entry)
            /\ authCache (afterStale w ip path t cred entry) = delete ip (authCache w)))
  (* a POST never changes the cache *)
  /\ authCache (snd (run (httpPost ip path t auth) w)) = authCache w
  (* the promise wrappers add nothing *)
  /\ snd (run (httpGet b64 ip path t auth) w) = snd get
  /\ snd (run (httpGetBinary b64 ip path t auth) w) = snd get
  (* entries of other hosts stay *)
  /\ (forall ip', ip' <> ip -> authCache (snd get) !! ip' = authCache w !! ip').
Proof.
  intros rq1 fresh get.
  assert (Hfresh : forall w0,
            authCache (snd (run (authGetFresh b64 ip path t auth) w0)) = authCache w0
            \/ exists entry, authCache (snd (run (authGetFresh b64 ip path t auth) w0))
                             = <[ip := entry]> (authCache w0)).
  { intros w0. pose proof (authGetFresh_cases b64 ip path t auth w0) as H.
    cbv zeta in H.
    destruct H as [_ [(_ & Ha & _) | (res1 & cred & entry & _ & _ & _ & _ & _ & Hcase)]];
      [left; exact Ha |].
    destruct Hcase as [(res2 & _ & _ & _ & Ha) | [(res2 & _ & _ & _ & Ha) | (_ & _ & Ha)]];
      [left; exact Ha | right; exists entry; exact Ha | left; exact Ha]. }
  split.
  { pose proof (authGetFresh_cases b64 ip path t auth w) as H.
    cbv zeta in H. fold rq1 in H. fold fresh in H.
    destruct H as [_ [(_ & Ha & _) | (res1 & cred & entry & H1 & H1' & Hu & Hf & Hs & Hcase)]];
      [left; exact Ha |].
    destruct Hcase as [(res2 & _ & _ & _ & Ha) | [(res2 & Ho2 & H2 & Hr & Ha) | (_ & _ & Ha)]];
      [left; exact Ha | | left; exact Ha].
    right. exists res1, cred, entry, res2. cbv zeta. repeat split; assumption. }
  split.
  { intros res Ho Hne. unfold fresh.
    rewrite (authGetFresh_unchallenged b64 ip path t auth w res Ho Hne).
    split; reflexivity. }
  split; [apply authGet_uncached |].
  split.
  { intros entry cred Hc Hu rq0 o0.
    pose proof (authGet_cached b64 ip path t auth w cred entry Hc Hu) as Hg.
    cbv zeta in Hg. fold rq0 in Hg. fold o0 in Hg. fold get in Hg.
    pose proof (retryHeaders_frame (scheme entry) path cred (challenge entry)
                  (cookie entry) w) as (Fc & _ & Fs).
    fold (afterHeaders w path cred entry) in Fc, Fs.
    split; [| split].
    - intros res Ho Hne. rewrite Hg, Ho.
      destruct (Z.eqb_spec (statusCode res) 401); [contradiction |].
      unfold afterSend. mstep. rewrite Fc, Fs. repeat split.
    - intros Hno. rewrite Hg.
      destruct o0 as [res | err |]; [exfalso; apply (Hno res); reflexivity | |];
        unfold afterSend; mstep; rewrite Fc, Fs; repeat split.
    - intros res Ho H401. rewrite Hg, Ho, H401. split; [reflexivity |].
      apply afterStale_fields. }
  split; [apply httpPost_cache |].
  split; [apply httpGet_cache |].
  split; [apply httpGet_cache |].
  intros ip' Hne.
  destruct (authCache w !! ip) as [entry|] eqn:Hc;
    [destruct (usable auth) as [cred|] eqn:Hu |].
  - pose proof (authGet_cached b64 ip path t auth w cred entry Hc Hu) as Hg.
    cbv zeta in Hg. fold get in Hg.
    pose proof (retryHeaders_frame (scheme entry) path cred (challenge entry)
                  (cookie entry) w) as (Fc & _ & _).
    fold (afterHeaders w path cred entry) in Fc.
    rewrite Hg.
    destruct (network w (sent w) _) as [res | err |];
      [| unfold afterSend; mstep; rewrite Fc; reflexivity
       | unfold afterSend; mstep; rewrite Fc; reflexivity].
    destruct (statusCode res =? 401);
      [| unfold afterSend; mstep; rewrite Fc; reflexivity].
    destruct (afterStale_fields w ip path t cred entry) as (Sc & _ & _).
    destruct (Hfresh (afterStale w ip path t cred entry)) as [Ha | (e & Ha)];
      rewrite Ha, Sc.
    + apply lookup_delete_ne. congruence.
    + rewrite lookup_insert_ne by congruence. apply lookup_delete_ne. congruence.
  - unfold get. rewrite authGet_uncached by (right; exact Hu).
    destruct (Hfresh w) as [Ha | (e & Ha)]; rewrite Ha; [reflexivity |].
    apply lookup_insert_ne. congruence.
  - unfold get. rewrite authGet_uncached by (left; reflexivity || exact Hc).
    destruct (Hfresh w) as [Ha | (e & Ha)]; rewrite Ha; [reflexivity |].
    apply lookup_insert_ne. congruence.
Qed.

Lemma cache_written_only_by_accepted_retry_witness :
  let path := "/cgi-bin/param.cgi?get_image_conf" in
  let fresh := run (authGetFresh (fun s => s) camera path 4000 (Some admin))
                 (emptyWorld challengesBasic) in
  fst fresh = inr (mkResponse 200 None [] "wb_mode=0")
  /\ authCache (snd fresh) = {[ camera := mkCachedAuth basic ∅ None ]}
  /\ map (fun rq => reqHeaders rq !! "Authorization") (sent (snd fresh))
     = [None; Some "Basic YWRtaW46c2VjcmV0"]
  /\ authCache (snd (run (httpPost camera "/cgi-bin/param.cgi?post_reboot" 4000 (Some admin))
                       (snd fresh)))
     = authCache (snd fresh).
Proof.
  intros path fresh.
  destruct (cache_written_only_by_accepted_retry (fun s => s) (snd fresh) camera
              "/cgi-bin/param.cgi?post_reboot" 4000 (Some admin))
    as (_ & _ & _ & _ & Hpost & _).
  destruct (cache_written_only_by_accepted_retry (fun s => s) (emptyWorld challengesBasic)
              camera path 4000 (Some admin))
    as ([Hsame | (res1 & cred & entry & res2 & _ & _ & _ & Hf & _ & _ & _ & Hr & Ha)] & _).
  - exfalso. fold fresh in Hsame.
    assert (Hl : authCache (snd fresh) !! camera = Some (mkCachedAuth basic ∅ None))
      by (vm_compute; reflexivity).
    rewrite Hsame in Hl. vm_compute in Hl. discriminate.
  - fold fresh in Hr, Ha.
    split; [vm_compute; reflexivity |].
    split; [vm_compute; reflexivity |].
    split; [vm_compute; reflexivity |].
    exact Hpost.
Defined.

(* ------------------------------------------------------------------ *)
(** ** Further properties of the transport *)
(* ------------------------------------------------------------------ *)

Lemma plainRequest_isGetTo (ip path : string) (t : Z) :
  isGetTo ip path t (plainRequest ip path t).
Proof. repeat split. Qed.

Lemma authRequest_isGetTo (w : World) (ip path : string) (t : Z)
    (cred : Credential) (entry : CachedAuth) :
  isGetTo ip path t (authRequest w ip path t cred entry).
Proof. repeat split. Qed.

(** A fresh negotiation is one or two requests, the first without
    credentials. *)
Lemma authGetFresh_requests (b64 : string -> string) (ip path : string) (t : Z)
    (auth : option Credential) (w : World) :
  let w' := snd (run (authGetFresh b64 ip path t auth) w) in
  network w' = network w
  /\ exists rqs,
       sent w' = sent w ++ plainRequest ip path t :: rqs
       /\ (List.length rqs <= 1)%nat
       /\ Forall (isGetTo ip path t) rqs.
Proof.
  intros w'. pose proof (authGetFresh_cases b64 ip path t auth w) as H.
  cbv zeta in H. fold w' in H.
  destruct H as [Hn [(Hs & _) | (res & cred & entry & _ & _ & _ & _ & Hs & _)]].
  - split; [exact Hn |]. exists []. split; [exact Hs |]. split; [cbn; lia | constructor].
  - split; [exact Hn |]. eexists [_]. split; [exact Hs |].
    split; [cbn; lia |]. constructor; [apply authRequest_isGetTo | constructor].
Qed.

(** X1: a GET through [authGet] costs at least one and at most three
    requests, all of them GET requests for the same path on the same host
    with the timeout of the caller; without a cache entry or without a
    usable credential it costs at most two, the first carrying no
    credentials. The network is left as it was. *)
Theorem authGet_round_trips (b64 : string -> string) (w : World)
    (ip path : string) (t : Z) (auth : option Credential) :
  let w' := snd (run (authGet b64 ip path t auth) w) in
  network w' = network w
  /\ exists rqs,
       sent w' = sent w ++ rqs
       /\ (1 <= List.length rqs <= 3)%nat
       /\ Forall (isGetTo ip path t) rqs
       /\ (authCache w !! ip = None \/ usable auth = None ->
           (List.length rqs <= 2)%nat
           /\ List.hd_error rqs = Some (plainRequest ip path t)).
Proof.
  intros w'.
  assert (Hfresh : forall w0,
            snd (run (authGet b64 ip path t auth) w) = snd (run (authGetFresh b64 ip path t auth) w0) ->
            network w0 = network w ->
            forall pre, sent w0 = sent w ++ pre -> Forall (isGetTo ip path t) pre ->
            network w' = network w
            /\ exists rqs, sent w' = sent w ++ rqs
                 /\ (1 + List.length pre <= List.length rqs <= 2 + List.length pre)%nat
                 /\ Forall (isGetTo ip path t) rqs
                 /\ (pre = [] -> List.hd_error rqs = Some (plainRequest ip path t))).
  { intros w0 Hrun Hn pre Hs Hpre.
    destruct (authGetFresh_requests b64 ip path t auth w0) as (Fn & rqs & Fs & Fl & Ff).
    unfold w'. rewrite Hrun. split; [congruence |].
    exists (pre ++ plainRequest ip path t :: rqs).
    split; [rewrite Fs, Hs, <- app_assoc; reflexivity |].
    split; [rewrite length_app; cbn [List.length]; lia |].
    split; [apply Forall_app; split; [exact Hpre |];
            constructor; [apply plainRequest_isGetTo | exact Ff] |].
    intros ->. reflexivity. }
  destruct (authCache w !! ip) as [entry|] eqn:Hc;
    [destruct (usable auth) as [cred|] eqn:Hu |].
  - pose proof (authGet_cached b64 ip path t auth w cred entry Hc Hu) as Hg.
    cbv zeta in Hg.
    pose proof (retryHeaders_frame (scheme entry) path cred (challenge entry)
                  (cookie entry) w) as (_ & Fn & Fs).
    fold (afterHeaders w path cred entry) in Fn, Fs.
    destruct (afterStale_fields w ip path t cred entry) as (_ & Sn & Ss).
    assert (Hone : snd (run (authGet b64 ip path t auth) w)
                   = afterSend (authRequest w ip path t cred entry)
                       (afterHeaders w path cred entry) ->
                   network w' = network w
                   /\ exists rqs, sent w' = sent w ++ rqs
                        /\ (1 <= List.length rqs <= 3)%nat
                        /\ Forall (isGetTo ip path t) rqs).
    { intros Hw. unfold w'. rewrite Hw. unfold afterSend. mstep.
      split; [exact Fn |]. eexists [_]. rewrite Fs.
      split; [reflexivity |]. split; [cbn; lia |].
      constructor; [apply authRequest_isGetTo | constructor]. }
    assert (Hcase : (network w' = network w
                     /\ exists rqs, sent w' = sent w ++ rqs
                          /\ (1 <= List.length rqs <= 3)%nat
                          /\ Forall (isGetTo ip path t) rqs)).
    { destruct (network w (sent w) (authRequest w ip path t cred entry))
        as [res | err |] eqn:Ho.
      - destruct (statusCode res =? 401) eqn:H401.
        + destruct (Hfresh (afterStale w ip path t cred entry)
                      ltac:(rewrite Hg; reflexivity) Sn
                      [authRequest w ip path t cred entry] Ss
                      ltac:(constructor; [apply authRequest_isGetTo | constructor]))
            as (Hn & rqs & Hs & Hl & Hf & _).
          split; [exact Hn |]. exists rqs. cbn [List.length] in Hl.
          repeat split; try assumption; lia.
        + apply Hone. rewrite Hg. reflexivity.
      - apply Hone. rewrite Hg. reflexivity.
      - apply Hone. rewrite Hg. reflexivity. }
    destruct Hcase as (Hn & rqs & Hs & Hl & Hf).
    split; [exact Hn |]. exists rqs. repeat split; try assumption; try lia;
      destruct H as [H | H]; discriminate.
  - destruct (Hfresh w ltac:(rewrite authGet_uncached by (right; exact Hu); reflexivity)
                eq_refl [] ltac:(rewrite app_nil_r; reflexivity) ltac:(constructor))
      as (Hn & rqs & Hs & Hl & Hf & Hh).
    split; [exact Hn |]. exists rqs. cbn [List.length] in Hl.
    repeat split; try assumption; try lia. apply Hh. reflexivity.
  - destruct (Hfresh w ltac:(rewrite authGet_uncached by (left; exact Hc); reflexivity)
                eq_refl [] ltac:(rewrite app_nil_r; reflexivity) ltac:(constructor))
      as (Hn & rqs & Hs & Hl & Hf & Hh).
    split; [exact Hn |]. exists rqs. cbn [List.length] in Hl.
    repeat split; try assumption; try lia. apply Hh. reflexivity.
Qed.

Lemma authGet_plain (b64 : string -> string) (w : World)
    (ip path : string) (t : Z) (auth : option Credential) :
  usable auth = None ->
  run (authGet b64 ip path t auth) w
  = (match network w (sent w) (plainRequest ip path t) with
     | Responded res => inr res
     | o => inl (requestError o)
     end,
     mkWorld (authCache w) (network w) (sent w ++ [plainRequest ip path t])
       (entropy w) (draws w)).
Proof.
  intros Hu. rewrite authGet_uncached by (right; exact Hu).
  unfold authGetFresh. mstep. fold (plainRequest ip path t). rewrite Hu.
  destruct (network w (sent w) (plainRequest ip path t)); reflexivity.
Qed.

(** X2: without a usable credential (none, or an empty username or
    password) [authGet] sends exactly one request, which carries no
    credentials, never looks at the cache entry and hands the response on
    whatever its status, a 401 included; the cache is left as it was. *)
Theorem authGet_without_credential (b64 : string -> string) (w : World)
    (ip path : string) (t : Z) (auth : option Credential) :
  usable auth = None ->
  reqHeaders (plainRequest ip path t) = {[ "Connection" := "close" ]}
  /\ run (authGet b64 ip path t auth) w
     = (match network w (sent w) (plainRequest ip path t) with
        | Responded res => inr res
        | o => inl (requestError o)
        end,
        mkWorld (authCache w) (network w) (sent w ++ [plainRequest ip path t])
          (entropy w) (draws w)).
Proof.
  intros Hu. split; [reflexivity | exact (authGet_plain b64 w ip path t auth Hu)].
Qed.

Lemma authGet_without_credential_witness :
  usable (Some (mkCredential "admin" EmptyString)) = None
  /\ fst (run (authGet (fun s => s) camera "/cgi-bin/param.cgi?get_image_conf" 4000
                 (Some (mkCredential "admin" EmptyString)))
            (cachedWorld staleBasic rejectsAll))
     = inr (mkResponse 401 (Some basicChallenge) [] EmptyString).
Proof.
  split; [reflexivity |].
  destruct (authGet_without_credential (fun s => s) (cachedWorld staleBasic rejectsAll)
              camera "/cgi-bin/param.cgi?get_image_conf" 4000
              (Some (mkCredential "admin" EmptyString)) eq_refl) as [_ H].
  rewrite H. reflexivity.
Defined.

Lemma authGet_first_failure (b64 : string -> string) (w : World)
    (ip path : string) (t : Z) (auth : option Credential) :
  authCache w !! ip = None \/ usable auth = None ->
  (forall res, network w (sent w) (plainRequest ip path t) <> Responded res) ->
  run (authGet b64 ip path t auth) w
  = (inl (requestError (network w (sent w) (plainRequest ip path t))),
     afterSend (plainRequest ip path t) w).
Proof.
  intros Hc Hno. rewrite authGet_uncached by exact Hc.
  unfold authGetFresh, afterSend. mstep. fold (plainRequest ip path t).
  destruct (network w (sent w) (plainRequest ip path t)) as [res | err |];
    [exfalso; apply (Hno res); reflexivity | reflexivity | reflexivity].
Qed.

Lemma hasCode_eq (err : JsError) (c : string) :
  errCode err = Some c -> hasCode err c = true.
Proof. intros H. unfold hasCode. rewrite H. apply String.eqb_refl. Qed.

Lemma hasCode_other (err : JsError) (c c' : string) :
  errCode err = Some c -> c <> c' -> hasCode err c' = false.
Proof. intros H Hne. unfold hasCode. rewrite H. apply String.eqb_neq. exact Hne. Qed.

(** X3: when the first request of a GET fails in the transport, [httpGet]
    and [httpGetBinary] reject with a classified message: a refused
    connection and [ETIMEDOUT] get a fixed text in both, an unreachable host
    or network only in [httpGet] ([httpGetBinary] hands the native error
    on), and the [timeout] event of the request itself, which carries no
    code, is reported as [Request timed out] by both. *)
Theorem transport_failure_messages (b64 : string -> string) (w : World)
    (ip path : string) (t : Z) (auth : option Credential) :
  authCache w !! ip = None \/ usable auth = None ->
  let o := network w (sent w) (plainRequest ip path t) in
  let text := fst (run (httpGet b64 ip path t auth) w) in
  let binary := fst (run (httpGetBinary b64 ip path t auth) w) in
  (o = TimedOut ->
     text = Rejected (newError "Request timed out")
     /\ binary = Rejected (newError "Request timed out"))
  /\ (forall err, o = Errored err -> errCode err = Some "ECONNREFUSED" ->
        text = Rejected (newError
                 "Connection refused - camera may be offline or IP is incorrect")
        /\ binary = Rejected (newError "Connection refused - camera may be offline"))
  /\ (forall err, o = Errored err ->
        errCode err = Some "EHOSTUNREACH" \/ errCode err = Some "ENETUNREACH" ->
        text = Rejected (newError "Network unreachable - check network connection")
        /\ binary = Rejected err)
  /\ (forall err, o = Errored err -> errCode err = Some "ETIMEDOUT" ->
        text = Rejected (newError "Connection timed out - camera not responding")
        /\ binary = Rejected (newError "Connection timed out"))
  /\ (forall err, o = Errored err -> errCode err = None ->
        text = Rejected err /\ binary = Rejected err).
Proof.
  intros Hc o text binary.
  assert (Hrun : (forall res, o <> Responded res) ->
                 text = (match fst (run (authGet b64 ip path t auth) w) with
                         | inr res => Resolved (body res)
                         | inl err =>
                             Rejected
                               (if hasCode err "ECONNREFUSED"
                                then newError "Connection refused - camera may be offline or IP is incorrect"
                                else if hasCode err "EHOSTUNREACH" || hasCode err "ENETUNREACH"
                                then newError "Network unreachable - check network connection"
                                else if hasCode err "ETIMEDOUT"
                                then newError "Connection timed out - camera not responding"
                                else err)
                         end)
                 /\ binary = (match fst (run (authGet b64 ip path t auth) w) with
                              | inr res =>
                                  if statusCode res =? 404
                                  then Rejected (newError "404 Not Found - endpoint not supported")
                                  else Resolved (body res)
                              | inl err =>
                                  Rejected
                                    (if hasCode err "ECONNREFUSED"
                                     then newError "Connection refused - camera may be offline"
                                     else if hasCode err "ETIMEDOUT"
                                     then newError "Connection timed out"
                                     else err)
                              end)
                 /\ fst (run (authGet b64 ip path t auth) w) = inl (requestError o)).
  { intros Hno. rewrite (authGet_first_failure b64 w ip path t auth Hc Hno).
    unfold text, binary, httpGet, httpGetBinary. mstep.
    pose proof (authGet_first_failure b64 w ip path t auth Hc Hno) as Hg.
    unfold run in Hg. rewrite Hg. repeat split. }
  split; [| split; [| split; [| split]]].
  - intros Ho. destruct Hrun as (Ht & Hb & Hg); [rewrite Ho; discriminate |].
    rewrite Ht, Hb, Hg, Ho. split; reflexivity.
  - intros err Ho Hcode. destruct Hrun as (Ht & Hb & Hg); [rewrite Ho; discriminate |].
    rewrite Ht, Hb, Hg, Ho. cbn [requestError].
    rewrite (hasCode_eq err _ Hcode). split; reflexivity.
  - intros err Ho Hcode. destruct Hrun as (Ht & Hb & Hg); [rewrite Ho; discriminate |].
    rewrite Ht, Hb, Hg, Ho. cbn [requestError].
    destruct Hcode as [Hcode | Hcode].
    + rewrite (hasCode_other err _ "ECONNREFUSED" Hcode) by discriminate.
      rewrite (hasCode_other err _ "ETIMEDOUT" Hcode) by discriminate.
      rewrite (hasCode_eq err _ Hcode). split; reflexivity.
    + rewrite (hasCode_other err _ "ECONNREFUSED" Hcode) by discriminate.
      rewrite (hasCode_other err _ "ETIMEDOUT" Hcode) by discriminate.
      rewrite (hasCode_other err _ "EHOSTUNREACH" Hcode) by discriminate.
      rewrite (hasCode_eq err _ Hcode). split; reflexivity.
  - intros err Ho Hcode. destruct Hrun as (Ht & Hb & Hg); [rewrite Ho; discriminate |].
    rewrite Ht, Hb, Hg, Ho. cbn [requestError].
    rewrite (hasCode_other err _ "ECONNREFUSED" Hcode) by discriminate.
    rewrite (hasCode_other err _ "EHOSTUNREACH" Hcode) by discriminate.
    rewrite (hasCode_other err _ "ENETUNREACH" Hcode) by discriminate.
    rewrite (hasCode_eq err _ Hcode). split; reflexivity.
  - intros err Ho Hcode. destruct Hrun as (Ht & Hb & Hg); [rewrite Ho; discriminate |].
    rewrite Ht, Hb, Hg, Ho. cbn [requestError].
    unfold hasCode. rewrite Hcode. split; reflexivity.
Qed.

Lemma transport_failure_messages_witness :
  authCache (emptyWorld refuses) !! camera = None
  /\ fst (run (httpGet (fun s => s) camera "/cgi-bin/param.cgi?get_image_conf" 4000
                 (Some admin)) (emptyWorld refuses))
     = Rejected (newError "Connection refused - camera may be offline or IP is incorrect")
  /\ fst (run (httpGetBinary (fun s => s) camera "/cgi-bin/param.cgi?get_image_conf" 4000
                 (Some admin)) (emptyWorld refuses))
     = Rejected (newError "Connection refused - camera may be offline").
Proof.
  split; [reflexivity |].
  destruct (transport_failure_messages (fun s => s) (emptyWorld refuses) camera
              "/cgi-bin/param.cgi?get_image_conf" 4000 (Some admin)
              (or_introl eq_refl)) as (_ & H & _).
  apply (H _ eq_refl eq_refl).
Defined.

Lemma findTkt_none (setCookies : list string) :
  Forall (fun c => Js.startsWith c "auth_tkt=" = false) setCookies ->
  findTkt setCookies = None.
Proof.
  unfold findTkt. induction 1 as [| c l Hc _ IH]; [reflexivity |].
  cbn [find]. rewrite Hc. exact IH.
Qed.

(** X4: a 401 whose [WWW-Authenticate] header starts, case aside, with
    none of digest, authn, auth_tkt and basic, and that sets no [auth_tkt]
    cookie, ends the GET after that one request: [httpGet] rejects with the
    unknown-scheme error, no credentials are sent and the cache is left as
    it was. *)
Theorem httpGet_unknown_scheme (b64 : string -> string) (w : World)
    (ip path : string) (t : Z) (auth : option Credential)
    (cred : Credential) (res : Response) :
  authCache w !! ip = None ->
  usable auth = Some cred ->
  network w (sent w) (plainRequest ip path t) = Responded res ->
  statusCode res = 401 ->
  let lower := Js.toLowerCase (Js.orElse (wwwAuthenticate res) EmptyString) in
  Js.startsWith lower "digest" = false ->
  Js.startsWith lower "authn" = false ->
  Js.startsWith lower "auth_tkt" = false ->
  Js.startsWith lower "basic" = false ->
  Forall (fun c => Js.startsWith c "auth_tkt=" = false) (setCookie res) ->
  run (httpGet b64 ip path t auth) w
  = (Rejected (newError "401 Unauthorized — unknown auth scheme"),
     mkWorld (authCache w) (network w) (sent w ++ [plainRequest ip path t])
       (entropy w) (draws w)).
Proof.
  intros Hc Hu Ho H401 lower Hd Ha Ht Hb Hck.
  unfold httpGet. mstep.
  pose proof (authGet_uncached b64 ip path t auth w (or_introl Hc)) as Hg.
  unfold run in Hg. rewrite Hg.
  unfold authGetFresh. mstep. fold (plainRequest ip path t).
  rewrite Ho, Hu, H401. cbn [Z.eqb Pos.eqb negb].
  unfold detectScheme. fold lower. rewrite Hd, Ha, Ht, Hb. cbn [orb].
  rewrite (findTkt_none _ Hck). reflexivity.
Qed.

Lemma httpGet_unknown_scheme_witness :
  authCache (emptyWorld bearerOnly) !! camera = None
  /\ fst (run (httpGet (fun s => s) camera "/cgi-bin/param.cgi?get_image_conf" 4000
                 (Some admin)) (emptyWorld bearerOnly))
     = Rejected (newError "401 Unauthorized — unknown auth scheme").
Proof.
  split; [reflexivity |].
  rewrite (httpGet_unknown_scheme (fun s => s) (emptyWorld bearerOnly) camera
             "/cgi-bin/param.cgi?get_image_conf" 4000 (Some admin) admin
             (mkResponse 401 (Some "Bearer realm=camera") [] EmptyString)
             eq_refl eq_refl eq_refl eq_refl eq_refl eq_refl eq_refl eq_refl
             (List.Forall_nil _)).
  reflexivity.
Defined.

(* ------------------------------------------------------------------ *)
(** ** Further properties of the builders *)
(* ------------------------------------------------------------------ *)

Lemma dom_two (k1 k2 v1 v2 : string) :
  dom (<[k1 := v1]> ({[ k2 := v2 ]} : Headers)) = ({[ k1; k2 ]} : gset string).
Proof. rewrite dom_insert_L, dom_singleton_L. reflexivity. Qed.

(** X5: the headers of an authenticated request always ask to close the
    connection and carry the credentials in one place only: Digest and
    Basic set [Authorization] and nothing else, the vendor scheme sets
    [auth_tkt] and [User-From: www], never [Authorization], and a [Cookie]
    header exactly when a non-empty session cookie was captured. *)
Theorem buildRetryHeaders_shape (rnd : list Z) (sch : Scheme) (uri : string)
    (auth : Credential) (ch : Challenge) (ck : option string) :
  let h := buildRetryHeaders rnd sch uri auth ch ck in
  h !! "Connection" = Some "close"
  /\ match sch with
     | digest =>
         h !! "Authorization"
         = Some (headerValue (buildDigestAuth rnd "GET" uri (username auth) (password auth) ch))
         /\ dom h = ({[ "Authorization"; "Connection" ]} : gset string)
     | basic =>
         h !! "Authorization"
         = Some (headerValue (buildBasicAuth (username auth) (password auth)))
         /\ dom h = ({[ "Authorization"; "Connection" ]} : gset string)
     | authn =>
         h !! "auth_tkt"
         = Some (headerValue (buildAuthnAuth rnd uri (username auth) (password auth) ch))
         /\ h !! "User-From" = Some "www"
         /\ h !! "Authorization" = None
         /\ h !! "Cookie" = match ck with
                            | Some c => if Js.truthy c then Some c else None
                            | None => None
                            end
         /\ dom h ⊆ ({[ "Cookie"; "User-From"; "auth_tkt"; "Connection" ]} : gset string)
     end.
Proof.
  intros h. unfold h, buildRetryHeaders. destruct sch.
  - change (headerName (buildDigestAuth rnd "GET" uri (username auth) (password auth) ch))
      with "Authorization".
    split; [rewrite lookup_insert_ne by discriminate; apply lookup_singleton_eq |].
    split; [apply lookup_insert_eq | apply dom_two].
  - change (headerName (buildAuthnAuth rnd uri (username auth) (password auth) ch))
      with "auth_tkt".
    destruct ck as [c|]; [destruct (Js.truthy c) |];
      (split; [repeat (rewrite lookup_insert_ne by discriminate); apply lookup_singleton_eq |]);
      (split; [repeat (rewrite lookup_insert_ne by discriminate); apply lookup_insert_eq |]);
      (split; [repeat (rewrite lookup_insert_ne by discriminate); apply lookup_insert_eq |]);
      (split; [repeat (rewrite lookup_insert_ne by discriminate);
               rewrite lookup_singleton_ne by discriminate; reflexivity |]);
      (split; [first [apply lookup_insert_eq
                     | repeat (rewrite lookup_insert_ne by discriminate);
                       rewrite lookup_singleton_ne by discriminate; reflexivity] |]);
      rewrite ?dom_insert_L, dom_singleton_L; set_solver.
  - change (headerName (buildBasicAuth (username auth) (password auth)))
      with "Authorization".
    split; [rewrite lookup_insert_ne by discriminate; apply lookup_singleton_eq |].
    split; [apply lookup_insert_eq | apply dom_two].
Qed.





(* ------------------------------------------------------------------ *)
(** ** Further properties of the handlers *)
(* ------------------------------------------------------------------ *)




Lemma postImageValues_app (b64 : string -> string) (ip : string)
    (es1 es2 : list (string * string)) (auth : option Credential) :
  forall w,
    run (postImageValues b64 ip (es1 ++ es2) auth) w
    = match run (postImageValues b64 ip es1 auth) w with
      | (Success _, w1) => run (postImageValues b64 ip es2 auth) w1
      | (r1, w1) => (r1, w1)
      end.
Proof.
  induction es1 as [| [k v] es1 IH]; intros w; [reflexivity |].
  cbn [app postImageValues]. unfold run, mbind, M_bind in *.
  destruct (httpGet b64 ip (imageValuePath k v) 4000 auth w) as [[b | err] w1].
  - apply IH.
  - reflexivity.
Qed.

(** X8: on a real host, [camera:setImageParam] sends its parameters one
    after the other and stops at the first read that is rejected: the
    parameters after it are never sent and the failure carries the message
    of that read. With no parameter it succeeds without any request.
    [camera:setExposureParam] and [camera:setFocusParam] are the same
    function. *)
Theorem setImageParam_stops_at_first_failure (b64 : string -> string) (w : World)
    (ip : string) (auth : option Credential) :
  isMock ip = false ->
  run (setImageParam b64 ip [] auth) w = (Success tt, w)
  /\ (forall k v rest,
        match run (httpGet b64 ip ("/cgi-bin/ptzctrl.cgi?post_image_value&" +:+ k +:+ "&" +:+ v)
                     4000 auth) w with
        | (Resolved _, w1) =>
            run (setImageParam b64 ip ((k, v) :: rest) auth) w
            = run (setImageParam b64 ip rest auth) w1
        | (Rejected err, w1) =>
            run (setImageParam b64 ip ((k, v) :: rest) auth) w
            = (Failure (errMessage err), w1)
        end)
  /\ (forall es1 es2,
        match run (setImageParam b64 ip es1 auth) w with
        | (Success _, w1) =>
            run (setImageParam b64 ip (es1 ++ es2) auth) w
            = run (setImageParam b64 ip es2 auth) w1
        | (r1, w1) => run (setImageParam b64 ip (es1 ++ es2) auth) w = (r1, w1)
        end)
  /\ (forall es, setExposureParam b64 ip es auth = setImageParam b64 ip es auth
                 /\ setFocusParam b64 ip es auth = setImageParam b64 ip es auth).
Proof.
  intros Hm. unfold setImageParam, setExposureParam, setFocusParam. rewrite Hm.
  split; [reflexivity |]. split; [| split; [| split; reflexivity]].
  - intros k v rest. cbn [postImageValues]. unfold run, mbind, M_bind, imageValuePath.
    destruct (httpGet b64 ip _ 4000 auth w) as [[b | err] w1]; reflexivity.
  - intros es1 es2. rewrite postImageValues_app.
    destruct (run (postImageValues b64 ip es1 auth) w) as [[| [] | e] w1]; reflexivity.
Qed.

Lemma setImageParam_stops_at_first_failure_witness :
  isMock camera = false
  /\ run (setImageParam (fun s => s) camera [("bright", "7"); ("hue", "3")] (Some admin))
       (emptyWorld refuses)
     = (Failure "Connection refused - camera may be offline or IP is incorrect",
        afterSend (plainRequest camera "/cgi-bin/ptzctrl.cgi?post_image_value&bright&7" 4000)
          (emptyWorld refuses)).
Proof.
  split; [reflexivity |].
  destruct (setImageParam_stops_at_first_failure (fun s => s) (emptyWorld refuses) camera
              (Some admin) eq_refl) as (_ & Hstep & _).
  specialize (Hstep "bright" "7" [("hue", "3")]).
  destruct (run (httpGet (fun s => s) camera
                   ("/cgi-bin/ptzctrl.cgi?post_image_value&" +:+ "bright" +:+ "&" +:+ "7")
                   4000 (Some admin)) (emptyWorld refuses)) as [[b | err] w1] eqn:E.
  - vm_compute in E. discriminate.
  - rewrite Hstep. vm_compute in E. injection E as <- <-. reflexivity.
Defined.

Lemma syncValues_app (b64 : string -> string) (ip : string)
    (es1 es2 : list (string * option string)) (auth : option Credential) :
  forall w,
    run (syncValues b64 ip (es1 ++ es2) auth) w
    = run (syncValues b64 ip es2 auth) (snd (run (syncValues b64 ip es1 auth) w)).
Proof.
  induction es1 as [| [k [v|]] es1 IH]; intros w; [reflexivity | |].
  - cbn [app syncValues]. unfold run, mbind, M_bind in *.
    destruct (httpGet b64 ip (imageValuePath k v) 4000 auth w) as [r w1]. apply IH.
  - cbn [app syncValues]. apply IH.
Qed.

Lemma syncValues_unit (b64 : string -> string) (ip : string)
    (es : list (string * option string)) (auth : option Credential) (w : World) :
  run (syncValues b64 ip es auth) w = (tt, snd (run (syncValues b64 ip es auth) w)).
Proof. destruct (run (syncValues b64 ip es auth) w) as [[] w1]. reflexivity. Qed.

Lemma httpGet_without_credential_sent (b64 : string -> string) (w : World)
    (ip path : string) (t : Z) (auth : option Credential) :
  usable auth = None ->
  sent (snd (run (httpGet b64 ip path t auth) w)) = sent w ++ [plainRequest ip path t].
Proof.
  intros Hu. destruct (httpGet_cache b64 ip path t auth w) as [Hw _]. rewrite Hw.
  rewrite (authGet_plain b64 w ip path t auth Hu). reflexivity.
Qed.

(** X9: on a real host, [camera:syncAll] always reports success: a read
    that is rejected does not stop the loop, so the entries after it are
    still sent, and an entry whose value is [null] or [undefined] sends
    nothing. Without a credential it sends exactly one GET per remaining
    entry, in the order of the entries. *)
Theorem syncAll_never_fails (b64 : string -> string) (w : World) (ip : string)
    (entries : list (string * option string)) (auth : option Credential) :
  isMock ip = false ->
  let paths es :=
    flat_map (fun kv => match snd kv with
                        | Some v => ["/cgi-bin/ptzctrl.cgi?post_image_value&"
                                     +:+ fst kv +:+ "&" +:+ v]
                        | None => []
                        end) es in
  fst (run (syncAll b64 ip entries auth) w) = Success tt
  /\ (forall es1 es2,
        snd (run (syncAll b64 ip (es1 ++ es2) auth) w)
        = snd (run (syncAll b64 ip es2 auth) (snd (run (syncAll b64 ip es1 auth) w))))
  /\ (paths entries = [] -> snd (run (syncAll b64 ip entries auth) w) = w)
  /\ (usable auth = None ->
      sent (snd (run (syncAll b64 ip entries auth) w))
      = sent w ++ map (fun p => plainRequest ip p 4000) (paths entries)).
Proof.
  intros Hm paths.
  assert (Hrun : forall es w0,
            run (syncAll b64 ip es auth) w0
            = (Success tt, snd (run (syncValues b64 ip es auth) w0))).
  { intros es w0. unfold syncAll. rewrite Hm. unfold run, mbind, M_bind.
    pose proof (syncValues_unit b64 ip es auth w0) as Hu. unfold run in Hu.
    rewrite Hu. reflexivity. }
  split; [rewrite Hrun; reflexivity |].
  split; [intros es1 es2; rewrite !Hrun; cbn [snd]; rewrite syncValues_app; reflexivity |].
  rewrite Hrun. cbn [snd]. split.
  - revert w. induction entries as [| [k [v|]] es IH]; intros w Hp; [reflexivity | |].
    + cbn in Hp. discriminate.
    + cbn [syncValues]. apply IH. exact Hp.
  - intros Hu. revert w. induction entries as [| [k [v|]] es IH]; intros w.
    + cbn. rewrite app_nil_r. reflexivity.
    + cbn [syncValues]. unfold run, mbind, M_bind in *.
      pose proof (httpGet_without_credential_sent b64 w ip (imageValuePath k v) 4000 auth Hu)
        as Hs.
      unfold run in Hs.
      destruct (httpGet b64 ip (imageValuePath k v) 4000 auth w) as [r w1].
      cbn [snd] in Hs. rewrite IH, Hs, <- app_assoc. reflexivity.
    + cbn [syncValues]. apply IH.
Qed.

Lemma syncAll_never_fails_witness :
  isMock camera = false
  /\ fst (run (syncAll (fun s => s) camera
                 [("bright", Some "7"); ("hue", None); ("gain", Some "2")] None)
            (emptyWorld refuses)) = Success tt
  /\ map reqPath
       (sent (snd (run (syncAll (fun s => s) camera
                          [("bright", Some "7"); ("hue", None); ("gain", Some "2")] None)
                     (emptyWorld refuses))))
     = ["/cgi-bin/ptzctrl.cgi?post_image_value&bright&7";
        "/cgi-bin/ptzctrl.cgi?post_image_value&gain&2"].
Proof.
  split; [reflexivity |].
  destruct (syncAll_never_fails (fun s => s) (emptyWorld refuses) camera
              [("bright", Some "7"); ("hue", None); ("gain", Some "2")] None eq_refl)
    as (Hok & _ & _ & Hs).
  split; [exact Hok |]. rewrite (Hs eq_refl). reflexivity.
Defined.

(** X10: on a real host, [camera:setAutoTracking] tries the G3 endpoint
    and turns to the G2 endpoint only when that read is rejected, in the
    world the first read left; it writes [on]/[off] for G3 and [2]/[3] for
    G2. It fails exactly when both reads are rejected, and then with the
    message of the second: the first failure is never reported. *)
Theorem setAutoTracking_fallback (b64 : string -> string) (w : World) (ip : string)
    (enabled : bool) (auth : option Credential) :
  isMock ip = false ->
  let g3 := "/cgi-bin/param.cgi?set_overlay&autotracking&"
            +:+ (if enabled then "on" else "off") in
  let g2 := "/cgi-bin/ptzctrl.cgi?post_image_value&autotrack&"
            +:+ (if enabled then "2" else "3") in
  let first := run (httpGet b64 ip g3 4000 auth) w in
  let second := run (httpGet b64 ip g2 4000 auth) (snd first) in
  let result := run (setAutoTracking b64 ip enabled auth) w in
  (forall b, fst first = Resolved b -> result = (Success tt, snd first))
  /\ (forall e b, fst first = Rejected e -> fst second = Resolved b ->
        result = (Success tt, snd second))
  /\ (forall e e2, fst first = Rejected e -> fst second = Rejected e2 ->
        result = (Failure (errMessage e2), snd second))
  /\ ((exists msg, fst result = Failure msg)
      <-> (exists e e2, fst first = Rejected e /\ fst second = Rejected e2)).
Proof.
  intros Hm g3 g2 first second result.
  unfold result, setAutoTracking. rewrite Hm.
  unfold run, mbind, M_bind, mret, M_ret.
  change (autoTrackingG3Path enabled) with g3.
  change (autoTrackingG2Path enabled) with g2.
  unfold second, first, run.
  destruct (httpGet b64 ip g3 4000 auth w) as [[b | e] w1]; cbn [fst snd].
  - split; [intros b' _; reflexivity |].
    split; [intros e b' H; discriminate |].
    split; [intros e e2 H; discriminate |].
    split; [intros [msg H]; discriminate | intros (e & e2 & H & _); discriminate].
  - destruct (httpGet b64 ip g2 4000 auth w1) as [[b2 | e2] w2]; cbn [fst snd ignoreBody].
    + split; [intros b' H; discriminate |].
      split; [intros e' b' _ _; reflexivity |].
      split; [intros e' e2 _ H; discriminate |].
      split; [intros [msg H]; discriminate | intros (e' & e2 & _ & H); discriminate].
    + split; [intros b' H; discriminate |].
      split; [intros e' b' _ H; discriminate |].
      split; [intros e' e2' _ H; injection H as <-; reflexivity |].
      split; [intros _; exists e, e2; split; reflexivity | intros _; eexists; reflexivity].
Qed.

Lemma setAutoTracking_fallback_witness :
  isMock camera = false
  /\ run (setAutoTracking (fun s => s) camera true None) (emptyWorld refuses)
     = (Failure "Connection refused - camera may be offline or IP is incorrect",
        snd (run (httpGet (fun s => s) camera
                    "/cgi-bin/ptzctrl.cgi?post_image_value&autotrack&2" 4000 None)
               (snd (run (httpGet (fun s => s) camera
                            "/cgi-bin/param.cgi?set_overlay&autotracking&on" 4000 None)
                       (emptyWorld refuses))))).
Proof.
  split; [reflexivity |].
  destruct (setAutoTracking_fallback (fun s => s) (emptyWorld refuses) camera true None
              eq_refl) as (_ & _ & H & _).
  apply (H (newError "Connection refused - camera may be offline or IP is incorrect")
           (newError "Connection refused - camera may be offline or IP is incorrect"));
    reflexivity.
Defined.

(** X11: on a real host, [camera:snapshot] and [camera:saveSnapshot] make
    the same requests and agree on the outcome: one succeeds exactly when
    the other does, with the same base64 payload, [saveSnapshot] adding the
    type [image/jpeg]; an HTML page of fewer than 1000 bytes is a failure in
    both, reported by [saveSnapshot] with a single message. On the mock
    host [saveSnapshot] fails without any request. *)
Theorem saveSnapshot_agrees_with_snapshot (b64 : string -> string) (w : World)
    (ip : string) (auth : option Credential) :
  let shot := run (snapshot b64 ip auth) w in
  let saved := run (saveSnapshot b64 ip auth) w in
  (isMock ip = true ->
     saved = (Failure "Snapshots not available in mock mode", w))
  /\ (isMock ip = false ->
      snd saved = snd shot
      /\ (forall d, fst shot = Success (mkSnapshot d)
                    <-> fst saved = Success (mkSavedSnapshot d "image/jpeg"))
      /\ ((exists e, fst shot = Failure e) <-> (exists e, fst saved = Failure e))
      /\ (forall buf, fst (run (snapshotFetch b64 ip auth) w) = Resolved buf ->
            forall e, fst saved = Failure e ->
                      e = "Authentication required or endpoint not supported")).
Proof.
  intros shot saved. unfold shot, saved, snapshot, saveSnapshot. split.
  - intros Hm. rewrite Hm. reflexivity.
  - intros Hm. rewrite Hm. unfold run, mbind, M_bind, mret, M_ret.
    destruct (snapshotFetch b64 ip auth w) as [[buf | err] w1]; cbn [fst snd].
    + unfold snapshotReply, saveSnapshotReply.
      destruct (Z.of_nat (String.length buf) <? 1000);
        [destruct (Js.includes buf "<!DOCTYPE" || Js.includes buf "<html");
         [destruct (Js.includes buf "401" || Js.includes buf "Unauthorized") |] |];
        (split; [reflexivity |]);
        (split; [intros d; split; intros H; first [discriminate | injection H as <-; reflexivity] |]);
        (split; [split; intros [e H]; first [discriminate | eexists; reflexivity] |]);
        intros buf' _ e H; first [discriminate | injection H as <-; reflexivity].
    + split; [reflexivity |].
      split; [intros d; split; intros H; discriminate |].
      split; [split; intros _; eexists; reflexivity |].
      intros buf' H. discriminate.
Qed.

(** X12: on a real host, [camera:getSettings] never fails: it returns the
    configuration merged from the image, exposure and focus reads, a read
    that failed counting as empty, so that it answers with an empty
    configuration where [camera:connect] with the same reads would fail;
    and whenever [camera:connect] succeeds, its configuration is the one
    [camera:getSettings] returns for the same three reads. *)
Theorem getSettings_agrees_with_connect (toNumber : string -> Num.number) (ip : string)
    (deviceConf img exp foc : Settled string) (order : list Group) :
  isMock ip = false ->
  exists cfg,
    getSettings toNumber ip img exp foc = Success cfg
    /\ (forall c, connect toNumber ip deviceConf img exp foc order = Success c ->
                  config c = cfg)
    /\ (forall k, cfg !! k
                  = match parse toNumber (bodyOr foc) !! k with
                    | Some v => Some v
                    | None =>
                        match parse toNumber (bodyOr exp) !! k with
                        | Some v => Some v
                        | None => parse toNumber (bodyOr img) !! k
                        end
                    end)
    /\ (isResolved img = false -> isResolved exp = false -> isResolved foc = false ->
        cfg = ∅).
Proof.
  intros Hm. unfold getSettings, connect. rewrite Hm.
  eexists. split; [reflexivity |]. split; [| split].
  - intros c.
    destruct (negb (isResolved deviceConf || isResolved img || isResolved exp || isResolved foc));
      [discriminate |].
    intros H. injection H as <-. reflexivity.
  - intros k. unfold spread3. rewrite !lookup_union.
    destruct (parse toNumber (bodyOr foc) !! k), (parse toNumber (bodyOr exp) !! k),
      (parse toNumber (bodyOr img) !! k); reflexivity.
  - intros Hi He Hf. destruct img, exp, foc; try discriminate.
    unfold spread3. cbn [bodyOr]. rewrite !parse_empty.
    rewrite !(left_id_L ∅ (∪)). reflexivity.
Qed.

Lemma getSettings_agrees_with_connect_witness :
  isMock camera = false
  /\ getSettings (fun _ => Num.NaN) camera (Rejected (newError "a"))
       (Rejected (newError "b")) (Rejected (newError "c")) = Success ∅
  /\ connect (fun _ => Num.NaN) camera (Rejected (newError "d")) (Rejected (newError "a"))
       (Rejected (newError "b")) (Rejected (newError "c")) [] = Failure "Device config: d".
Proof.
  split; [reflexivity |].
  destruct (getSettings_agrees_with_connect (fun _ => Num.NaN) camera
              (Rejected (newError "d")) (Rejected (newError "a"))
              (Rejected (newError "b")) (Rejected (newError "c")) [] eq_refl)
    as (cfg & Hg & _ & _ & He).
  rewrite Hg, (He eq_refl eq_refl eq_refl). split; reflexivity.
Defined.

(** X13: on a real host, when the read of [camera:ptz] resolves, the
    handler reports success exactly when the body contains neither the
    digits 401 nor the word Unauthorized, anywhere; every other body, for
    instance a status text in which a position happens to contain 401, is
    reported as the authentication error. A rejected read is reported with
    its own message. *)
Theorem ptz_reply (b64 : string -> string) (w : World)
    (ip cmd s1 s2 : string) (auth : option Credential) :
  isMock ip = false ->
  match run (httpGet b64 ip (ptzPath cmd s1 s2) 4000 auth) w with
  | (Resolved response, w') =>
      snd (run (ptz b64 ip cmd s1 s2 auth) w) = w'
      /\ (fst (run (ptz b64 ip cmd s1 s2 auth) w) = Success tt
          <-> Js.includes response "401" = false
              /\ Js.includes response "Unauthorized" = false)
      /\ (fst (run (ptz b64 ip cmd s1 s2 auth) w)
          = Failure "Authentication required for PTZ control"
          <-> Js.includes response "401" = true
              \/ Js.includes response "Unauthorized" = true)
  | (Rejected err, w') =>
      run (ptz b64 ip cmd s1 s2 auth) w = (Failure (errMessage err), w')
  end.
Proof.
  intros Hm. unfold ptz. rewrite Hm. unfold run, mbind, M_bind, mret, M_ret.
  destruct (httpGet b64 ip (ptzPath cmd s1 s2) 4000 auth w) as [[response | err] w'];
    [| reflexivity].
  destruct (Js.includes response "401"), (Js.includes response "Unauthorized");
    cbn [orb fst snd]; (split; [reflexivity |]); split; split;
    try discriminate; try reflexivity; try tauto;
    try (intros [H _]; discriminate); try (intros [_ H]; discriminate);
    try (intros [H | H]; discriminate); try (intros _; split; reflexivity).
Qed.

Lemma ptz_reply_witness :
  isMock camera = false
  /\ run (ptz (fun s => s) camera "left" "5" "5" None)
       (emptyWorld (fun _ _ => Responded (mkResponse 200 None [] "pan=14010")))
     = (Failure "Authentication required for PTZ control",
        snd (run (httpGet (fun s => s) camera (ptzPath "left" "5" "5") 4000 None)
               (emptyWorld (fun _ _ => Responded (mkResponse 200 None [] "pan=14010"))))).
Proof.
  split; [reflexivity |].
  pose proof (ptz_reply (fun s => s)
                (emptyWorld (fun _ _ => Responded (mkResponse 200 None [] "pan=14010")))
                camera "left" "5" "5" None eq_refl) as H.
  destruct (run (httpGet (fun s => s) camera (ptzPath "left" "5" "5") 4000 None)
              (emptyWorld (fun _ _ => Responded (mkResponse 200 None [] "pan=14010"))))
    as [[response | err] w'] eqn:E.
  - destruct H as (Hw & _ & Hf).
    assert (Hr : response = "pan=14010") by (vm_compute in E; congruence).
    subst response.
    destruct (run (ptz (fun s => s) camera "left" "5" "5" None) _) as [r w1].
    cbn [fst snd] in *. subst w1. f_equal. apply Hf. left. reflexivity.
  - vm_compute in E. discriminate.
Defined.

(* ------------------------------------------------------------------ *)
(** ** Further properties of the UDP channel *)
(* ------------------------------------------------------------------ *)

Lemma existsb_eqb_In (a : string) (l : list string) :
  existsb (String.eqb a) l = true <-> In a l.
Proof.
  rewrite existsb_exists. split.
  - intros (x & Hx & He). apply String.eqb_eq in He. subst x. exact Hx.
  - intros H. exists a. split; [exact H | apply String.eqb_refl].
Qed.

Lemma NoDup_snoc (a : string) (l : list string) :
  List.NoDup l -> ~ In a l -> List.NoDup (l ++ [a]).
Proof.
  induction 1 as [| x l Hx Hl IH]; intros Ha.
  - constructor; [intros [] | constructor].
  - cbn [app]. constructor.
    + rewrite in_app_iff. intros [H | [H | []]]; [exact (Hx H) |].
      apply Ha. left. symmetry. exact H.
    + apply IH. intros H. apply Ha. right. exact H.
Qed.

(** While the socket is open and reports no error, the list of cameras
    grows by the new addresses only. *)
Lemma collecting (events : list SocketEvent) :
  forall d0,
    forallb (fun e => negb (isSocketError e)) events = true ->
    isOpen (client d0) = true ->
    let d1 := fold_left onSocketEvent events d0 in
    client d1 = client d0
    /\ resolved d1 = resolved d0
    /\ (List.NoDup (found d0) -> List.NoDup (found d1))
    /\ (forall a, In a (found d1) <-> In a (found d0) \/ In (Message a) events).
Proof.
  induction events as [| e events IH]; intros d0 Hq Ho.
  - cbn. repeat split; tauto.
  - cbn [forallb] in Hq. apply andb_prop in Hq as [He Hq]. cbn [fold_left].
    destruct e as [| address |]; [| | discriminate]; cbn [onSocketEvent]; rewrite Ho.
    + destruct (IH (mkDiscovery (client d0) (found d0) (probes d0 ++ [1259; 5678])
                      (resolved d0)) Hq Ho) as (Hc & Hr & Hn & Hi).
      cbn [client resolved found] in *.
      split; [exact Hc |]. split; [exact Hr |]. split; [exact Hn |].
      intros a. rewrite Hi. cbn [In]. split; [tauto |].
      intros [H | [H | H]]; [tauto | discriminate | tauto].
    + destruct (existsb (String.eqb address) (found d0)) eqn:Hex.
      * destruct (IH d0 Hq Ho) as (Hc & Hr & Hn & Hi).
        split; [exact Hc |]. split; [exact Hr |]. split; [exact Hn |].
        intros a. rewrite Hi. cbn [In]. split; [tauto |].
        intros [H | [H | H]]; [tauto | | tauto].
        injection H as ->. left. apply existsb_eqb_In. exact Hex.
      * destruct (IH (mkDiscovery (client d0) (found d0 ++ [address]) (probes d0)
                        (resolved d0)) Hq Ho) as (Hc & Hr & Hn & Hi).
        cbn [client resolved found] in *.
        assert (Hnot : ~ In address (found d0)).
        { intros H. apply existsb_eqb_In in H. congruence. }
        split; [exact Hc |]. split; [exact Hr |].
        split; [intros Hd; apply Hn, NoDup_snoc; assumption |].
        intros a. rewrite Hi, in_app_iff. cbn [In]. split.
        -- intros [[H | [H | []]] | H]; [tauto | subst a; tauto | tauto].
        -- intros [H | [H | H]]; [tauto | injection H as ->; tauto | tauto].
Qed.

(** Once the socket is closed and the promise settled, nothing that is
    delivered changes the answer. *)
Lemma settled_stays (events : list SocketEvent) :
  forall d0 r,
    isOpen (client d0) = false -> resolved d0 = Some r ->
    let d1 := fold_left onSocketEvent events d0 in
    isOpen (client d1) = false /\ resolved d1 = Some r /\ found d1 = found d0.
Proof.
  induction events as [| e events IH]; intros d0 r Ho Hr; [repeat split; assumption |].
  cbn [fold_left].
  destruct e as [| address |]; cbn [onSocketEvent]; rewrite ?Ho.
  - apply IH; assumption.
  - apply IH; assumption.
  - unfold closeAndResolve, close. rewrite Ho.
    destruct (IH (mkDiscovery (mkSocket false (S (closeCalls (client d0)))
                                 (S (thrown (client d0))))
                    (found d0) (probes d0) (resolved d0)) r eq_refl Hr)
      as (H1 & H2 & H3).
    repeat split; assumption.
Qed.

Lemma beforeError_split (events : list SocketEvent) :
  forallb (fun e => negb (isSocketError e)) (beforeError events) = true
  /\ (events = beforeError events
      \/ exists rest, events = beforeError events ++ SocketError :: rest).
Proof.
  induction events as [| e events (Hq & IH)]; [split; [reflexivity | left; reflexivity] |].
  destruct e as [| address |]; cbn [beforeError forallb isSocketError negb andb].
  - split; [exact Hq |].
    destruct IH as [IH | (rest & IH)]; [left | right; exists rest];
      cbn [app]; f_equal; exact IH.
  - split; [exact Hq |].
    destruct IH as [IH | (rest & IH)]; [left | right; exists rest];
      cbn [app]; f_equal; exact IH.
  - split; [reflexivity |]. right. exists events. reflexivity.
Qed.

(** X14: whatever is delivered and in whatever order, [camera:discover]
    settles with the addresses of the datagrams received before the window
    expired or the socket first reported an error, each address exactly
    once however often it answered; a datagram that arrives later is not
    added, and the socket ends closed. *)
Theorem discover_collects_each_address_once (before after : list SocketEvent) :
  let d := discover before after in
  exists r,
    resolved d = Some r
    /\ found d = r
    /\ List.NoDup r
    /\ (forall a, In a r <-> In (Message a) (beforeError before))
    /\ isOpen (client d) = false.
Proof.
  intros d.
  destruct (beforeError_split before) as (Hq & Hsplit).
  destruct (collecting (beforeError before) startDiscovery Hq eq_refl)
    as (Hc & Hr & Hn & Hi).
  cbv zeta in Hc, Hr, Hn, Hi.
  set (d1 := fold_left onSocketEvent (beforeError before) startDiscovery) in *.
  assert (Hclose : isOpen (client (closeAndResolve d1)) = false
                   /\ resolved (closeAndResolve d1) = Some (found d1)
                   /\ found (closeAndResolve d1) = found d1).
  { unfold closeAndResolve, close. rewrite Hc. cbn. rewrite Hr. repeat split. }
  destruct Hclose as (K1 & K2 & K3).
  assert (Hend : isOpen (client d) = false /\ resolved d = Some (found d1)
                 /\ found d = found d1).
  { unfold d, discover. destruct Hsplit as [Hs | (rest & Hs)].
    - rewrite Hs. fold d1. unfold onWindowExpiry.
      destruct (settled_stays after (closeAndResolve d1) (found d1) K1 K2) as (A & B & C).
      repeat split; congruence.
    - rewrite Hs, fold_left_app. fold d1. cbn [fold_left onSocketEvent].
      destruct (settled_stays rest (closeAndResolve d1) (found d1) K1 K2) as (A & B & C).
      cbv zeta in A, B, C.
      set (d2 := fold_left onSocketEvent rest (closeAndResolve d1)) in *.
      assert (Hexp : isOpen (client (onWindowExpiry d2)) = false
                     /\ resolved (onWindowExpiry d2) = Some (found d1)
                     /\ found (onWindowExpiry d2) = found d2).
      { unfold onWindowExpiry, closeAndResolve, close. rewrite A. cbn.
        repeat split. exact B. }
      destruct Hexp as (E1 & E2 & E3).
      destruct (settled_stays after (onWindowExpiry d2) (found d1) E1 E2) as (F1 & F2 & F3).
      repeat split; congruence. }
  destruct Hend as (Z1 & Z2 & Z3).
  exists (found d1). split; [exact Z2 |]. split; [exact Z3 |].
  split; [apply Hn; constructor |].
  split; [| exact Z1].
  intros a. rewrite Hi. cbn. tauto.
Qed.



(* ------------------------------------------------------------------ *)
(** ** Further properties of the configuration parser *)
(* ------------------------------------------------------------------ *)

Section ParserProperties.

Variable toNumber : string -> Num.number.

Lemma lines_nonempty (raw : string) : lines raw <> [].
Proof.
  destruct raw as [|c raw]; [discriminate |].
  cbn [lines]. destruct (isNewline c); [discriminate |].
  destruct (lines raw); discriminate.
Qed.

Lemma lines_app_newline (a b : string) (c : ascii) :
  isNewline c = true -> lines (a +:+ String c b) = lines a ++ lines b.
Proof.
  intros Hc. induction a as [|x a IH].
  - rewrite append_nil_l. cbn [lines]. rewrite Hc. reflexivity.
  - rewrite append_cons. cbn [lines]. rewrite IH.
    destruct (isNewline x); [reflexivity |].
    pose proof (lines_nonempty a) as Hne.
    destruct (lines a) as [|h tl]; [contradiction | reflexivity].
Qed.

Lemma parseLine_union (r : Config) (line : string) :
  parseLine toNumber r line = parseLine toNumber ∅ line ∪ r.
Proof.
  unfold parseLine.
  destruct (cutAtEq line) as [[[|c k0] v0]|];
    try (rewrite (left_id_L ∅ (∪)); reflexivity).
  destruct (String.eqb (Js.trim (String c k0)) "__proto__");
    [rewrite (left_id_L ∅ (∪)); reflexivity |].
  rewrite <- insert_union_l, (left_id_L ∅ (∪)). reflexivity.
Qed.

Lemma fold_parseLine_union (l : list string) :
  forall r : Config,
    fold_left (parseLine toNumber) l r = fold_left (parseLine toNumber) l ∅ ∪ r.
Proof.
  induction l as [|x l IH]; intros r;
    [cbn [fold_left]; rewrite (left_id_L ∅ (∪)); reflexivity |].
  cbn [fold_left]. rewrite (IH (parseLine toNumber r x)), (IH (parseLine toNumber ∅ x)).
  rewrite (parseLine_union r x). apply (assoc_L (∪)).
Qed.

(** X16: parsing two texts joined by a line break gives the parameters of
    both, the second text winning on a name they share: later lines
    overwrite earlier ones, and nothing else of the first text is lost.
    The line break may be a line feed or a carriage return and line feed. *)
Theorem parse_concatenation (a b : string) :
  parse toNumber (a +:+ LF +:+ b) = parse toNumber b ∪ parse toNumber a
  /\ parse toNumber (a +:+ CRLF +:+ b) = parse toNumber b ∪ parse toNumber a
  /\ (forall k, parse toNumber (a +:+ LF +:+ b) !! k
                = match parse toNumber b !! k with
                  | Some v => Some v
                  | None => parse toNumber a !! k
                  end).
Proof.
  assert (H1 : parse toNumber (a +:+ LF +:+ b) = parse toNumber b ∪ parse toNumber a).
  { unfold parse, LF. rewrite append_cons, append_nil_l.
    rewrite lines_app_newline by reflexivity.
    rewrite fold_left_app. apply fold_parseLine_union. }
  split; [exact H1 |]. split.
  - unfold parse, CRLF, LF. rewrite !append_cons, append_nil_l.
    rewrite lines_app_newline by reflexivity.
    cbn [lines isNewline]. change (isNewline (ascii_of_nat 10)) with true. cbv iota.
    rewrite fold_left_app. cbn [fold_left].
    change (parseLine toNumber (fold_left (parseLine toNumber) (lines a) ∅) EmptyString)
      with (fold_left (parseLine toNumber) (lines a) ∅).
    apply fold_parseLine_union.
  - intros k. rewrite H1, lookup_union.
    destruct (parse toNumber b !! k), (parse toNumber a !! k); reflexivity.
Qed.

Lemma includes_equals (s : string) : Js.includes s "=" = false -> noEquals s = true.
Proof.
  induction s as [|c s IH]; [reflexivity |].
  cbn [Js.includes String.prefix]. intros H. apply orb_false_elim in H as [Hp Hi].
  cbn [noEquals allChars]. fold (noEquals s). rewrite (IH Hi), andb_true_r.
  destruct (Ascii.eqb_spec c "="%char) as [-> | Hne]; [| reflexivity].
  destruct (ascii_dec "="%char "="%char) as [_ | Hn]; [| contradiction Hn; reflexivity].
  destruct s; discriminate.
Qed.

Lemma noEquals_cut (line : string) : noEquals line = true -> cutAtEq line = None.
Proof.
  induction line as [|c line IH]; [reflexivity |].
  cbn [noEquals allChars]. intros H. apply andb_prop in H as [Hc Hl].
  cbn [cutAtEq]. apply negb_true_iff in Hc. rewrite Hc.
  rewrite (IH Hl). reflexivity.
Qed.

Lemma noEquals_lines (raw : string) :
  noEquals raw = true -> Forall (fun line => noEquals line = true) (lines raw).
Proof.
  induction raw as [|c raw IH]; [intros _; repeat constructor |].
  cbn [noEquals allChars]. intros H. apply andb_prop in H as [Hc Hl].
  specialize (IH Hl). cbn [lines].
  destruct (isNewline c); [constructor; [reflexivity | exact IH] |].
  destruct (lines raw) as [|h tl]; [repeat constructor; cbn; rewrite Hc; reflexivity |].
  inversion IH as [| ? ? Hh Htl]; subst.
  constructor; [| exact Htl].
  cbn [noEquals allChars]. rewrite Hc. exact Hh.
Qed.

(** X17: a body in which no equals sign occurs, such as an empty body or a
    plain error text, parses to the empty configuration: lines without a
    name are skipped, never stored under an empty or made-up name. *)
Theorem parse_without_equals (raw : string) :
  Js.includes raw "=" = false -> parse toNumber raw = ∅.
Proof.
  intros H. apply includes_equals, noEquals_lines in H.
  unfold parse. induction H as [| line l Hline _ IH]; [reflexivity |].
  cbn [fold_left]. unfold parseLine at 2. rewrite (noEquals_cut line Hline). exact IH.
Qed.

End ParserProperties.

Lemma parse_without_equals_witness :
  Js.includes "401 Unauthorized" "=" = false
  /\ parse (fun _ => Num.NaN) "401 Unauthorized" = ∅.
Proof.
  split; [reflexivity |].
  apply (parse_without_equals (fun _ => Num.NaN) "401 Unauthorized"). reflexivity.
Defined.

(* ------------------------------------------------------------------ *)
(** ** Reading back a written challenge *)
(* ------------------------------------------------------------------ *)

Lemma readFrom_match (s k v rest : string) (m : Challenge) :
  Regex.matchParam s = Some (k, v, rest) ->
  parseAuthParamsFrom (String.length s) s m
  = parseAuthParamsFrom (String.length rest) rest (setParam k v m).
Proof.
  intros H. pose proof (matchParam_shorter s k v rest H) as Hlen.
  destruct s as [|c s]; [cbn in Hlen; lia |].
  cbn [String.length parseAuthParamsFrom]. rewrite H.
  apply parseAuthParams_fuel. cbn [String.length] in Hlen. lia.
Qed.

Lemma readFrom_skip (c : ascii) (s : string) (m : Challenge) :
  Regex.matchParam (String c s) = None ->
  parseAuthParamsFrom (String.length (String c s)) (String c s) m
  = parseAuthParamsFrom (String.length s) s m.
Proof.
  intros H. cbn [String.length parseAuthParamsFrom]. rewrite H. reflexivity.
Qed.

Lemma span_all (p : ascii -> bool) (k r : string) :
  allChars p k = true ->
  match r with EmptyString => True | String c _ => p c = false end ->
  Regex.span p (k +:+ r) = (k, r).
Proof.
  intros Hk Hr. induction k as [|x k IH].
  - rewrite append_nil_l. destruct r as [|c r]; [reflexivity |].
    cbn [Regex.span]. rewrite Hr. reflexivity.
  - cbn [allChars] in Hk. apply andb_prop in Hk as [Hx Hk].
    rewrite append_cons. cbn [Regex.span]. rewrite Hx, (IH Hk). reflexivity.
Qed.

Lemma matchParam_nonword (c : ascii) (s : string) :
  Regex.isWord c = false -> Regex.matchParam (String c s) = None.
Proof.
  intros H. unfold Regex.matchParam. cbn [Regex.span]. rewrite H. reflexivity.
Qed.

Lemma renderParam_app (k v rest : string) :
  renderParam (k, v) +:+ rest
  = k +:+ String "="%char (String (ascii_of_nat 34) (v +:+ String (ascii_of_nat 34) rest)).
Proof.
  unfold renderParam, quotedText, Js.dquote. cbn [fst snd].
  rewrite !append_assoc, !append_cons, !append_nil_l. reflexivity.
Qed.

Lemma matchParam_rendered (k v rest : string) :
  allChars Regex.isWord k = true -> Js.truthy k = true -> isQuotable v = true ->
  Regex.matchParam (renderParam (k, v) +:+ rest) = Some (k, v, rest).
Proof.
  intros Hk Hne Hv. rewrite renderParam_app. unfold Regex.matchParam.
  rewrite (span_all Regex.isWord k _ Hk) by reflexivity.
  destruct k as [|x k]; [discriminate |].
  change (Ascii.eqb "="%char "="%char) with true. cbv iota.
  unfold Regex.quoted. change (Regex.isQuote (ascii_of_nat 34)) with true. cbv iota.
  rewrite (span_all (fun x => negb (Regex.isQuote x)) v _ Hv) by reflexivity.
  reflexivity.
Qed.

Lemma readFrom_param (k v rest : string) (m : Challenge) :
  isParamName k = true -> isQuotable v = true ->
  parseAuthParamsFrom (String.length (renderParam (k, v) +:+ rest))
    (renderParam (k, v) +:+ rest) m
  = parseAuthParamsFrom (String.length rest) rest (<[k := v]> m).
Proof.
  unfold isParamName. intros Hk Hv.
  apply andb_prop in Hk as [Hk Hproto]. apply andb_prop in Hk as [Hk Hne].
  rewrite (readFrom_match _ k v rest m (matchParam_rendered k v rest Hk Hne Hv)).
  unfold setParam. apply negb_true_iff in Hproto. rewrite Hproto. reflexivity.
Qed.

Lemma readFrom_separator (s : string) (m : Challenge) :
  parseAuthParamsFrom (String.length (", " +:+ s)) (", " +:+ s) m
  = parseAuthParamsFrom (String.length s) s m.
Proof.
  change (", " +:+ s) with (String ","%char (String " "%char s)).
  rewrite readFrom_skip by (apply matchParam_nonword; reflexivity).
  apply readFrom_skip, matchParam_nonword. reflexivity.
Qed.

Lemma readFrom_scheme (schemeName s : string) (m : Challenge) :
  allChars Regex.isWord schemeName = true ->
  parseAuthParamsFrom (String.length (schemeName +:+ String " "%char s))
    (schemeName +:+ String " "%char s) m
  = parseAuthParamsFrom (String.length s) s m.
Proof.
  induction schemeName as [|x sc IH]; intros Hw.
  - rewrite append_nil_l. apply readFrom_skip, matchParam_nonword. reflexivity.
  - assert (Hnone : Regex.matchParam (String x sc +:+ String " "%char s) = None).
    { unfold Regex.matchParam. rewrite (span_all Regex.isWord _ _ Hw) by reflexivity.
      reflexivity. }
    rewrite append_cons in Hnone |- *. rewrite (readFrom_skip _ _ _ Hnone).
    apply IH. cbn [allChars] in Hw. apply andb_prop in Hw as [_ Hw]. exact Hw.
Qed.

Lemma readFrom_params (params : list (string * string)) :
  forall m : Challenge,
    Forall (fun kv => isParamName (fst kv) = true /\ isQuotable (snd kv) = true) params ->
    parseAuthParamsFrom (String.length (Js.join ", " (map renderParam params)))
      (Js.join ", " (map renderParam params)) m
    = fold_left (fun r kv => <[fst kv := snd kv]> r) params m.
Proof.
  induction params as [|[k v] l IH]; intros m Hok; [reflexivity |].
  inversion Hok as [| ? ? [Hk Hv] Hl]; subst. cbn [fst snd] in Hk, Hv.
  destruct l as [|kv' l'].
  - change (Js.join ", " (map renderParam [(k, v)])) with (renderParam (k, v)).
    rewrite <- (append_nil_r (renderParam (k, v))).
    rewrite (readFrom_param k v EmptyString m Hk Hv). reflexivity.
  - change (Js.join ", " (map renderParam ((k, v) :: kv' :: l')))
      with (renderParam (k, v) +:+ ", " +:+ Js.join ", " (map renderParam (kv' :: l'))).
    rewrite (readFrom_param k v _ m Hk Hv), readFrom_separator.
    rewrite (IH _ Hl). reflexivity.
Qed.

(** X18: a challenge written the usual way, a scheme word, a blank and
    quoted parameters separated by a comma and a blank, is read back
    exactly: every parameter is stored under its name with the text between
    its quotes, whatever that text holds besides a quote (blanks, commas,
    equals signs); of two parameters with one name the later one stays;
    the scheme word is not stored. *)
Theorem parseAuthParams_reads_written_challenge
    (schemeName : string) (params : list (string * string)) :
  allChars Regex.isWord schemeName = true ->
  Forall (fun kv => isParamName (fst kv) = true /\ isQuotable (snd kv) = true) params ->
  parseAuthParams (renderChallenge schemeName params) = paramsObject params.
Proof.
  intros Hs Hok. unfold parseAuthParams, renderChallenge, paramsObject.
  change (schemeName +:+ " " +:+ Js.join ", " (map renderParam params))
    with (schemeName +:+ String " "%char (Js.join ", " (map renderParam params))).
  rewrite (readFrom_scheme _ _ _ Hs). apply readFrom_params. exact Hok.
Qed.

Lemma parseAuthParams_reads_written_challenge_witness :
  parseAuthParams
    (renderChallenge "Digest"
       [("realm", "IP Camera, unit=2"); ("nonce", "5f1c"); ("qop", "auth"); ("nonce", "77aa")])
  = paramsObject
      [("realm", "IP Camera, unit=2"); ("nonce", "5f1c"); ("qop", "auth"); ("nonce", "77aa")].
Proof.
  apply (parseAuthParams_reads_written_challenge "Digest"
           [("realm", "IP Camera, unit=2"); ("nonce", "5f1c"); ("qop", "auth"); ("nonce", "77aa")]).
  - reflexivity.
  - repeat constructor.
Defined.

(* ------------------------------------------------------------------ *)
(** ** The Basic header and the credentials *)
(* ------------------------------------------------------------------ *)

Lemma bytes_inj (a b : string) : Js.bytes a = Js.bytes b -> a = b.
Proof.
  revert b. induction a as [|x a IH]; intros [|y b] H; try discriminate; [reflexivity |].
  cbn [Js.bytes] in H. injection H as Hc Hr. f_equal; [| exact (IH b Hr)].
  unfold Js.code in Hc. apply N2Z.inj in Hc.
  rewrite <- (ascii_N_embedding x), <- (ascii_N_embedding y), Hc. reflexivity.
Qed.

Lemma includes_char (c x : ascii) (s : string) :
  Js.includes (String x s) (String c EmptyString) = false ->
  x <> c /\ Js.includes s (String c EmptyString) = false.
Proof.
  cbn [Js.includes String.prefix]. intros H. apply orb_false_elim in H as [Hp Hi].
  split; [| exact Hi]. intros ->.
  destruct (ascii_dec c c) as [_ | Hn]; [| contradiction Hn; reflexivity].
  destruct s; discriminate.
Qed.

Lemma cut_at_first (c : ascii) (u : string) :
  forall (p u' p' : string),
    Js.includes u (String c EmptyString) = false ->
    Js.includes u' (String c EmptyString) = false ->
    u +:+ String c p = u' +:+ String c p' ->
    u = u' /\ p = p'.
Proof.
  induction u as [|x u IH]; intros p [|y u'] p' Hu Hu' H.
  - rewrite !append_nil_l in H. injection H as ->. split; reflexivity.
  - rewrite append_nil_l, append_cons in H. injection H as Hc _.
    apply includes_char in Hu' as [Hy _]. congruence.
  - rewrite append_nil_l, append_cons in H. injection H as Hc _.
    apply includes_char in Hu as [Hx _]. congruence.
  - rewrite !append_cons in H. injection H as -> H.
    apply includes_char in Hu as [_ Hu]. apply includes_char in Hu' as [_ Hu'].
    destruct (IH p u' p' Hu Hu' H) as [-> ->]. split; reflexivity.
Qed.

(** X19: the Basic header can be read back. What follows the word Basic
    decodes, as Base64, to the bytes of the user name, a colon and the
    password; so two credentials whose user names hold no colon get the
    same header only when they are the same credentials. *)
Theorem buildBasicAuth_determines_credentials (user pass user' pass' : string) :
  Js.includes user ":" = false ->
  Js.includes user' ":" = false ->
  (exists payload,
      headerValue (buildBasicAuth user pass) = "Basic " +:+ payload
      /\ Base64.decode payload = Some (Js.bytes (user +:+ ":" +:+ pass)))
  /\ (buildBasicAuth user pass = buildBasicAuth user' pass' ->
      user = user' /\ pass = pass').
Proof.
  intros Hu Hu'. split.
  - exists (Base64.encode (Js.bytes (user +:+ ":" +:+ pass))). split; [reflexivity |].
    apply decode_encode, bytes_are_bytes.
  - intros H. apply (f_equal headerValue) in H. unfold buildBasicAuth in H.
    cbn [headerValue] in H. rewrite !append_cons, !append_nil_l in H.
    injection H as H. apply (f_equal Base64.decode) in H.
    rewrite !decode_encode in H by apply bytes_are_bytes.
    injection H as H. apply bytes_inj in H.
    exact (cut_at_first ":"%char user pass user' pass' Hu Hu' H).
Qed.

Lemma buildBasicAuth_determines_credentials_witness :
  (exists payload,
      headerValue (buildBasicAuth "admin" "s3cret") = "Basic " +:+ payload
      /\ Base64.decode payload = Some (Js.bytes ("admin" +:+ ":" +:+ "s3cret")))
  /\ (buildBasicAuth "admin" "s3cret" = buildBasicAuth "admin" "s3cret" ->
      "admin" = "admin" /\ "s3cret" = "s3cret").
Proof.
  apply (buildBasicAuth_determines_credentials "admin" "s3cret" "admin" "s3cret");
    reflexivity.
Defined.

(* ------------------------------------------------------------------ *)
(** ** What a Digest header depends on *)
(* ------------------------------------------------------------------ *)

Lemma digest_response_plain (rnd : list Z) (method uri user pass : string) (ch : Challenge) :
  Js.present (Digest.qop ch) = false ->
  Digest.isSess ch = false ->
  Digest.response rnd method uri user pass ch
  = Digest.hash ch
      (Digest.hash ch (user +:+ ":" +:+ Js.tmpl (ch !! "realm") +:+ ":" +:+ pass)
       +:+ ":" +:+ Js.tmpl (ch !! "nonce") +:+ ":" +:+ Digest.ha2 method uri ch).
Proof.
  intros Hq Hs. unfold Digest.response. rewrite Hq, (digest_ha1_plain _ _ _ _ Hs).
  reflexivity.
Qed.

(** X20: for a challenge without a quality of protection and without a
    session algorithm, the header [buildDigestAuth] writes does not depend
    on the random bytes drawn for it: the same request gets the same header
    each time, and the header has no [cnonce] field. *)
Theorem buildDigestAuth_without_qop_is_repeatable
    (rnd rnd' : list Z) (method uri user pass : string) (ch : Challenge) :
  Js.present (Digest.qop ch) = false ->
  Digest.isSess ch = false ->
  buildDigestAuth rnd method uri user pass ch = buildDigestAuth rnd' method uri user pass ch
  /\ hasField "cnonce" (digestFields rnd method uri user pass ch) = false.
Proof.
  intros Hq Hs. split.
  - unfold buildDigestAuth. rewrite Hq, !(digest_response_plain _ _ _ _ _ _ Hq Hs).
    reflexivity.
  - destruct (hasField_digest rnd method uri user pass ch) as (_ & _ & Hc & _).
    rewrite Hc. exact Hq.
Qed.

Lemma buildDigestAuth_without_qop_is_repeatable_witness :
  buildDigestAuth sampleRnd "GET" "/cgi-bin/param.cgi?get_device_conf" "admin" "admin"
    {[ "realm" := "camera"; "nonce" := "5f1c" ]}
  = buildDigestAuth [] "GET" "/cgi-bin/param.cgi?get_device_conf" "admin" "admin"
      {[ "realm" := "camera"; "nonce" := "5f1c" ]}
  /\ hasField "cnonce"
       (digestFields sampleRnd "GET" "/cgi-bin/param.cgi?get_device_conf" "admin" "admin"
          {[ "realm" := "camera"; "nonce" := "5f1c" ]}) = false.
Proof.
  apply (buildDigestAuth_without_qop_is_repeatable sampleRnd [] "GET"
           "/cgi-bin/param.cgi?get_device_conf" "admin" "admin"
           {[ "realm" := "camera"; "nonce" := "5f1c" ]});
    vm_compute; reflexivity.
Defined.

(** X21: an algorithm the code does not know, one whose name in upper case
    neither starts with SHA-256 nor is MD5-SESS, is answered with the MD5
    response of a challenge that names no algorithm, while the header still
    announces the unknown algorithm, in upper case. *)
Theorem buildDigestAuth_unknown_algorithm
    (rnd : list Z) (method uri user pass : string) (ch : Challenge) :
  Js.startsWith (Digest.algo ch) "SHA-256" = false ->
  Digest.isSess ch = false ->
  Digest.response rnd method uri user pass ch
  = Digest.response rnd method uri user pass (delete "algorithm" ch)
  /\ Digest.hash ch = Crypto.md5
  /\ In (mkField "algorithm" (Js.toUpperCase (Js.orElse (ch !! "algorithm") "MD5")))
        (digestFields rnd method uri user pass ch).
Proof.
  intros Hsha Hs.
  assert (Hh : Digest.hash ch = Crypto.md5) by (unfold Digest.hash; rewrite Hsha; reflexivity).
  assert (Ha : Digest.algo (delete "algorithm" ch) = "MD5").
  { unfold Digest.algo. rewrite lookup_delete_eq. reflexivity. }
  assert (Hh' : Digest.hash (delete "algorithm" ch) = Crypto.md5)
    by (unfold Digest.hash; rewrite Ha; reflexivity).
  assert (Hs' : Digest.isSess (delete "algorithm" ch) = false)
    by (unfold Digest.isSess; rewrite Ha; reflexivity).
  assert (Hq : Digest.qop (delete "algorithm" ch) = Digest.qop ch)
    by (unfold Digest.qop; rewrite lookup_delete_ne by discriminate; reflexivity).
  split; [| split; [exact Hh |]].
  - unfold Digest.response.
    rewrite Hq, !(digest_ha1_plain _ _ _ _ Hs), !(digest_ha1_plain _ _ _ _ Hs').
    unfold Digest.ha2. rewrite Hh, Hh'.
    rewrite !lookup_delete_ne by discriminate. reflexivity.
  - unfold digestFields, Digest.algo. cbn [app In]. tauto.
Qed.

Lemma buildDigestAuth_unknown_algorithm_witness :
  Digest.response sampleRnd "GET" "/x" "admin" "admin"
    {[ "algorithm" := "sha-512"; "realm" := "camera"; "nonce" := "5f1c" ]}
  = Digest.response sampleRnd "GET" "/x" "admin" "admin"
      (delete "algorithm" {[ "algorithm" := "sha-512"; "realm" := "camera"; "nonce" := "5f1c" ]})
  /\ Digest.hash {[ "algorithm" := "sha-512"; "realm" := "camera"; "nonce" := "5f1c" ]}
     = Crypto.md5
  /\ In (mkField "algorithm"
           (Js.toUpperCase
              (Js.orElse (({[ "algorithm" := "sha-512"; "realm" := "camera";
                              "nonce" := "5f1c" ]} : Challenge) !! "algorithm") "MD5")))
        (digestFields sampleRnd "GET" "/x" "admin" "admin"
           {[ "algorithm" := "sha-512"; "realm" := "camera"; "nonce" := "5f1c" ]}).
Proof.
  apply (buildDigestAuth_unknown_algorithm sampleRnd "GET" "/x" "admin" "admin"
           {[ "algorithm" := "sha-512"; "realm" := "camera"; "nonce" := "5f1c" ]});
    vm_compute; reflexivity.
Defined.

(* ------------------------------------------------------------------ *)
(** ** A negotiation and the requests after it *)
(* ------------------------------------------------------------------ *)

Lemma afterSend_afterHeaders (w : World) (rq : Request) (path : string)
    (cred : Credential) (entry : CachedAuth) :
  let w' := afterSend rq (afterHeaders w path cred entry) in
  authCache w' = authCache w /\ network w' = network w /\ sent w' = sent w ++ [rq].
Proof.
  pose proof (retryHeaders_frame (scheme entry) path cred (challenge entry)
                (cookie entry) w) as (Fc & Fn & Fs).
  unfold afterSend, afterHeaders. mstep. rewrite Fc, Fn, Fs. repeat split.
Qed.

(** X22: a negotiation is paid once. When a GET to a host without a cache
    entry is challenged, the scheme is recognised and the authenticated
    retry is accepted, the GET costs two requests and leaves the entry of
    the host behind; the next GET to that host, for any path, then costs a
    single request, which already carries the credentials of the cached
    scheme, and when it is answered with anything but a 401 it ends there
    and the entry stays. *)
Theorem negotiation_is_paid_once (b64 : string -> string) (w : World)
    (ip path path' : string) (t t' : Z) (auth : option Credential)
    (cred : Credential) (entry : CachedAuth) (res1 res2 res3 : Response) :
  let rq1 := plainRequest ip path t in
  let rq2 := authRequest (afterSend rq1 w) ip path t cred entry in
  let first := run (authGet b64 ip path t auth) w in
  let rq3 := authRequest (snd first) ip path' t' cred entry in
  let second := run (authGet b64 ip path' t' auth) (snd first) in
  authCache w !! ip = None ->
  usable auth = Some cred ->
  network w (sent w) rq1 = Responded res1 ->
  statusCode res1 = 401 ->
  freshEntry b64 res1 = Some entry ->
  network w (sent w ++ [rq1]) rq2 = Responded res2 ->
  statusCode res2 <> 401 ->
  network w (sent w ++ [rq1; rq2]) rq3 = Responded res3 ->
  statusCode res3 <> 401 ->
  fst first = inr res2
  /\ sent (snd first) = sent w ++ [rq1; rq2]
  /\ authCache (snd first) = <[ip := entry]> (authCache w)
  /\ fst second = inr res3
  /\ sent (snd second) = sent w ++ [rq1; rq2; rq3]
  /\ authCache (snd second) = authCache (snd first).
Proof.
  intros rq1 rq2 first rq3 second Hnone Hcred H1 Hs1 Hentry H2 Hs2 H3 Hs3.
  assert (Hfirst : first = run (authGetFresh b64 ip path t auth) w)
    by (apply authGet_uncached; left; exact Hnone).
  pose proof (authGetFresh_cases b64 ip path t auth w) as Hcases.
  cbv zeta in Hcases. rewrite <- Hfirst in Hcases. fold rq1 in Hcases.
  destruct Hcases as
    [Hnet [(_ & _ & [(res & Ho & _ & [Hne | Hu])
                    | [(res & Ho & _ & _ & Hf & _) | (Hno & _)]])
          | (res & cred0 & entry0 & Ho & _ & Hu & Hf & Hsent & Hend)]].
  - rewrite H1 in Ho. injection Ho as <-. contradiction.
  - rewrite Hcred in Hu. discriminate.
  - rewrite H1 in Ho. injection Ho as <-. rewrite Hentry in Hf. discriminate.
  - exfalso. exact (Hno res1 H1).
  - rewrite H1 in Ho. injection Ho as <-.
    rewrite Hcred in Hu. injection Hu as <-.
    rewrite Hentry in Hf. injection Hf as <-.
    fold rq2 in Hsent, Hend.
    destruct Hend as [(res2' & Ho2 & Hs2' & _)
                     | [(res2' & Ho2 & _ & Hr & Ha) | (Hno & _)]].
    + rewrite H2 in Ho2. injection Ho2 as <-. contradiction.
    + rewrite H2 in Ho2. injection Ho2 as <-.
      assert (Hlook : authCache (snd first) !! ip = Some entry)
        by (rewrite Ha; apply lookup_insert_eq).
      pose proof (authGet_cached b64 ip path' t' auth (snd first) cred entry Hlook Hcred)
        as Hsecond.
      cbv zeta in Hsecond. fold rq3 in Hsecond. fold second in Hsecond.
      rewrite Hnet, Hsent, H3 in Hsecond.
      destruct (Z.eqb_spec (statusCode res3) 401) as [He | _]; [contradiction |].
      pose proof (afterSend_afterHeaders (snd first) rq3 path' cred entry) as (Fc & _ & Fs).
      rewrite Hsecond. cbn [fst snd]. rewrite Fc, Fs, Hsent, <- app_assoc.
      repeat split; assumption.
    + exfalso. exact (Hno res2 H2).
Qed.

Lemma negotiation_is_paid_once_witness :
  let path := "/cgi-bin/param.cgi?get_image_conf" in
  let path' := "/cgi-bin/ptzctrl.cgi?ptzcmd&home" in
  let first := run (authGet (fun s => s) camera path 4000 (Some admin))
                 (emptyWorld challengesBasic) in
  let second := run (authGet (fun s => s) camera path' 4000 (Some admin)) (snd first) in
  map (fun rq => (reqPath rq, reqHeaders rq !! "Authorization")) (sent (snd second))
  = [(path, None); (path, Some "Basic YWRtaW46c2VjcmV0");
     (path', Some "Basic YWRtaW46c2VjcmV0")]
  /\ authCache (snd second) = authCache (snd first).
Proof.
  intros path path' first second.
  destruct (negotiation_is_paid_once (fun s => s) (emptyWorld challengesBasic)
              camera path path' 4000 4000 (Some admin) admin (mkCachedAuth basic ∅ None)
              (mkResponse 401 (Some basicChallenge) [] "")
              (mkResponse 200 None [] "wb_mode=0")
              (mkResponse 200 None [] "wb_mode=0"))
    as (_ & _ & _ & _ & Hsent & Hcache);
    try (vm_compute; reflexivity); try (vm_compute; discriminate).
  fold first in Hsent, Hcache. fold second in Hsent, Hcache.
  split; [| exact Hcache].
  rewrite Hsent. vm_compute. reflexivity.
Defined.

(* ------------------------------------------------------------------ *)
(** ** The session cookie a challenge leaves *)
(* ------------------------------------------------------------------ *)

Lemma split_nonempty (sep : ascii) (s : string) : Js.split sep s <> [].
Proof.
  destruct s as [|c s]; [discriminate |].
  cbn [Js.split]. destruct (Ascii.eqb c sep); [discriminate |].
  destruct (Js.split sep s); discriminate.
Qed.

Lemma splitHead_cons (sep c : ascii) (s : string) :
  Js.splitHead sep (String c s)
  = if Ascii.eqb c sep then EmptyString else String c (Js.splitHead sep s).
Proof.
  unfold Js.splitHead. cbn [Js.split].
  destruct (Ascii.eqb c sep); [reflexivity |].
  pose proof (split_nonempty sep s) as Hne.
  destruct (Js.split sep s); [contradiction | reflexivity].
Qed.

Lemma splitHead_without (sep : ascii) (s : string) :
  Js.includes (Js.splitHead sep s) (String sep EmptyString) = false.
Proof.
  induction s as [|c s IH]; [reflexivity |].
  rewrite splitHead_cons. destruct (Ascii.eqb_spec c sep) as [-> | Hne]; [reflexivity |].
  cbn [Js.includes String.prefix]. rewrite IH.
  destruct (ascii_dec sep c) as [-> | _]; [contradiction Hne; reflexivity | reflexivity].
Qed.

Lemma splitHead_prefix (sep : ascii) (s : string) :
  Js.startsWith s (Js.splitHead sep s) = true.
Proof.
  unfold Js.startsWith. induction s as [|c s IH]; [reflexivity |].
  rewrite splitHead_cons. destruct (Ascii.eqb c sep); [reflexivity |].
  cbn [String.prefix]. destruct (ascii_dec c c) as [_ | Hn]; [exact IH | contradiction Hn; reflexivity].
Qed.

Lemma splitHead_keeps (sep : ascii) (p : string) :
  forall s,
    Js.includes p (String sep EmptyString) = false ->
    Js.startsWith s p = true ->
    Js.startsWith (Js.splitHead sep s) p = true.
Proof.
  unfold Js.startsWith. induction p as [|x p IH]; intros s Hp Hs.
  - destruct (Js.splitHead sep s); reflexivity.
  - destruct s as [|c s]; [discriminate |].
    cbn [String.prefix] in Hs. destruct (ascii_dec x c) as [-> | _]; [| discriminate].
    apply includes_char in Hp as [Hc Hp].
    rewrite splitHead_cons. destruct (Ascii.eqb_spec c sep) as [-> | _]; [contradiction Hc; reflexivity |].
    cbn [String.prefix]. destruct (ascii_dec c c) as [_ | Hn]; [| contradiction Hn; reflexivity].
    exact (IH s Hp Hs).
Qed.

Lemma findTkt_found (setCookies : list string) (line : string) :
  findTkt setCookies = Some line ->
  In line setCookies /\ Js.startsWith line "auth_tkt=" = true.
Proof. unfold findTkt. intros H. apply List.find_some in H. exact H. Qed.

(** X23: a session cookie is captured only for the vendor scheme, never
    with a Digest or a Basic challenge, and what is captured is the bare
    pair of the first [auth_tkt] cookie of the response: it starts with
    [auth_tkt=], it is the beginning of that [Set-Cookie] line, and it holds
    no semicolon, so that no attribute of the cookie is sent back. *)
Theorem detectScheme_cookie (b64 : string -> string) (res : Response)
    (sch : Scheme) (ch : Challenge) (ck : string) :
  detectScheme b64 res = Some (sch, ch, Some ck) ->
  sch = authn
  /\ findTkt (setCookie res) <> None
  /\ Js.startsWith ck "auth_tkt=" = true
  /\ Js.includes ck ";" = false
  /\ exists line, In line (setCookie res) /\ Js.startsWith line ck = true.
Proof.
  assert (Hcookie : forall line,
             findTkt (setCookie res) = Some line ->
             Js.startsWith (Js.splitHead ";"%char line) "auth_tkt=" = true
             /\ Js.includes (Js.splitHead ";"%char line) ";" = false
             /\ exists line', In line' (setCookie res)
                              /\ Js.startsWith line' (Js.splitHead ";"%char line) = true).
  { intros line Hl. apply findTkt_found in Hl as [Hin Hst].
    split; [apply splitHead_keeps; [reflexivity | exact Hst] |].
    split; [apply splitHead_without |].
    exists line. split; [exact Hin | apply splitHead_prefix]. }
  unfold detectScheme. cbv zeta.
  destruct (Js.startsWith _ "digest"); [discriminate |].
  destruct (Js.startsWith _ "authn" || Js.startsWith _ "auth_tkt").
  - destruct (findTkt (setCookie res)) as [line|] eqn:Hl; [| discriminate].
    intros H. injection H as <- _ <-.
    split; [reflexivity |]. split; [discriminate |]. exact (Hcookie line eq_refl).
  - destruct (Js.startsWith _ "basic"); [discriminate |].
    destruct (findTkt (setCookie res)) as [line|] eqn:Hl; [| discriminate].
    intros H. injection H as <- _ <-.
    split; [reflexivity |]. split; [discriminate |]. exact (Hcookie line eq_refl).
Qed.

Lemma detectScheme_cookie_witness :
  authn = authn
  /\ findTkt ["lang=en; Path=/"; "auth_tkt=bjBuY2UhYm9iIXRvaw==; Path=/; HttpOnly"] <> None
  /\ Js.startsWith "auth_tkt=bjBuY2UhYm9iIXRvaw==" "auth_tkt=" = true
  /\ Js.includes "auth_tkt=bjBuY2UhYm9iIXRvaw==" ";" = false
  /\ exists line,
       In line ["lang=en; Path=/"; "auth_tkt=bjBuY2UhYm9iIXRvaw==; Path=/; HttpOnly"]
       /\ Js.startsWith line "auth_tkt=bjBuY2UhYm9iIXRvaw==" = true.
Proof.
  apply (detectScheme_cookie (fun s => s)
           (mkResponse 401 None
              ["lang=en; Path=/"; "auth_tkt=bjBuY2UhYm9iIXRvaw==; Path=/; HttpOnly"] "")
           authn {[ "nonce" := "bjBuY2UhYm9iIXRvaw==" ]} "auth_tkt=bjBuY2UhYm9iIXRvaw==").
  vm_compute. reflexivity.
Defined.

(* ------------------------------------------------------------------ *)
(** ** The two snapshot endpoints *)
(* ------------------------------------------------------------------ *)

Lemma httpGetBinary_unchallenged (b64 : string -> string) (w : World)
    (ip path : string) (t : Z) (auth : option Credential) (res : Response) :
  authCache w !! ip = None \/ usable auth = None ->
  network w (sent w) (plainRequest ip path t) = Responded res ->
  statusCode res <> 401 ->
  run (httpGetBinary b64 ip path t auth) w
  = (if statusCode res =? 404
     then Rejected (newError "404 Not Found - endpoint not supported")
     else Resolved (body res),
     afterSend (plainRequest ip path t) w).
Proof.
  intros Hc Ho Hne.
  pose proof (authGet_uncached b64 ip path t auth w Hc) as Hg.
  rewrite (authGetFresh_unchallenged b64 ip path t auth w res Ho Hne) in Hg.
  unfold httpGetBinary. unfold run in *. unfold mbind, M_bind. rewrite Hg.
  destruct (statusCode res =? 404); reflexivity.
Qed.

Lemma httpGetBinary_first_failure (b64 : string -> string) (w : World)
    (ip path : string) (t : Z) (auth : option Credential) :
  authCache w !! ip = None \/ usable auth = None ->
  (forall res, network w (sent w) (plainRequest ip path t) <> Responded res) ->
  exists err,
    run (httpGetBinary b64 ip path t auth) w
    = (Rejected err, afterSend (plainRequest ip path t) w).
Proof.
  intros Hc Hno.
  pose proof (authGet_first_failure b64 w ip path t auth Hc Hno) as Hg.
  unfold httpGetBinary. unfold run in *. unfold mbind, M_bind. rewrite Hg.
  eexists. reflexivity.
Qed.

(** X24: the second snapshot endpoint is tried exactly when the read of
    the first is rejected. For a first request that is not challenged this
    means: a 404 or a failure of the request leads to [/snapshot.jpg], in
    the world the first request left, and the outcome of the handler is that
    of the second read alone; every other status, a 500 included, ends the
    fetch with the body of the first response as the picture. *)
Theorem snapshotFetch_fallback (b64 : string -> string) (w : World)
    (ip : string) (auth : option Credential) :
  authCache w !! ip = None \/ usable auth = None ->
  let rq1 := plainRequest ip "/cgi-bin/snapshot.cgi" 5000 in
  let second := run (httpGetBinary b64 ip "/snapshot.jpg" 5000 auth) (afterSend rq1 w) in
  (forall res,
      network w (sent w) rq1 = Responded res -> statusCode res <> 401 ->
      run (snapshotFetch b64 ip auth) w
      = if statusCode res =? 404 then second else (Resolved (body res), afterSend rq1 w))
  /\ ((forall res, network w (sent w) rq1 <> Responded res) ->
      run (snapshotFetch b64 ip auth) w = second).
Proof.
  intros Hc rq1 second. split.
  - intros res Ho Hne.
    pose proof (httpGetBinary_unchallenged b64 w ip "/cgi-bin/snapshot.cgi" 5000 auth res
                  Hc Ho Hne) as Hb.
    unfold snapshotFetch. unfold run in *. unfold mbind, M_bind. rewrite Hb.
    destruct (statusCode res =? 404); reflexivity.
  - intros Hno.
    destruct (httpGetBinary_first_failure b64 w ip "/cgi-bin/snapshot.cgi" 5000 auth Hc Hno)
      as [err Hb].
    unfold snapshotFetch. unfold run in *. unfold mbind, M_bind. rewrite Hb. reflexivity.
Qed.

Lemma snapshotFetch_fallback_witness :
  fst (run (snapshotFetch (fun s => s) camera None) (emptyWorld htmlPage))
  = Resolved "<html><body>401 Unauthorized</body></html>"
  /\ List.length (sent (snd (run (snapshotFetch (fun s => s) camera None)
                               (emptyWorld refuses)))) = 2%nat.
Proof.
  split.
  - destruct (snapshotFetch_fallback (fun s => s) (emptyWorld htmlPage) camera None
                (or_introl eq_refl)) as [H _].
    rewrite (H (mkResponse 200 None [] "<html><body>401 Unauthorized</body></html>") eq_refl)
      by (cbn; lia).
    reflexivity.
  - destruct (snapshotFetch_fallback (fun s => s) (emptyWorld refuses) camera None
                (or_introl eq_refl)) as [_ H].
    rewrite H by (intros res; vm_compute; discriminate).
    vm_compute. reflexivity.
Defined.

(* ------------------------------------------------------------------ *)
(** ** Reading several groups of settings *)
(* ------------------------------------------------------------------ *)




(* ------------------------------------------------------------------ *)
(** ** Commands sent without credentials *)
(* ------------------------------------------------------------------ *)

Lemma httpGet_plain (b64 : string -> string) (w : World)
    (ip path : string) (t : Z) (auth : option Credential) (res : Response) :
  usable auth = None ->
  network w (sent w) (plainRequest ip path t) = Responded res ->
  run (httpGet b64 ip path t auth) w
  = (Resolved (body res), afterSend (plainRequest ip path t) w).
Proof.
  intros Hu Ho. pose proof (authGet_plain b64 w ip path t auth Hu) as Hg.
  rewrite Ho in Hg.
  unfold httpGet. unfold run in *. unfold mbind, M_bind. rewrite Hg. reflexivity.
Qed.

(** X26: on a real host and without a usable credential, every command
    that is sent with a single GET reports success for whatever response
    the camera gives, a 401 or a 500 included, after exactly that one
    request: the status and the body are never looked at. This holds for
    [camera:zoom], [camera:focus], [camera:ptzReset], [camera:osdNavigate],
    [camera:zoomTo], [camera:setFocusLock], [camera:setOsdState],
    [camera:setImageValue], [camera:setOverlay], [camera:setTrackPreset] and
    [camera:setIRChannel], each with its own path. *)
Theorem commands_without_credentials_report_success (b64 : string -> string) (w : World)
    (ip : string) (auth : option Credential) :
  isMock ip = false ->
  usable auth = None ->
  let reports (handler : M (Reply unit)) (urlPath : string) :=
    forall res,
      network w (sent w) (plainRequest ip urlPath 4000) = Responded res ->
      run handler w = (Success tt, afterSend (plainRequest ip urlPath 4000) w) in
  (forall dir spd,
      reports (zoom b64 ip dir spd auth) ("/cgi-bin/ptzctrl.cgi?ptzcmd&" +:+ dir +:+ "&" +:+ spd))
  /\ (forall cmd,
        reports (focus b64 ip cmd auth) ("/cgi-bin/ptzctrl.cgi?ptzcmd&" +:+ cmd +:+ "&3"))
  /\ reports (ptzReset b64 ip auth) "/cgi-bin/param.cgi?pan_tiltdrive_reset"
  /\ (forall cmd,
        reports (osdNavigate b64 ip cmd auth) ("/cgi-bin/ptzctrl.cgi?ptzcmd&" +:+ cmd))
  /\ (forall position speed,
        reports (zoomTo b64 ip position speed auth)
          ("/cgi-bin/ptzctrl.cgi?ptzcmd&zoomto&" +:+ speed +:+ "&" +:+ posHex position))
  /\ (forall lock,
        reports (setFocusLock b64 ip lock auth)
          ("/cgi-bin/param.cgi?ptzcmd&" +:+ (if lock then "lock_mfocus" else "unlock_mfocus")))
  /\ (forall open,
        reports (setOsdState b64 ip open auth)
          ("/cgi-bin/param.cgi?navigate_mode&" +:+ (if open then "OSD" else "PTZ")))
  /\ (forall param value,
        reports (setImageValue b64 ip param value auth)
          ("/cgi-bin/ptzctrl.cgi?post_image_value&" +:+ param +:+ "&" +:+ value))
  /\ (forall param value,
        reports (setOverlay b64 ip param value auth)
          ("/cgi-bin/param.cgi?set_overlay&" +:+ param +:+ "&" +:+ value))
  /\ (forall value,
        reports (setTrackPreset b64 ip value auth)
          ("/cgi-bin/ptzctrl.cgi?post_image_value&trackpreset&" +:+ value))
  /\ (forall channel,
        reports (setIRChannel b64 ip channel auth)
          ("/cgi-bin/param.cgi?post_ir_info=&ir_id=" +:+ channel)).
Proof.
  intros Hm Hu reports.
  assert (Hone : forall path res,
             network w (sent w) (plainRequest ip path 4000) = Responded res ->
             run (r ← httpGet b64 ip path 4000 auth; mret (ignoreBody r)) w
             = (Success tt, afterSend (plainRequest ip path 4000) w)).
  { intros path res Ho. pose proof (httpGet_plain b64 w ip path 4000 auth res Hu Ho) as Hg.
    unfold run in *. unfold mbind, M_bind. rewrite Hg. reflexivity. }
  unfold reports, zoom, focus, ptzReset, osdNavigate, zoomTo, setFocusLock, setOsdState,
    setImageValue, setOverlay, setTrackPreset, setIRChannel, getFrom, imageValuePath,
    zoomToPath.
  rewrite Hm.
  repeat split; intros; eapply Hone; eassumption.
Qed.

Lemma commands_without_credentials_report_success_witness :
  fst (run (setIRChannel (fun s => s) camera "2" None) (emptyWorld rejectsAll)) = Success tt
  /\ map reqPath (sent (snd (run (setIRChannel (fun s => s) camera "2" None)
                               (emptyWorld rejectsAll))))
     = ["/cgi-bin/param.cgi?post_ir_info=&ir_id=2"].
Proof.
  destruct (commands_without_credentials_report_success (fun s => s) (emptyWorld rejectsAll)
              camera None eq_refl eq_refl)
    as (_ & _ & _ & _ & _ & _ & _ & _ & _ & _ & H).
  rewrite (H "2" (mkResponse 401 (Some basicChallenge) [] "") eq_refl).
  split; reflexivity.
Defined.

(* ------------------------------------------------------------------ *)
(** ** The simulated camera *)
(* ------------------------------------------------------------------ *)

Lemma speedOf_forward (parsed : option Z) : isForward parsed = true -> 0 < Mock.speedOf parsed.
Proof.
  unfold isForward, Mock.speedOf. destruct parsed as [n|]; [| lia].
  intros H. apply Z.leb_le in H. destruct (Z.eqb_spec n 0); lia.
Qed.

Lemma straight_move_in_range (cmd : string) (parsed : option Z) (p : Mock.Ptz) :
  isDiagonal cmd = false -> isForward parsed = true ->
  inRange p -> inRange (Mock.ptz cmd parsed p).
Proof.
  intros Hd Hf Hp. pose proof (speedOf_forward parsed Hf) as Hs.
  unfold isDiagonal in Hd.
  apply orb_false_elim in Hd as [Hd H4]. apply orb_false_elim in Hd as [Hd H3].
  apply orb_false_elim in Hd as [H1 H2].
  unfold Mock.ptz. cbv zeta. rewrite H1, H2, H3, H4.
  destruct p as [x y z]. unfold inRange in *. cbn [Mock.pan Mock.tilt] in Hp.
  destruct (String.eqb cmd "up"), (String.eqb cmd "down"), (String.eqb cmd "left"),
    (String.eqb cmd "right"), (String.eqb cmd "home");
    cbn [Mock.setPan Mock.setTilt Mock.pan Mock.tilt Mock.zoomLevel]; lia.
Qed.

(** X27: on the simulated camera the four straight moves, [home] and every
    unknown command keep the position in its range, pan from -100 to 100 and
    tilt from -50 to 50, as long as the speed argument is not negative: this
    holds after any sequence of such moves from the start. The diagonal
    moves are not clamped: six times [upright] from the start leave the
    tilt at 60; and a negative speed turns the clamp of a straight move
    around, so that one [up] at -30 leaves the tilt at -60. *)
Theorem mock_ptz_range (l : list (string * option Z)) :
  Forall (fun m => isDiagonal (fst m) = false /\ isForward (snd m) = true) l ->
  inRange (moves l (Mock.position Mock.initial))
  /\ Mock.tilt (moves (repeat ("upright", None) 6) (Mock.position Mock.initial)) = 60
  /\ Mock.tilt (Mock.ptz "up" (Some (-30)) (Mock.position Mock.initial)) = -60.
Proof.
  intros Hl. split; [| split; reflexivity].
  assert (Hgen : forall p, inRange p -> inRange (moves l p)).
  { induction Hl as [| m l [Hd Hf] _ IH]; intros p Hp; [exact Hp |].
    unfold moves. cbn [fold_left]. apply IH.
    apply straight_move_in_range; assumption. }
  apply Hgen. unfold inRange. cbn. lia.
Qed.

Lemma mock_ptz_range_witness :
  inRange (moves [("right", Some 80); ("up", None); ("left", Some 3); ("zoomin", Some 7)]
             (Mock.position Mock.initial))
  /\ Mock.tilt (moves (repeat ("upright", None) 6) (Mock.position Mock.initial)) = 60
  /\ Mock.tilt (Mock.ptz "up" (Some (-30)) (Mock.position Mock.initial)) = -60.
Proof.
  apply (mock_ptz_range [("right", Some 80); ("up", None); ("left", Some 3); ("zoomin", Some 7)]).
  repeat constructor.
Defined.

Lemma assign_lookup (params target : Config) (k : string) :
  k <> "__proto__" ->
  Mock.assign params target !! k
  = match params !! k with Some v => Some v | None => target !! k end.
Proof.
  intros Hk. unfold Mock.assign. rewrite lookup_union, lookup_delete_ne by congruence.
  destruct (params !! k), (target !! k); reflexivity.
Qed.

(** X28: the simulated camera remembers what is set. After
    [camera:setImageParam] (or the exposure or focus variant) a read of the
    settings gives, for every name, the value just set, or the value it had
    when the name was not set; after [camera:syncAll] the focus group wins
    over the exposure group and that over the image group; [camera:connect]
    shows the same settings as [camera:getSettings]; moving the camera
    changes no setting and setting changes no position; and a value set
    under the name [__proto__] is not stored. *)
Theorem mock_settings_read_back (params imgP expP focP : Config) (st : Mock.State)
    (cmd : string) (parsed : option Z) (k : string) :
  k <> "__proto__" ->
  Mock.getSettings (Mock.setParams params st) !! k
  = match params !! k with Some v => Some v | None => Mock.getSettings st !! k end
  /\ Mock.getSettings (Mock.syncAll imgP expP focP st) !! k
     = match focP !! k, expP !! k, imgP !! k with
       | Some v, _, _ => Some v
       | None, Some v, _ => Some v
       | None, None, Some v => Some v
       | None, None, None => Mock.getSettings st !! k
       end
  /\ config (Mock.connect (Mock.setParams params st))
     = Mock.getSettings (Mock.setParams params st)
  /\ Mock.getSettings (Mock.move cmd parsed st) = Mock.getSettings st
  /\ Mock.position (Mock.setParams params st) = Mock.position st
  /\ Mock.getSettings (Mock.setParams params st) !! "__proto__"
     = Mock.getSettings st !! "__proto__".
Proof.
  intros Hk. unfold Mock.getSettings, Mock.setParams, Mock.syncAll, Mock.connect, Mock.move.
  cbn [Mock.settings Mock.position config].
  split; [apply assign_lookup; exact Hk |].
  split; [rewrite !assign_lookup by exact Hk;
          destruct (focP !! k), (expP !! k), (imgP !! k); reflexivity |].
  repeat (split; [reflexivity |]).
  unfold Mock.assign. rewrite lookup_union, lookup_delete_eq.
  destruct (Mock.settings st !! "__proto__"); reflexivity.
Qed.

Lemma mock_settings_read_back_witness :
  Mock.getSettings (Mock.setParams {[ "gain" := VNum (Num.ofZ 9) ]} Mock.initial) !! "gain"
  = Some (VNum (Num.ofZ 9))
  /\ Mock.getSettings (Mock.setParams {[ "gain" := VNum (Num.ofZ 9) ]} Mock.initial) !! "iris"
     = Some (VNum (Num.ofZ 0)).
Proof.
  destruct (mock_settings_read_back {[ "gain" := VNum (Num.ofZ 9) ]} ∅ ∅ ∅ Mock.initial
              "up" None "gain") as [Hg _]; [discriminate |].
  destruct (mock_settings_read_back {[ "gain" := VNum (Num.ofZ 9) ]} ∅ ∅ ∅ Mock.initial
              "up" None "iris") as [Hi _]; [discriminate |].
  rewrite Hg, Hi. split; vm_compute; reflexivity.
Defined.
